(** * Bulk e-mail dispatch of the admin dashboard

    A shallow embedding of [src/controllers/EmailController.ts] and of the
    [EmailService] class (imported there from [../services/emailService])
    together with the
    properties of the batching policy, of the single-send operation, of the
    connection check and of the template tables.

    Conventions of the embedding:
    - [batchSize] and [delayBetweenBatches] are integers, as the
      specification has them, and are modelled in [Z] together with the loop
      counter; array lengths and the success and failure counters, which
      only count up from zero, are [nat].
    - An [async] function is a computation that yields the promise it returns.
      The external transport settles every promise it hands out; what it
      answers may depend on everything that was asked of it before, so its
      reply is a function of the trace of earlier events.
    - Console output ([this.log], [console.error]) feeds nothing back into the
      program and is not recorded in the trace.

    The development then covers the code around them: the loading of the
    templates and the convenience sends, the module table of the
    configuration with its navigation helpers, [BaseController] with its
    validation, [UserController], and the paging of [UserService.getUsers].
    In these parts JavaScript numbers are integers, a string stands for the
    JavaScript string with the same characters, one code unit below 256
    each, and what only the engine or the library knows (the messages of
    its [TypeError]s, the clock, [toISOString], [toLowerCase]) is a
    parameter. *)

From Stdlib Require Import ZArith Ascii String List Lia.
From stdpp Require Import base option list strings numbers pretty.

Local Open Scope Z_scope.

(** ** JavaScript values the code handles *)

(** A thrown value: an [Error] object with its [message], or anything else. *)
Inductive Thrown : Type :=
  | Err (message : string)
  | NotAnError.

(** The result of a synchronous call into a library. *)
Inductive Outcome (A : Type) : Type :=
  | Returns (a : A)
  | Throws (e : Thrown).
Arguments Returns {A} a.
Arguments Throws {A} e.

(** The three states of a promise. *)
Inductive Promise (A : Type) : Type :=
  | Pending
  | Fulfilled (a : A)
  | Rejected (e : Thrown).
Arguments Pending {A}.
Arguments Fulfilled {A} a.
Arguments Rejected {A} e.

(** A settled promise made from the answer of a library. *)
Definition settled {A : Type} (o : Outcome A) : Promise A :=
  match o with
  | Returns a => Fulfilled a
  | Throws e => Rejected e
  end.

(** [x || d] on an optional integer: [undefined] and [0] are falsy. *)
Definition or_default (x : option Z) (d : Z) : Z :=
  match x with
  | Some v => if v =? 0 then d else v
  | None => d
  end.

(** Truthiness of an optional string: [undefined] and [""] are falsy. *)
Definition truthy_string (x : option string) : bool :=
  match x with
  | Some EmptyString => false
  | Some _ => true
  | None => false
  end.

(** [Array.prototype.slice(start, end)]: negative indices count from the end,
    both ends are clamped to the array. *)
Definition relative_index (len k : Z) : Z :=
  if k <? 0 then Z.max (len + k) 0 else Z.min k len.

Definition slice {A : Type} (l : list A) (start fin : Z) : list A :=
  let len := Z.of_nat (length l) in
  let k := relative_index len start in
  let final := relative_index len fin in
  take (Z.to_nat (final - k)) (drop (Z.to_nat k) l).

(** [String.prototype.endsWith]. *)
Definition endsWith (s suffix : string) : bool :=
  let n := String.length s in
  let m := String.length suffix in
  if (m <=? n)%nat
  then bool_decide (substring (n - m) m s = suffix)
  else false.

(** [String.prototype.replace] with a string pattern: only the first
    occurrence is replaced. *)
Definition replace (s pattern replacement : string) : string :=
  match index 0 pattern s with
  | Some n =>
      substring 0 n s +:+ replacement +:+
      substring (n + String.length pattern)
                (String.length s - (n + String.length pattern)) s
  | None => s
  end.

(** A JavaScript [Map] with string keys: insertion ordered, [set] on a key
    that is present overwrites the value in place. *)
Module JsMap.
Section Defs.
Context {V : Type}.

Definition t : Type := list (string * V).

Definition empty : t := [].

Fixpoint get (m : t) (k : string) : option V :=
  match m with
  | [] => None
  | (k', v) :: rest => if bool_decide (k' = k) then Some v else get rest k
  end.

Fixpoint set (m : t) (k : string) (v : V) : t :=
  match m with
  | [] => [(k, v)]
  | (k', v') :: rest =>
      if bool_decide (k' = k) then (k, v) :: rest
      else (k', v') :: set rest k v
  end.

Definition keys (m : t) : list string := map fst m.
End Defs.
Arguments t V : clear implicits.
End JsMap.

(** ** Data of the e-mail module *)

(** [string | string[]] *)
Inductive Recipients : Type :=
  | One (address : string)
  | Many (addresses : list string).

Module Attachment.
Record t : Type := mk {
  filename : string;
  content : string;
  contentType : option string
}.
End Attachment.

(** A value of a template context, [unknown] in the source. *)
Inductive JsValue : Type :=
  | VUndefined
  | VString (s : string)
  | VBool (b : bool).

(** [Record<string, unknown>] *)
Definition Context : Type := list (string * JsValue).

(** A compiled Handlebars template: a function of the context that may
    throw when it is applied. *)
Definition HandlebarsTemplateDelegate : Type := Context -> Outcome string.

Module EmailData.
Record t : Type := mk {
  to : Recipients;
  subject : string;
  template : string;
  context : Context;
  attachments : option (list Attachment.t)
}.
End EmailData.

Module EmailSendRequest.
Record t : Type := mk {
  to : Recipients;
  subject : string;
  template : string;
  context : Context;
  attachments : option (list Attachment.t)
}.
End EmailSendRequest.

Module EmailBulkRequest.
Record t : Type := mk {
  emails : list EmailSendRequest.t;
  batchSize : option Z;
  delayBetweenBatches : option Z
}.
End EmailBulkRequest.

Module EmailResult.
Record t : Type := mk {
  success : bool;
  messageId : option string;
  error : option string
}.
End EmailResult.

(** ["low" | "medium" | "high"] *)
Inductive Priority : Type := low | medium | high.

Definition priority_string (p : Priority) : string :=
  match p with
  | low => "low"
  | medium => "medium"
  | high => "high"
  end.

Module Notification.
Record t : Type := mk {
  subject : string;
  message : string;
  type : string;
  priority : Priority;
  actionRequired : option bool;
  actionDescription : option string;
  actionUrl : option string;
  actionButtonText : option string;
  additionalInfo : option string
}.
End Notification.

(** The object [sendBulkEmails] resolves with. *)
Module BulkSummary.
Record t : Type := mk {
  total : nat;
  successful : nat;
  failed : nat;
  results : list EmailResult.t
}.
End BulkSummary.

(** The part of [EMAIL_CONFIG] the service reads after construction. *)
Module EmailConfig.
Record t : Type := mk {
  from : string;
  replyTo : option string
}.
End EmailConfig.

Module MailOptions.
Record t : Type := mk {
  from : string;
  to : Recipients;
  subject : string;
  html : string;
  attachments : option (list Attachment.t);
  replyTo : option string
}.
End MailOptions.

(** What [transporter.sendMail] resolves with. *)
Module SentMessageInfo.
Record t : Type := mk { messageId : string }.
End SentMessageInfo.

(** ** Effects *)

(** What the program asks of the outside world. *)
Inductive Event : Type :=
  | SendMail (mailOptions : MailOptions.t)
  | Verify
  | SetTimeout (ms : Z).

Definition Trace : Type := list Event.

(** The collaborators of the service: file system, template compiler,
    configuration, transport, clock, and the order in which the promises of
    a batch settle. *)
Record Env : Type := {
  cwd : string;
  readdirSync : string -> Outcome (list string);
  readFileSync : string -> Outcome string;
  Handlebars_compile : string -> HandlebarsTemplateDelegate;
  EMAIL_CONFIG : EmailConfig.t;
  transporter_sendMail : Trace -> MailOptions.t -> Outcome SentMessageInfo.t;
  transporter_verify : Trace -> Outcome unit;
  settle_order : Trace -> list nat;
  toLocaleString : Trace -> string
}.

(** The private fields of [EmailService] that hold data. *)
Record EmailService : Type := {
  templates : JsMap.t HandlebarsTemplateDelegate;
  templateCache : JsMap.t string
}.

(** The state a computation runs in: the singleton service and the events
    so far. *)
Record World : Type := {
  service : EmailService;
  trace : Trace
}.

(** How a computation ends. [Waiting] is an [await] on a promise that never
    settles, [Exhausted] a loop that ran out of the iterations it was
    given. *)
Inductive Completion (A : Type) : Type :=
  | Normal (a : A)
  | Abrupt (e : Thrown)
  | Waiting
  | Exhausted.
Arguments Normal {A} a.
Arguments Abrupt {A} e.
Arguments Waiting {A}.
Arguments Exhausted {A}.

Definition M (A : Type) : Type := World -> Completion A * World.

Definition ret {A : Type} (a : A) : M A := fun w => (Normal a, w).

Definition bind {A B : Type} (m : M A) (k : A -> M B) : M B :=
  fun w =>
    match m w with
    | (Normal a, w') => k a w'
    | (Abrupt e, w') => (Abrupt e, w')
    | (Waiting, w') => (Waiting, w')
    | (Exhausted, w') => (Exhausted, w')
    end.

Notation "'let*' x := m 'in' k" := (bind m (fun x => k))
  (at level 10, x name, m at level 100, k at level 200, only parsing).

Definition throw {A : Type} (e : Thrown) : M A := fun w => (Abrupt e, w).

Definition exhausted {A : Type} : M A := fun w => (Exhausted, w).

(** [try { body } catch (error) { handler }] *)
Definition try_catch {A : Type} (body : M A) (handler : Thrown -> M A) : M A :=
  fun w =>
    match body w with
    | (Abrupt e, w') => handler e w'
    | other => other
    end.

(** A synchronous library call. *)
Definition call {A : Type} (o : Outcome A) : M A :=
  match o with
  | Returns a => ret a
  | Throws e => throw e
  end.

(** The body of an [async] function: the call yields a promise that carries
    how the body ends. *)
Definition async {A : Type} (body : M A) : M (Promise A) :=
  fun w =>
    match body w with
    | (Normal a, w') => (Normal (Fulfilled a), w')
    | (Abrupt e, w') => (Normal (Rejected e), w')
    | (Waiting, w') => (Normal Pending, w')
    | (Exhausted, w') => (Exhausted, w')
    end.

Definition await {A : Type} (p : Promise A) : M A :=
  fun w =>
    match p with
    | Fulfilled a => (Normal a, w)
    | Rejected e => (Abrupt e, w)
    | Pending => (Waiting, w)
    end.

Definition this : M EmailService := fun w => (Normal (service w), w).

Definition emit (ev : Event) : M unit :=
  fun w => (Normal tt, {| service := service w; trace := trace w ++ [ev] |}).

Definition history : M Trace := fun w => (Normal (trace w), w).

(** [array.map(f)] for an [f] with effects: the calls are made in order. *)
Fixpoint Array_map {A B : Type} (f : A -> M B) (l : list A) : M (list B) :=
  match l with
  | [] => ret []
  | x :: rest =>
      let* y := f x in
      let* ys := Array_map f rest in
      ret (y :: ys)
  end.

(** [Promise.all]: every element writes its value into its own slot when it
    fulfils; the first element to reject rejects the whole. [order] lists
    the elements that settle first, in the order in which they do; the
    others settle afterwards. *)
Fixpoint settle_all {A : Type} (ps : list (Promise A)) (order : list nat)
    (values : list (option A)) : Promise (list A) :=
  match order with
  | [] =>
      match mapM id values with
      | Some vs => Fulfilled vs
      | None => Pending
      end
  | k :: rest =>
      match ps !! k with
      | Some (Fulfilled v) => settle_all ps rest (<[k := Some v]> values)
      | Some (Rejected e) => Rejected e
      | Some Pending => settle_all ps rest values
      | None => settle_all ps rest values
      end
  end.

Definition Promise_all {A : Type} (ps : list (Promise A)) (order : list nat)
    : Promise (list A) :=
  settle_all ps (order ++ seq 0 (length ps)) (replicate (length ps) None).

(** ** The service and the controller *)

Section Program.
Variable env : Env.

(** [path.join(dir, name)] for a [name] without separators. *)
Definition path_join (dir name : string) : string := dir +:+ "/" +:+ name.

(** *** [EmailService] *)

(** The body of the [forEach] in [loadTemplates]. The maps are updated in
    place, so what was stored before an exception stays stored. *)
Definition loadTemplate (templatesDir file : string) : M unit :=
  fun w =>
    if endsWith file ".hbs" then
      let templateName := replace file ".hbs" "" in
      let templatePath := path_join templatesDir file in
      match readFileSync env templatePath with
      | Throws e => (Abrupt e, w)
      | Returns templateContent =>
          let svc := service w in
          let cache := JsMap.set (templateCache svc) templateName templateContent in
          let compiled :=
            JsMap.set (templates svc) templateName
                      (Handlebars_compile env templateContent) in
          (Normal tt,
           {| service := {| templates := compiled; templateCache := cache |};
              trace := trace w |})
      end
    else (Normal tt, w).

(** [array.forEach(f)] *)
Fixpoint forEach {A : Type} (f : A -> M unit) (l : list A) : M unit :=
  match l with
  | [] => ret tt
  | x :: rest => let* _ := f x in forEach f rest
  end.

Definition loadTemplates : M unit :=
  let templatesDir :=
    path_join (path_join (path_join (cwd env) "src") "templates") "emails" in
  try_catch
    (let* templateFiles := call (readdirSync env templatesDir) in
     forEach (loadTemplate templatesDir) templateFiles)
    (fun _ => ret tt).

(** The state right after [new EmailService()]: empty maps, then
    [loadTemplates]. *)
Definition new_EmailService : World :=
  snd (loadTemplates
         {| service := {| templates := JsMap.empty; templateCache := JsMap.empty |};
            trace := [] |}).

(** [this.transporter.sendMail(mailOptions)] *)
Definition sendMail (mailOptions : MailOptions.t)
    : M (Promise SentMessageInfo.t) :=
  let* h := history in
  let* _ := emit (SendMail mailOptions) in
  ret (settled (transporter_sendMail env h mailOptions)).

(** [error instanceof Error ? error.message : "Unknown error"] *)
Definition error_text (error : Thrown) : string :=
  match error with
  | Err message => message
  | NotAnError => "Unknown error"
  end.

Definition failure (error : Thrown) : EmailResult.t :=
  {| EmailResult.success := false;
     EmailResult.messageId := None;
     EmailResult.error := Some (error_text error) |}.

Definition not_found (template : string) : Thrown :=
  Err ("Template '" +:+ template +:+ "' not found").

Definition EmailService_sendEmail (data : EmailData.t)
    : M (Promise EmailResult.t) :=
  async
    (try_catch
       (let* svc := this in
        let* template :=
          match JsMap.get (templates svc) (EmailData.template data) with
          | None => throw (not_found (EmailData.template data))
          | Some template => ret template
          end in
        let* htmlContent := call (template (EmailData.context data)) in
        let mailOptions :=
          {| MailOptions.from := EmailConfig.from (EMAIL_CONFIG env);
             MailOptions.to := EmailData.to data;
             MailOptions.subject := EmailData.subject data;
             MailOptions.html := htmlContent;
             MailOptions.attachments := EmailData.attachments data;
             MailOptions.replyTo :=
               if truthy_string (EmailConfig.replyTo (EMAIL_CONFIG env))
               then EmailConfig.replyTo (EMAIL_CONFIG env)
               else None |} in
        let* sending := sendMail mailOptions in
        let* result := await sending in
        ret {| EmailResult.success := true;
               EmailResult.messageId := Some (SentMessageInfo.messageId result);
               EmailResult.error := None |})
       (fun error => ret (failure error))).

(** [x || d] on an optional string. *)
Definition string_or (x : option string) (d : string) : string :=
  match x with
  | Some v => if truthy_string x then v else d
  | None => d
  end.

Definition optional_string (x : option string) : JsValue :=
  match x with
  | Some v => VString v
  | None => VUndefined
  end.

Definition EmailService_sendWelcomeEmail
    (email firstName lastName username role : string)
    (department : option string) (dashboardUrl : string)
    : M (Promise EmailResult.t) :=
  async
    (let context :=
       [("firstName", VString firstName);
        ("lastName", VString lastName);
        ("username", VString username);
        ("role", VString role);
        ("department", VString (string_or department "Not specified"));
        ("dashboardUrl", VString dashboardUrl)] in
     let* sending :=
       EmailService_sendEmail
         {| EmailData.to := One email;
            EmailData.subject := "Welcome to AdminFront! 🎉";
            EmailData.template := "welcome";
            EmailData.context := context;
            EmailData.attachments := None |} in
     await sending).

Definition EmailService_sendPasswordResetEmail
    (email firstName lastName username resetUrl expiryTime : string)
    : M (Promise EmailResult.t) :=
  async
    (let* h := history in
     let context :=
       [("firstName", VString firstName);
        ("lastName", VString lastName);
        ("username", VString username);
        ("email", VString email);
        ("resetUrl", VString resetUrl);
        ("expiryTime", VString expiryTime);
        ("requestTime", VString (toLocaleString env h))] in
     let* sending :=
       EmailService_sendEmail
         {| EmailData.to := One email;
            EmailData.subject := "Password Reset Request - AdminFront";
            EmailData.template := "password-reset";
            EmailData.context := context;
            EmailData.attachments := None |} in
     await sending).

Definition EmailService_sendNotificationEmail (email name : string)
    (notification : Notification.t) : M (Promise EmailResult.t) :=
  async
    (let priorityClass :=
       "priority-" +:+ priority_string (Notification.priority notification) in
     let* h := history in
     let context :=
       [("recipientName", VString name);
        ("subject", VString (Notification.subject notification));
        ("message", VString (Notification.message notification));
        ("notificationType", VString (Notification.type notification));
        ("priority",
         VString (priority_string (Notification.priority notification)));
        ("timestamp", VString (toLocaleString env h));
        ("priorityClass", VString priorityClass);
        ("actionRequired",
         match Notification.actionRequired notification with
         | Some b => VBool b
         | None => VUndefined
         end);
        ("actionDescription",
         optional_string (Notification.actionDescription notification));
        ("actionUrl", optional_string (Notification.actionUrl notification));
        ("actionButtonText",
         optional_string (Notification.actionButtonText notification));
        ("additionalInfo",
         optional_string (Notification.additionalInfo notification))] in
     let* sending :=
       EmailService_sendEmail
         {| EmailData.to := One email;
            EmailData.subject := Notification.subject notification;
            EmailData.template := "notification";
            EmailData.context := context;
            EmailData.attachments := None |} in
     await sending).

Definition EmailService_sendCustomEmail (to : Recipients)
    (subject htmlContent : string)
    (attachments : option (list Attachment.t)) : M (Promise EmailResult.t) :=
  async
    (try_catch
       (let mailOptions :=
          {| MailOptions.from := EmailConfig.from (EMAIL_CONFIG env);
             MailOptions.to := to;
             MailOptions.subject := subject;
             MailOptions.html := htmlContent;
             MailOptions.attachments := attachments;
             MailOptions.replyTo :=
               if truthy_string (EmailConfig.replyTo (EMAIL_CONFIG env))
               then EmailConfig.replyTo (EMAIL_CONFIG env)
               else None |} in
        let* sending := sendMail mailOptions in
        let* result := await sending in
        ret {| EmailResult.success := true;
               EmailResult.messageId := Some (SentMessageInfo.messageId result);
               EmailResult.error := None |})
       (fun error => ret (failure error))).

Definition EmailService_verifyConnection : M (Promise bool) :=
  async
    (try_catch
       (let* h := history in
        let* _ := emit Verify in
        let* _ := await (settled (transporter_verify env h)) in
        ret true)
       (fun _ => ret false)).

Definition EmailService_getAvailableTemplates : M (list string) :=
  let* svc := this in
  ret (JsMap.keys (templates svc)).

Definition EmailService_getTemplateContent (templateName : string)
    : M (option string) :=
  let* svc := this in
  ret (JsMap.get (templateCache svc) templateName).

(** *** [EmailController] *)

(** [BaseController.handleError]: report and rethrow. *)
Definition handleError {A : Type} (error : Thrown) : M A := throw error.

Definition EmailController_sendEmail (request : EmailSendRequest.t)
    : M (Promise EmailResult.t) :=
  async
    (try_catch
       (let* sending :=
          EmailService_sendEmail
            {| EmailData.to := EmailSendRequest.to request;
               EmailData.subject := EmailSendRequest.subject request;
               EmailData.template := EmailSendRequest.template request;
               EmailData.context := EmailSendRequest.context request;
               EmailData.attachments := EmailSendRequest.attachments request |} in
        let* result := await sending in
        ret result)
       (fun error => handleError error)).

(** [await new Promise((resolve) => setTimeout(resolve, delay))] *)
Definition sleep (delay : Z) : M unit := emit (SetTimeout delay).

(** The local variables [results], [successful] and [failed]. *)
Record Tally : Type := {
  results : list EmailResult.t;
  successful : nat;
  failed : nat
}.

(** The body of [batchResults.forEach]. *)
Definition count (acc : Tally) (result : EmailResult.t) : Tally :=
  {| results := results acc ++ [result];
     successful :=
       if EmailResult.success result then S (successful acc) else successful acc;
     failed :=
       if EmailResult.success result then failed acc else S (failed acc) |}.

(** [await Promise.all(batchPromises)] *)
Definition await_all {A : Type} (ps : list (Promise A)) : M (list A) :=
  let* h := history in
  await (Promise_all ps (settle_order env h)).

(** The [for] loop of [sendBulkEmails], from the value [i] of its counter;
    [fuel] bounds how many times the body may run. *)
Fixpoint bulk_loop (fuel : nat) (emails : list EmailSendRequest.t)
    (batchSize delay : Z) (i : Z) (acc : Tally) : M Tally :=
  if i <? Z.of_nat (length emails) then
    match fuel with
    | O => exhausted
    | S fuel' =>
        let batch := slice emails i (i + batchSize) in
        let* batchPromises := Array_map EmailController_sendEmail batch in
        let* batchResults := await_all batchPromises in
        let acc' := fold_left count batchResults acc in
        let* _ :=
          if i + batchSize <? Z.of_nat (length emails)
          then sleep delay
          else ret tt in
        bulk_loop fuel' emails batchSize delay (i + batchSize) acc'
    end
  else ret acc.

Definition EmailController_sendBulkEmails (fuel : nat)
    (request : EmailBulkRequest.t) : M (Promise BulkSummary.t) :=
  async
    (try_catch
       (let batchSize := or_default (EmailBulkRequest.batchSize request) 10 in
        let delay :=
          or_default (EmailBulkRequest.delayBetweenBatches request) 1000 in
        let* acc :=
          bulk_loop fuel (EmailBulkRequest.emails request) batchSize delay 0
                    {| results := []; successful := 0; failed := 0 |} in
        ret {| BulkSummary.total := length (EmailBulkRequest.emails request);
               BulkSummary.successful := successful acc;
               BulkSummary.failed := failed acc;
               BulkSummary.results := results acc |})
       (fun error => handleError error)).

Definition EmailController_verifyConnection : M (Promise bool) :=
  async
    (try_catch
       (let* checking := EmailService_verifyConnection in
        let* isConnected := await checking in
        ret isConnected)
       (fun _ => ret false)).

(** *** The public operations, as a caller may sequence them *)

Inductive Operation : Type :=
  | ServiceSendEmail (data : EmailData.t)
  | ServiceSendWelcomeEmail
      (email firstName lastName username role : string)
      (department : option string) (dashboardUrl : string)
  | ServiceSendPasswordResetEmail
      (email firstName lastName username resetUrl expiryTime : string)
  | ServiceSendNotificationEmail (email name : string)
      (notification : Notification.t)
  | ServiceSendCustomEmail (to : Recipients) (subject htmlContent : string)
      (attachments : option (list Attachment.t))
  | ServiceVerifyConnection
  | ServiceGetAvailableTemplates
  | ServiceGetTemplateContent (templateName : string)
  | ControllerSendEmail (request : EmailSendRequest.t)
  | ControllerSendBulkEmails (fuel : nat) (request : EmailBulkRequest.t)
  | ControllerVerifyConnection.

(** The state an operation leaves behind. *)
Definition perform (op : Operation) (w : World) : World :=
  match op with
  | ServiceSendEmail data => snd (EmailService_sendEmail data w)
  | ServiceSendWelcomeEmail email firstName lastName username role
                            department dashboardUrl =>
      snd (EmailService_sendWelcomeEmail email firstName lastName username
                                         role department dashboardUrl w)
  | ServiceSendPasswordResetEmail email firstName lastName username
                                  resetUrl expiryTime =>
      snd (EmailService_sendPasswordResetEmail email firstName lastName
                                               username resetUrl expiryTime w)
  | ServiceSendNotificationEmail email name notification =>
      snd (EmailService_sendNotificationEmail email name notification w)
  | ServiceSendCustomEmail to subject htmlContent attachments =>
      snd (EmailService_sendCustomEmail to subject htmlContent attachments w)
  | ServiceVerifyConnection => snd (EmailService_verifyConnection w)
  | ServiceGetAvailableTemplates => snd (EmailService_getAvailableTemplates w)
  | ServiceGetTemplateContent templateName =>
      snd (EmailService_getTemplateContent templateName w)
  | ControllerSendEmail request => snd (EmailController_sendEmail request w)
  | ControllerSendBulkEmails fuel request =>
      snd (EmailController_sendBulkEmails fuel request w)
  | ControllerVerifyConnection => snd (EmailController_verifyConnection w)
  end.

(** The state after construction and a sequence of operations. *)
Definition after (ops : list Operation) : World :=
  fold_left (fun w op => perform op w) ops new_EmailService.

End Program.

(** ** The batches as the specification words them *)

Section Groups.
Variable env : Env.

(** Per-group execution: issue every send of the group, wait for all of them,
    then record the outcomes in the order of the group. *)
Definition send_batch (group : list EmailSendRequest.t) (acc : Tally)
    : M Tally :=
  let* promises := Array_map (EmailController_sendEmail env) group in
  let* outcomes := await_all env promises in
  ret (fold_left count outcomes acc).


(** Group [k] is [sends[k*batchSize : (k+1)*batchSize]]. *)
Definition group (batchSize : Z) (sends : list EmailSendRequest.t) (k : nat)
    : list EmailSendRequest.t :=
  slice sends (Z.of_nat k * batchSize) ((Z.of_nat k + 1) * batchSize).




End Groups.

(** ** Observations on a run *)

(** The state [w] after the further events [evs]. *)
Definition extend (w : World) (evs : list Event) : World :=
  {| service := service w; trace := trace w ++ evs |}.

Definition is_timeout (ev : Event) : bool :=
  match ev with
  | SetTimeout _ => true
  | _ => false
  end.

Definition is_send (ev : Event) : bool :=
  match ev with
  | SendMail _ => true
  | _ => false
  end.

(** The suspensions among the events. *)
Definition timeouts (evs : list Event) : list Event :=
  List.filter is_timeout evs.

(** The transport sends among the events. *)
Definition sends_of (evs : list Event) : list Event :=
  List.filter is_send evs.

(** [request] was handed to [sendEmail] at some point of the run that starts
    in [w] and goes through the events [evs], and [r] is what that call
    resolved with. *)
Definition produced_during (env : Env) (w : World) (evs : list Event)
    (request : EmailSendRequest.t) (r : EmailResult.t) : Prop :=
  exists before after,
    evs = before ++ after /\
    fst (EmailController_sendEmail env request (extend w before))
      = Normal (Fulfilled r).

(** What the delay step of the iteration at counter [i] adds to the trace. *)
Definition pause_events (emails : list EmailSendRequest.t) (batchSize delay i : Z)
    : list Event :=
  if i + batchSize <? Z.of_nat (length emails) then [SetTimeout delay] else [].

(** The message [sendEmail] hands to the transport once the template has
    rendered to [html]. *)
Definition composed (env : Env) (data : EmailData.t) (html : string)
    : MailOptions.t :=
  {| MailOptions.from := EmailConfig.from (EMAIL_CONFIG env);
     MailOptions.to := EmailData.to data;
     MailOptions.subject := EmailData.subject data;
     MailOptions.html := html;
     MailOptions.attachments := EmailData.attachments data;
     MailOptions.replyTo :=
       if truthy_string (EmailConfig.replyTo (EMAIL_CONFIG env))
       then EmailConfig.replyTo (EMAIL_CONFIG env)
       else None |}.

(** The outcome [sendEmail] makes of the transport's answer. *)
Definition delivered (reply : Outcome SentMessageInfo.t) : EmailResult.t :=
  match reply with
  | Returns info =>
      {| EmailResult.success := true;
         EmailResult.messageId := Some (SentMessageInfo.messageId info);
         EmailResult.error := None |}
  | Throws e => failure e
  end.

(** The argument the controller passes to the service. *)
Definition data_of (request : EmailSendRequest.t) : EmailData.t :=
  {| EmailData.to := EmailSendRequest.to request;
     EmailData.subject := EmailSendRequest.subject request;
     EmailData.template := EmailSendRequest.template request;
     EmailData.context := EmailSendRequest.context request;
     EmailData.attachments := EmailSendRequest.attachments request |}.

(** The values of a map passed through [f], keys and order kept. *)
Definition map_values {A B : Type} (f : A -> B) (m : JsMap.t A) : JsMap.t B :=
  map (fun entry => (fst entry, f (snd entry))) m.

(** The two tables of the service hold the same templates: the compiled
    one is the raw one, compiled. *)
Definition tables_agree (env : Env) (svc : EmailService) : Prop :=
  templates svc = map_values (Handlebars_compile env) (templateCache svc).

(** ** The readings of the specification that the code does not follow *)



(** ** A small installation to run the code on *)

(** Two template files; a transport that refuses the subject ["bounce"] and
    otherwise answers with an identifier made from the subject; in every
    batch the second send settles before the first. *)
Definition sample_env : Env :=
  {| cwd := "/app";
     readdirSync := fun _ => Returns ["welcome.hbs"; "README.md"; "notification.hbs"];
     readFileSync := fun path => Returns ("<!-- " +:+ path +:+ " -->");
     Handlebars_compile := fun source _ => Returns source;
     EMAIL_CONFIG :=
       {| EmailConfig.from := "noreply@adminfront.com";
          EmailConfig.replyTo := None |};
     transporter_sendMail := fun _ mailOptions =>
       if bool_decide (MailOptions.subject mailOptions = "bounce")
       then Throws (Err "550 mailbox unavailable")
       else Returns {| SentMessageInfo.messageId :=
                         "<" +:+ MailOptions.subject mailOptions +:+ ">" |};
     transporter_verify := fun _ => Throws (Err "ECONNREFUSED");
     settle_order := fun _ => [1%nat; 0%nat];
     toLocaleString := fun _ => "1/1/2025, 12:00:00 AM" |}.

Definition sample_world : World := new_EmailService sample_env.

Definition letter (subject template : string) : EmailSendRequest.t :=
  {| EmailSendRequest.to := One "user@example.com";
     EmailSendRequest.subject := subject;
     EmailSendRequest.template := template;
     EmailSendRequest.context := [("firstName", VString "Ada")];
     EmailSendRequest.attachments := None |}.

(** Three sends in batches of two, the second with a template that does not
    exist. *)
Definition sample_bulk : EmailBulkRequest.t :=
  {| EmailBulkRequest.emails :=
       [letter "first" "welcome"; letter "second" "missing";
        letter "third" "notification"];
     EmailBulkRequest.batchSize := Some 2;
     EmailBulkRequest.delayBetweenBatches := Some 250 |}.


(** Two sends, one per batch, with a delay of zero. *)
Definition two_without_delay : EmailBulkRequest.t :=
  {| EmailBulkRequest.emails := [letter "a" "welcome"; letter "b" "welcome"];
     EmailBulkRequest.batchSize := Some 1;
     EmailBulkRequest.delayBetweenBatches := Some 0 |}.

(** One send with a batch size of minus one. *)
Definition one_with_negative : EmailBulkRequest.t :=
  {| EmailBulkRequest.emails := [letter "a" "welcome"];
     EmailBulkRequest.batchSize := Some (-1);
     EmailBulkRequest.delayBetweenBatches := None |}.

(** ** The rest of [EmailController] *)

Section Controller.
Variable env : Env.

Definition EmailController_sendWelcomeEmail
    (email firstName lastName username role : string)
    (department : option string) (dashboardUrl : string)
    : M (Promise EmailResult.t) :=
  async
    (try_catch
       (let* sending :=
          EmailService_sendWelcomeEmail env email firstName lastName username
                                        role department dashboardUrl in
        let* result := await sending in
        ret result)
       (fun error => handleError error)).

Definition EmailController_sendPasswordResetEmail
    (email firstName lastName username resetUrl expiryTime : string)
    : M (Promise EmailResult.t) :=
  async
    (try_catch
       (let* sending :=
          EmailService_sendPasswordResetEmail env email firstName lastName
                                              username resetUrl expiryTime in
        let* result := await sending in
        ret result)
       (fun error => handleError error)).

Definition EmailController_sendNotificationEmail (email name : string)
    (notification : Notification.t) : M (Promise EmailResult.t) :=
  async
    (try_catch
       (let* sending :=
          EmailService_sendNotificationEmail env email name notification in
        let* result := await sending in
        ret result)
       (fun error => handleError error)).

(** What [testTemplate] resolves with. *)
Record TemplateTest : Type := {
  test_success : bool;
  test_html : option string;
  test_error : option string
}.

Definition EmailController_testTemplate (templateName : string)
    (context : Context) : M (Promise TemplateTest) :=
  async
    (try_catch
       (let* template := EmailService_getTemplateContent templateName in
        match (if truthy_string template then template else None) with
        | None =>
            ret {| test_success := false;
                   test_html := None;
                   test_error :=
                     Some ("Template '" +:+ templateName +:+ "' not found") |}
        | Some content =>
            let compiledTemplate := Handlebars_compile env content in
            let* html := call (compiledTemplate context) in
            ret {| test_success := true;
                   test_html := Some html;
                   test_error := None |}
        end)
       (fun error =>
          ret {| test_success := false;
                 test_html := None;
                 test_error := Some (error_text error) |})).

End Controller.

(** [env] with another listing of the templates directory. *)
Definition with_files (env : Env) (files : list string) : Env :=
  {| cwd := cwd env;
     readdirSync := fun _ => Returns files;
     readFileSync := readFileSync env;
     Handlebars_compile := Handlebars_compile env;
     EMAIL_CONFIG := EMAIL_CONFIG env;
     transporter_sendMail := transporter_sendMail env;
     transporter_verify := transporter_verify env;
     settle_order := settle_order env;
     toLocaleString := toLocaleString env |}.

(** The directory [loadTemplates] reads. *)
Definition templates_directory (env : Env) : string :=
  path_join (path_join (path_join (cwd env) "src") "templates") "emails".

(** What a send asks of the transport: nothing when the template is missing
    or does not render, else the one composed message. *)
Definition send_events (env : Env) (svc : EmailService)
    (request : EmailSendRequest.t) : list Event :=
  match JsMap.get (templates svc) (EmailSendRequest.template request) with
  | None => []
  | Some template =>
      match template (EmailSendRequest.context request) with
      | Throws _ => []
      | Returns html => [SendMail (composed env (data_of request) html)]
      end
  end.

(** How many of the outcomes are successes. *)
Definition successes (rs : list EmailResult.t) : nat :=
  length (List.filter EmailResult.success rs).

Definition failures (rs : list EmailResult.t) : nat :=
  length (List.filter (fun r => negb (EmailResult.success r)) rs).


(** An installation without a templates directory. *)
Definition bare_env : Env :=
  {| cwd := "/app";
     readdirSync := fun _ => Throws (Err "ENOENT: no such file or directory");
     readFileSync := fun _ => Throws (Err "ENOENT: no such file or directory");
     Handlebars_compile := fun source _ => Returns source;
     EMAIL_CONFIG := EMAIL_CONFIG sample_env;
     transporter_sendMail := transporter_sendMail sample_env;
     transporter_verify := transporter_verify sample_env;
     settle_order := settle_order sample_env;
     toLocaleString := toLocaleString sample_env |}.

(** An installation whose template files are all empty. *)
Definition blank_env : Env :=
  {| cwd := "/app";
     readdirSync := fun _ => Returns ["welcome.hbs"];
     readFileSync := fun _ => Returns "";
     Handlebars_compile := fun source _ => Returns source;
     EMAIL_CONFIG := EMAIL_CONFIG sample_env;
     transporter_sendMail := transporter_sendMail sample_env;
     transporter_verify := transporter_verify sample_env;
     settle_order := settle_order sample_env;
     toLocaleString := toLocaleString sample_env |}.

(** The data [sendWelcomeEmail] passes to [sendEmail]. *)
Definition welcome_data (email firstName lastName username role : string)
    (department : option string) (dashboardUrl : string) : EmailData.t :=
  {| EmailData.to := One email;
     EmailData.subject := "Welcome to AdminFront! 🎉";
     EmailData.template := "welcome";
     EmailData.context :=
       [("firstName", VString firstName);
        ("lastName", VString lastName);
        ("username", VString username);
        ("role", VString role);
        ("department", VString (string_or department "Not specified"));
        ("dashboardUrl", VString dashboardUrl)];
     EmailData.attachments := None |}.

(** The data [sendPasswordResetEmail] and [sendNotificationEmail] pass to
    [sendEmail], when the events so far are [h]. *)
Definition reset_data (env : Env) (h : Trace)
    (email firstName lastName username resetUrl expiryTime : string)
    : EmailData.t :=
  {| EmailData.to := One email;
     EmailData.subject := "Password Reset Request - AdminFront";
     EmailData.template := "password-reset";
     EmailData.context :=
       [("firstName", VString firstName);
        ("lastName", VString lastName);
        ("username", VString username);
        ("email", VString email);
        ("resetUrl", VString resetUrl);
        ("expiryTime", VString expiryTime);
        ("requestTime", VString (toLocaleString env h))];
     EmailData.attachments := None |}.

Definition notification_data (env : Env) (h : Trace) (email name : string)
    (notification : Notification.t) : EmailData.t :=
  {| EmailData.to := One email;
     EmailData.subject := Notification.subject notification;
     EmailData.template := "notification";
     EmailData.context :=
       [("recipientName", VString name);
        ("subject", VString (Notification.subject notification));
        ("message", VString (Notification.message notification));
        ("notificationType", VString (Notification.type notification));
        ("priority",
         VString (priority_string (Notification.priority notification)));
        ("timestamp", VString (toLocaleString env h));
        ("priorityClass",
         VString ("priority-"
                  +:+ priority_string (Notification.priority notification)));
        ("actionRequired",
         match Notification.actionRequired notification with
         | Some b => VBool b
         | None => VUndefined
         end);
        ("actionDescription",
         optional_string (Notification.actionDescription notification));
        ("actionUrl", optional_string (Notification.actionUrl notification));
        ("actionButtonText",
         optional_string (Notification.actionButtonText notification));
        ("additionalInfo",
         optional_string (Notification.additionalInfo notification))];
     EmailData.attachments := None |}.

(** ** The module table and its navigation helpers ([config/modules]) *)

Module ModuleConfig.
#[warnings="-register-all"]
Inductive t : Type :=
  mk (id name path icon description : string) (enabled : bool)
     (permissions : list string) (subModules : option (list t))
     (features : list string).

Definition id (m : t) : string :=
  match m with mk id _ _ _ _ _ _ _ _ => id end.
Definition name (m : t) : string :=
  match m with mk _ name _ _ _ _ _ _ _ => name end.
Definition path (m : t) : string :=
  match m with mk _ _ path _ _ _ _ _ _ => path end.
Definition icon (m : t) : string :=
  match m with mk _ _ _ icon _ _ _ _ _ => icon end.
Definition description (m : t) : string :=
  match m with mk _ _ _ _ description _ _ _ _ => description end.
Definition enabled (m : t) : bool :=
  match m with mk _ _ _ _ _ enabled _ _ _ => enabled end.
Definition permissions (m : t) : list string :=
  match m with mk _ _ _ _ _ _ permissions _ _ => permissions end.
Definition subModules (m : t) : option (list t) :=
  match m with mk _ _ _ _ _ _ _ subModules _ => subModules end.
Definition features (m : t) : list string :=
  match m with mk _ _ _ _ _ _ _ _ features => features end.
End ModuleConfig.

(** An entry of a breadcrumb trail. *)
Module Crumb.
Record t : Type := mk {
  name : string;
  path : string
}.
End Crumb.

Definition APP_MODULES : list ModuleConfig.t :=
  [ModuleConfig.mk "dashboard" "Dashboard" "/dashboard"
     "DashboardOutlined"
     "Main dashboard and overview"
     true ["dashboard:read"]
     None
     ["overview"; "analytics"; "reports"; "notifications"];
   ModuleConfig.mk "users" "User Management" "/users"
     "UserOutlined"
     "Manage users, roles, and permissions"
     true ["users:read"; "users:write"; "users:delete"]
     (Some
        [ModuleConfig.mk "users-list" "Users List" "/users/list"
           "TeamOutlined"
           "View and manage all users"
           true ["users:read"]
           None
           ["list"; "search"; "filter"; "export"];
         ModuleConfig.mk "user-roles" "Roles & Permissions" "/users/roles"
           "SafetyCertificateOutlined"
           "Manage user roles and permissions"
           true ["users:admin"]
           None
           ["roles"; "permissions"; "assignments"];
         ModuleConfig.mk "user-groups" "User Groups" "/users/groups"
           "GroupOutlined"
           "Organize users into groups"
           true ["users:write"]
           None
           ["groups"; "membership"; "hierarchy"]])
     ["crud"; "bulk-operations"; "import-export"; "audit-log"];
   ModuleConfig.mk "content" "Content Management" "/content"
     "FileTextOutlined"
     "Manage website content and media"
     true ["content:read"; "content:write"]
     (Some
        [ModuleConfig.mk "content-pages" "Pages" "/content/pages"
           "FileOutlined"
           "Manage website pages"
           true ["content:read"]
           None
           ["pages"; "templates"; "seo"];
         ModuleConfig.mk "content-media" "Media Library" "/content/media"
           "PictureOutlined"
           "Manage images, videos, and documents"
           true ["content:write"]
           None
           ["upload"; "organize"; "optimize"];
         ModuleConfig.mk "content-blog" "Blog Posts" "/content/blog"
           "EditOutlined"
           "Manage blog articles and posts"
           true ["content:write"]
           None
           ["posts"; "categories"; "comments"]])
     ["editor"; "workflow"; "versioning"; "publishing"];
   ModuleConfig.mk "ecommerce" "E-Commerce" "/ecommerce"
     "ShoppingOutlined"
     "Manage online store and products"
     true ["ecommerce:read"; "ecommerce:write"]
     (Some
        [ModuleConfig.mk "ecommerce-products" "Products" "/ecommerce/products"
           "GiftOutlined"
           "Manage product catalog"
           true ["ecommerce:read"]
           None
           ["products"; "categories"; "inventory"; "pricing"];
         ModuleConfig.mk "ecommerce-orders" "Orders" "/ecommerce/orders"
           "ShoppingCartOutlined"
           "Process and manage orders"
           true ["ecommerce:write"]
           None
           ["orders"; "fulfillment"; "tracking"; "refunds"];
         ModuleConfig.mk "ecommerce-customers" "Customers" "/ecommerce/customers"
           "UserOutlined"
           "Manage customer information"
           true ["ecommerce:read"]
           None
           ["customers"; "profiles"; "history"; "segments"]])
     ["catalog"; "orders"; "customers"; "analytics"];
   ModuleConfig.mk "analytics" "Analytics & Reports" "/analytics"
     "BarChartOutlined"
     "Data analytics and reporting tools"
     true ["analytics:read"]
     (Some
        [ModuleConfig.mk "analytics-dashboard" "Analytics Dashboard" "/analytics/dashboard"
           "DashboardOutlined"
           "Real-time analytics overview"
           true ["analytics:read"]
           None
           ["real-time"; "charts"; "metrics"; "insights"];
         ModuleConfig.mk "analytics-reports" "Reports" "/analytics/reports"
           "FileTextOutlined"
           "Generate and schedule reports"
           true ["analytics:read"]
           None
           ["reports"; "scheduling"; "export"; "templates"];
         ModuleConfig.mk "analytics-insights" "Insights" "/analytics/insights"
           "BulbOutlined"
           "AI-powered business insights"
           true ["analytics:read"]
           None
           ["ai-insights"; "predictions"; "recommendations"]])
     ["real-time"; "historical"; "predictive"; "export"];
   ModuleConfig.mk "settings" "System Settings" "/settings"
     "SettingOutlined"
     "Configure system settings and preferences"
     true ["settings:read"; "settings:write"]
     (Some
        [ModuleConfig.mk "settings-general" "General" "/settings/general"
           "ToolOutlined"
           "General system configuration"
           true ["settings:read"]
           None
           ["system"; "branding"; "localization"];
         ModuleConfig.mk "settings-security" "Security" "/settings/security"
           "SafetyOutlined"
           "Security and authentication settings"
           true ["settings:admin"]
           None
           ["authentication"; "authorization"; "audit"];
         ModuleConfig.mk "settings-integrations" "Integrations" "/settings/integrations"
           "ApiOutlined"
           "Third-party service integrations"
           true ["settings:write"]
           None
           ["apis"; "webhooks"; "connectors"]])
     ["configuration"; "security"; "integrations"; "backup"];
   ModuleConfig.mk "help" "Help & Support" "/help"
     "QuestionCircleOutlined"
     "Documentation and support resources"
     true ["help:read"]
     (Some
        [ModuleConfig.mk "help-documentation" "Documentation" "/help/documentation"
           "BookOutlined"
           "User guides and documentation"
           true ["help:read"]
           None
           ["guides"; "tutorials"; "faq"];
         ModuleConfig.mk "help-support" "Support" "/help/support"
           "CustomerServiceOutlined"
           "Contact support and submit tickets"
           true ["help:read"]
           None
           ["tickets"; "chat"; "email"]])
     ["documentation"; "support"; "feedback"; "training"]].

(** A [for ... of] loop whose body may [return]: the result of the first
    turn that returns. *)
Section ForOf.
Context {A B : Type}.
Variable body : A -> option B.

Fixpoint for_of_return (l : list A) : option B :=
  match l with
  | [] => None
  | x :: rest =>
      match body x with
      | Some result => Some result
      | None => for_of_return rest
      end
  end.
End ForOf.

(** [Array.prototype.includes] on strings. *)
Definition includes (l : list string) (x : string) : bool :=
  existsb (fun y => bool_decide (y = x)) l.

(** One turn of the loop of [findModule]: the module itself, then its
    sub-modules. *)
Fixpoint findModule_turn (targetPath : string) (module : ModuleConfig.t)
    : option ModuleConfig.t :=
  if bool_decide (ModuleConfig.path module = targetPath) then Some module
  else
    match ModuleConfig.subModules module with
    | Some subModules =>
        for_of_return (findModule_turn targetPath) subModules
    | None => None
    end.

Definition findModule (modules : list ModuleConfig.t) (targetPath : string)
    : option ModuleConfig.t :=
  for_of_return (findModule_turn targetPath) modules.

(** One turn of the loop of [findBreadcrumb]. The source pushes the trail
    into [breadcrumbs] and returns [true]; here the trail is the result. *)
Fixpoint findBreadcrumb_turn (targetPath : string)
    (currentBreadcrumbs : list Crumb.t) (module : ModuleConfig.t)
    : option (list Crumb.t) :=
  let newBreadcrumbs :=
    currentBreadcrumbs
    ++ [{| Crumb.name := ModuleConfig.name module;
           Crumb.path := ModuleConfig.path module |}] in
  if bool_decide (ModuleConfig.path module = targetPath)
  then Some newBreadcrumbs
  else
    match ModuleConfig.subModules module with
    | Some subModules =>
        for_of_return (findBreadcrumb_turn targetPath newBreadcrumbs)
                      subModules
    | None => None
    end.

Definition findBreadcrumb (modules : list ModuleConfig.t)
    (targetPath : string) (currentBreadcrumbs : list Crumb.t)
    : option (list Crumb.t) :=
  for_of_return (findBreadcrumb_turn targetPath currentBreadcrumbs) modules.

(** The exported helpers; [table] stands for [APP_MODULES], so that what is
    proved of them holds whatever the table contains. *)
Section Navigation.
Variable table : list ModuleConfig.t.

Definition getModuleByPath (path : string) : option ModuleConfig.t :=
  findModule table path.

Definition getEnabledModules : list ModuleConfig.t :=
  List.filter ModuleConfig.enabled table.

Definition getModulesByPermission (permissions : list string)
    : list ModuleConfig.t :=
  let hasPermission (module : ModuleConfig.t) : bool :=
    existsb (fun permission => includes permissions permission)
            (ModuleConfig.permissions module) in
  List.filter
    (fun module => ModuleConfig.enabled module && hasPermission module)
    table.

Definition getBreadcrumbForPath (path : string) : list Crumb.t :=
  match findBreadcrumb table path [] with
  | Some breadcrumbs => breadcrumbs
  | None => []
  end.

End Navigation.

(** *** Words for the properties of the navigation helpers *)

(** The modules of a table in the order the searches visit them: a module
    before its sub-modules, these before the next module. *)
Fixpoint visit (module : ModuleConfig.t) : list ModuleConfig.t :=
  module ::
  match ModuleConfig.subModules module with
  | Some subModules => flat_map visit subModules
  | None => []
  end.

Definition visit_all (modules : list ModuleConfig.t) : list ModuleConfig.t :=
  flat_map visit modules.

Definition crumb (module : ModuleConfig.t) : Crumb.t :=
  {| Crumb.name := ModuleConfig.name module;
     Crumb.path := ModuleConfig.path module |}.

(** [trail] leads from one of [modules] down through sub-modules, without
    skipping a level. *)
Fixpoint descends (modules : list ModuleConfig.t) (trail : list ModuleConfig.t)
    : Prop :=
  match trail with
  | [] => True
  | module :: rest =>
      In module modules /\
      descends match ModuleConfig.subModules module with
               | Some subModules => subModules
               | None => []
               end rest
  end.

(** ** [BaseController] and [UserController] *)

(** The JavaScript values the controllers look into. Numbers are integers;
    a string stands for the JavaScript string with the same characters, one
    code unit each. *)
#[warnings="-register-all"]
Inductive Js : Type :=
  | JUndefined
  | JNull
  | JBool (b : bool)
  | JNumber (n : Z)
  | JString (s : string)
  | JArray (items : list Js)
  | JObject (fields : list (string * Js)).

(** What counts as true in a condition. *)
Definition truthy (v : Js) : bool :=
  match v with
  | JUndefined | JNull => false
  | JBool b => b
  | JNumber n => negb (n =? 0)
  | JString s => negb (bool_decide (s = ""))
  | JArray _ | JObject _ => true
  end.

(** [a || b] *)
Definition js_or (a b : Js) : Js := if truthy a then a else b.

(** [record[key]] on the own properties of an object. *)
Fixpoint field (fields : list (string * Js)) (key : string) : Js :=
  match fields with
  | [] => JUndefined
  | (k, v) :: rest => if bool_decide (k = key) then v else field rest key
  end.

(** [typeof v === "string"] *)
Definition is_string (v : Js) : bool :=
  match v with
  | JString _ => true
  | _ => false
  end.

(** [v === ""] *)
Definition is_empty_string (v : Js) : bool :=
  match v with
  | JString "" => true
  | _ => false
  end.

(** [v.length] of a string value. *)
Definition string_length (v : Js) : Z :=
  match v with
  | JString s => Z.of_nat (String.length s)
  | _ => 0
  end.

(** A regular expression, by what its [test] answers. *)
Definition RegExp : Type := string -> bool.

Module Rule.
Record t : Type := mk {
  required : option bool;
  minLength : option Z;
  maxLength : option Z;
  pattern : option RegExp
}.
End Rule.

Module Validation.
Record t : Type := mk {
  isValid : bool;
  errors : list string
}.
End Validation.

(** Truthiness of an optional flag and of an optional number. *)
Definition flag_set (x : option bool) : bool :=
  match x with
  | Some b => b
  | None => false
  end.

Definition number_set (x : option Z) : bool :=
  match x with
  | Some n => negb (n =? 0)
  | None => false
  end.

(** The body of the loop of [validateData] for one entry of [rules]: the
    messages it pushes, in order. *)
Definition validateField (data : list (string * Js)) (fieldName : string)
    (rule : Rule.t) : list string :=
  let value := field data fieldName in
  (if flag_set (Rule.required rule)
      && (negb (truthy value) || is_empty_string value)
   then [fieldName +:+ " is required"] else [])
  ++
  (match Rule.minLength rule with
   | Some minLength =>
       if number_set (Some minLength) && truthy value && is_string value
          && (string_length value <? minLength)
       then [fieldName +:+ " must be at least " +:+ pretty minLength
             +:+ " characters"]
       else []
   | None => []
   end)
  ++
  (match Rule.maxLength rule with
   | Some maxLength =>
       if number_set (Some maxLength) && truthy value && is_string value
          && (maxLength <? string_length value)
       then [fieldName +:+ " must be no more than " +:+ pretty maxLength
             +:+ " characters"]
       else []
   | None => []
   end)
  ++
  (match Rule.pattern rule, value with
   | Some pattern, JString s =>
       if truthy value && negb (pattern s)
       then [fieldName +:+ " format is invalid"] else []
   | _, _ => []
   end).

(** [rules] is given as [Object.entries] lists it. *)
Definition validateData (data : list (string * Js))
    (rules : list (string * Rule.t)) : Validation.t :=
  let errors :=
    flat_map (fun entry => validateField data (fst entry) (snd entry)) rules in
  {| Validation.isValid := bool_decide (errors = []);
     Validation.errors := errors |}.

(** [Array.prototype.join] on strings. *)
Fixpoint join (separator : string) (l : list string) : string :=
  match l with
  | [] => ""
  | [x] => x
  | x :: rest => x +:+ separator +:+ join separator rest
  end.

(** An object used as a service: the names of its methods, and what the
    backend behind them answers to a call. *)
Record ServiceObject : Type := {
  methods : list string;
  backend : string -> list Js -> Promise Js
}.

(** A controller: [moduleName] and [service]. *)
Record Controller : Type := {
  moduleName : string;
  service_of : ServiceObject
}.

Section Controllers.
(** The messages of the two [TypeError]s the code can run into: a call of
    a property that is not a function, and a read of a property of
    [undefined] or [null]. *)
Variable not_a_function : string -> string.
Variable cannot_read : Js -> string -> string.

(** [object.method(args)] *)
Definition invoke (object : ServiceObject) (method : string)
    (args : list Js) : M (Promise Js) :=
  if includes (methods object) method
  then ret (backend object method args)
  else throw (Err (not_a_function method)).

(** [value.key], for the keys the controllers read: the own properties of
    an object and the [length] of an array or a string. *)
Definition property (value : Js) (key : string) : M Js :=
  match value with
  | JUndefined | JNull => throw (Err (cannot_read value key))
  | JObject fields => ret (field fields key)
  | JArray items =>
      ret (if bool_decide (key = "length")
           then JNumber (Z.of_nat (length items)) else JUndefined)
  | JString s =>
      ret (if bool_decide (key = "length")
           then JNumber (Z.of_nat (String.length s)) else JUndefined)
  | _ => ret JUndefined
  end.

(** [value?.key] *)
Definition optional_property (value : Js) (key : string) : M Js :=
  match value with
  | JUndefined | JNull => ret JUndefined
  | _ => property value key
  end.

(** [throw new Error(`Failed to ${what}: ${...}`)] of the [catch] blocks. *)
Definition fail_with {A : Type} (what : string) (error : Thrown) : M A :=
  throw (Err ("Failed to " +:+ what +:+ ": " +:+ error_text error)).

Definition BaseController_getAll (this : Controller)
    (filters pagination : Js) : M (Promise Js) :=
  async
    (try_catch
       (let* calling := invoke (service_of this) "getList"
                               [filters; pagination] in
        let* result := await calling in
        let* data := property result "data" in
        let* total := property result "total" in
        let* page := optional_property pagination "page" in
        let* limit := optional_property pagination "limit" in
        ret (JObject [("data", js_or data (JArray []));
                      ("total", js_or total (JNumber 0));
                      ("page", js_or page (JNumber 1));
                      ("limit", js_or limit (JNumber 10))]))
       (fail_with ("get " +:+ moduleName this +:+ " list"))).

Definition BaseController_getById (this : Controller) (id : Js)
    : M (Promise Js) :=
  async
    (try_catch
       (let* calling := invoke (service_of this) "getById" [id] in
        let* result := await calling in
        if negb (truthy result)
        then throw (Err (moduleName this +:+ " not found"))
        else ret result)
       (fail_with ("get " +:+ moduleName this))).

Definition BaseController_create (this : Controller) (data : Js)
    : M (Promise Js) :=
  async
    (try_catch
       (let* calling := invoke (service_of this) "create" [data] in
        let* result := await calling in
        ret result)
       (fail_with ("create " +:+ moduleName this))).

Definition BaseController_update (this : Controller) (id data : Js)
    : M (Promise Js) :=
  async
    (try_catch
       (let* calling := invoke (service_of this) "update" [id; data] in
        let* result := await calling in
        if negb (truthy result)
        then throw (Err (moduleName this +:+ " not found"))
        else ret result)
       (fail_with ("update " +:+ moduleName this))).

Definition BaseController_delete (this : Controller) (id : Js)
    : M (Promise Js) :=
  async
    (try_catch
       (let* calling := invoke (service_of this) "delete" [id] in
        let* result := await calling in
        ret result)
       (fail_with ("delete " +:+ moduleName this))).

Definition BaseController_bulkDelete (this : Controller) (ids : Js)
    : M (Promise Js) :=
  async
    (try_catch
       (let* calling := invoke (service_of this) "bulkDelete" [ids] in
        let* result := await calling in
        ret result)
       (fail_with ("bulk delete " +:+ moduleName this))).

Definition BaseController_search (this : Controller) (query filters : Js)
    : M (Promise Js) :=
  async
    (try_catch
       (let* calling := invoke (service_of this) "search" [query; filters] in
        let* result := await calling in
        ret (js_or result (JArray [])))
       (fail_with ("search " +:+ moduleName this))).

(** [format] defaults to ["csv"] when it is [undefined]. *)
Definition BaseController_export (this : Controller) (format filters : Js)
    : M (Promise Js) :=
  let format :=
    match format with
    | JUndefined => JString "csv"
    | given => given
    end in
  async
    (try_catch
       (let* calling := invoke (service_of this) "export" [format; filters] in
        let* result := await calling in
        ret result)
       (fail_with ("export " +:+ moduleName this))).

Definition BaseController_import (this : Controller) (file options : Js)
    : M (Promise Js) :=
  async
    (try_catch
       (let* calling := invoke (service_of this) "import" [file; options] in
        let* result := await calling in
        ret result)
       (fail_with ("import " +:+ moduleName this))).

(** *** [UserController] *)

(** The methods of a [UserService]: its own, then those of
    [BaseApiService]. *)
Definition UserService_methods : list string :=
  ["getUsers"; "getUserById"; "createUser"; "updateUser"; "deleteUser";
   "bulkDeleteUsers"; "getUserProfile"; "updateUserProfile";
   "updateUserAvatar"; "getUserPreferences"; "updateUserPreferences";
   "getUserStats"; "searchUsers"; "exportUsers"; "importUsers";
   "getUserActivity"; "sendPasswordReset"; "toggleUserStatus";
   "changeUserRole";
   "getList"; "getById"; "create"; "update"; "patch"; "delete";
   "bulkDelete"; "bulkUpdate"].

(** [new UserController()], over the backend its service talks to. *)
Definition new_UserController (answers : string -> list Js -> Promise Js)
    : Controller :=
  {| moduleName := "User";
     service_of := {| methods := UserService_methods; backend := answers |} |}.

Definition UserController_getUsersByRole (this : Controller) (role : Js)
    : M (Promise Js) :=
  async
    (try_catch
       (let* calling := invoke (service_of this) "getUsersByRole" [role] in
        let* result := await calling in
        ret (js_or result (JArray [])))
       (fun error => handleError error)).

Definition UserController_getUsersByDepartment (this : Controller)
    (department : Js) : M (Promise Js) :=
  async
    (try_catch
       (let* calling :=
          invoke (service_of this) "getUsersByDepartment" [department] in
        let* result := await calling in
        ret (js_or result (JArray [])))
       (fun error => handleError error)).

Definition UserController_getUserProfile (this : Controller) (userId : Js)
    : M (Promise Js) :=
  async
    (try_catch
       (let* calling := invoke (service_of this) "getUserProfile" [userId] in
        let* result := await calling in
        if negb (truthy result)
        then throw (Err "User profile not found")
        else ret result)
       (fun error => handleError error)).

(** The rules tables of [updateUserProfile] and [create], over the regular
    expressions they use. *)
Definition profile_rules (phonePattern : RegExp) : list (string * Rule.t) :=
  [("firstName", Rule.mk (Some true) (Some 2) (Some 50) None);
   ("lastName", Rule.mk (Some true) (Some 2) (Some 50) None);
   ("phone", Rule.mk None None None (Some phonePattern))].

Definition creation_rules (usernamePattern emailPattern : RegExp)
    : list (string * Rule.t) :=
  [("username", Rule.mk (Some true) (Some 3) (Some 30) (Some usernamePattern));
   ("email", Rule.mk (Some true) None None (Some emailPattern));
   ("firstName", Rule.mk (Some true) (Some 2) (Some 50) None);
   ("lastName", Rule.mk (Some true) (Some 2) (Some 50) None);
   ("password", Rule.mk (Some true) (Some 8) None None);
   ("role", Rule.mk (Some true) None None None)].

Section Patterns.
(** [/^[+]?[1-9][\d]{0,15}$/], [/^[a-zA-Z0-9_]+$/] and
    [/^[^\s@]+@[^\s@]+\.[^\s@]+$/] *)
Variables phonePattern usernamePattern emailPattern : RegExp.

Definition UserController_updateUserProfile (this : Controller)
    (userId : Js) (data : list (string * Js)) : M (Promise Js) :=
  async
    (try_catch
       (let validationRules := profile_rules phonePattern in
        let validation := validateData data validationRules in
        let* _ :=
          if negb (Validation.isValid validation)
          then throw (Err ("Validation failed: "
                           +:+ join ", " (Validation.errors validation)))
          else ret tt in
        let* calling :=
          invoke (service_of this) "updateUserProfile"
                 [userId; JObject data] in
        let* result := await calling in
        ret result)
       (fun error => handleError error)).

Definition UserController_create (this : Controller)
    (data : list (string * Js)) : M (Promise Js) :=
  async
    (try_catch
       (let validationRules :=
          creation_rules usernamePattern emailPattern in
        let validation := validateData data validationRules in
        let* _ :=
          if negb (Validation.isValid validation)
          then throw (Err ("Validation failed: "
                           +:+ join ", " (Validation.errors validation)))
          else ret tt in
        let* calling := invoke (service_of this) "create" [JObject data] in
        let* result := await calling in
        let* _ := property result "id" in
        ret result)
       (fun error => handleError error)).

End Patterns.

Definition UserController_changeUserStatus (this : Controller)
    (userId status : Js) : M (Promise Js) :=
  async
    (try_catch
       (let* calling :=
          invoke (service_of this) "toggleUserStatus" [userId; status] in
        let* result := await calling in
        ret result)
       (fun error => handleError error)).

Definition UserController_changeUserRole (this : Controller)
    (userId newRole : Js) : M (Promise Js) :=
  async
    (try_catch
       (let* calling :=
          invoke (service_of this) "changeUserRole" [userId; newRole] in
        let* result := await calling in
        ret result)
       (fun error => handleError error)).

(** [days] defaults to [30] when it is [undefined]. *)
Definition UserController_getUserActivity (this : Controller)
    (userId days : Js) : M (Promise Js) :=
  let days :=
    match days with
    | JUndefined => JNumber 30
    | given => given
    end in
  async
    (try_catch
       (let* calling :=
          invoke (service_of this) "getUserActivity" [userId; days] in
        let* result := await calling in
        ret (js_or result (JArray [])))
       (fun error => handleError error)).

Definition UserController_getUserStats (this : Controller) (userId : Js)
    : M (Promise Js) :=
  async
    (try_catch
       (let* calling := invoke (service_of this) "getUserStats" [userId] in
        let* result := await calling in
        ret (js_or result (JObject [])))
       (fun error => handleError error)).

Definition UserController_sendPasswordReset (this : Controller) (email : Js)
    : M (Promise Js) :=
  async
    (try_catch
       (let* calling := invoke (service_of this) "sendPasswordReset" [email] in
        let* result := await calling in
        ret result)
       (fun error => handleError error)).

(** [updates.length] is read for the log line before the call. *)
Definition UserController_bulkUpdateUsers (this : Controller) (updates : Js)
    : M (Promise Js) :=
  async
    (try_catch
       (let* _ := property updates "length" in
        let* calling := invoke (service_of this) "bulkUpdate" [updates] in
        let* result := await calling in
        ret (js_or result (JArray [])))
       (fun error => handleError error)).

Definition UserController_search (this : Controller) (query filters : Js)
    : M (Promise Js) :=
  async
    (try_catch
       (let* calling :=
          invoke (service_of this) "searchUsers" [query; filters] in
        let* result := await calling in
        ret (js_or result (JArray [])))
       (fun error => handleError error)).

End Controllers.

(** [new EmailController()]: [super("Email", {})]. *)
Definition EmailController_base : Controller :=
  {| moduleName := "Email";
     service_of := {| methods := [];
                      backend := fun _ _ => Fulfilled JUndefined |} |}.

(** *** The regular expressions of [UserController] *)

(** Patterns without groups to remember: what they match is a regular
    language. *)
Inductive Regex : Type :=
  | Never
  | Empty
  | Class (accepts : ascii -> bool)
  | Seq (r s : Regex)
  | Alt (r s : Regex)
  | Star (r : Regex).

(** [r+], [r?] and [r{0,n}] *)
Definition Plus (r : Regex) : Regex := Seq r (Star r).

Definition Opt (r : Regex) : Regex := Alt Empty r.

Fixpoint AtMost (n : nat) (r : Regex) : Regex :=
  match n with
  | O => Empty
  | S n' => Opt (Seq r (AtMost n' r))
  end.

Fixpoint nullable (r : Regex) : bool :=
  match r with
  | Never => false
  | Empty => true
  | Class _ => false
  | Seq r s => nullable r && nullable s
  | Alt r s => nullable r || nullable s
  | Star _ => true
  end.

(** What is left of [r] once [c] has been read. *)
Fixpoint derivative (c : ascii) (r : Regex) : Regex :=
  match r with
  | Never => Never
  | Empty => Never
  | Class accepts => if accepts c then Empty else Never
  | Seq r s =>
      if nullable r
      then Alt (Seq (derivative c r) s) (derivative c s)
      else Seq (derivative c r) s
  | Alt r s => Alt (derivative c r) (derivative c s)
  | Star r => Seq (derivative c r) (Star r)
  end.

Fixpoint matches_chars (r : Regex) (l : list ascii) : bool :=
  match l with
  | [] => nullable r
  | c :: rest => matches_chars (derivative c r) rest
  end.

(** [/^r$/.test(s)] *)
Definition test (r : Regex) : RegExp :=
  fun s => matches_chars r (list_ascii_of_string s).

(** The strings of the language of a pattern. *)
Inductive in_language : Regex -> list ascii -> Prop :=
  | in_Empty : in_language Empty []
  | in_Class accepts c : accepts c = true -> in_language (Class accepts) [c]
  | in_Seq r s l1 l2 :
      in_language r l1 -> in_language s l2 -> in_language (Seq r s) (l1 ++ l2)
  | in_Alt_l r s l : in_language r l -> in_language (Alt r s) l
  | in_Alt_r r s l : in_language s l -> in_language (Alt r s) l
  | in_Star_nil r : in_language (Star r) []
  | in_Star_cons r l1 l2 :
      in_language r l1 -> in_language (Star r) l2 ->
      in_language (Star r) (l1 ++ l2).

Definition code (c : ascii) : nat := nat_of_ascii c.

Definition between (low high : nat) (c : ascii) : bool :=
  (low <=? code c)%nat && (code c <=? high)%nat.

(** [\d] *)
Definition digit (c : ascii) : bool := between 48 57 c.

(** [[1-9]] *)
Definition nonzero_digit (c : ascii) : bool := between 49 57 c.

(** [[a-zA-Z0-9_]] *)
Definition word (c : ascii) : bool :=
  between 97 122 c || between 65 90 c || between 48 57 c
  || (code c =? 95)%nat.

(** [\s], among the code units below 256: tab to carriage return, space and
    the no-break space. *)
Definition whitespace (c : ascii) : bool :=
  between 9 13 c || (code c =? 32)%nat || (code c =? 160)%nat.

Definition is_char (expected : nat) (c : ascii) : bool :=
  (code c =? expected)%nat.

(** [[^\s@]] *)
Definition plain (c : ascii) : bool :=
  negb (whitespace c || is_char 64 c).

(** [/^[+]?[1-9][\d]{0,15}$/] *)
Definition phone_regex : Regex :=
  Seq (Opt (Class (is_char 43)))
      (Seq (Class nonzero_digit) (AtMost 15 (Class digit))).

(** [/^[a-zA-Z0-9_]+$/] *)
Definition username_regex : Regex := Plus (Class word).

(** [/^[^\s@]+@[^\s@]+\.[^\s@]+$/] *)
Definition email_regex : Regex :=
  Seq (Plus (Class plain))
      (Seq (Class (is_char 64))
           (Seq (Plus (Class plain))
                (Seq (Class (is_char 46)) (Plus (Class plain))))).

(** [UserController.create] and [updateUserProfile] with their patterns. *)
Definition UserController_create_user (not_a_function : string -> string)
    (cannot_read : Js -> string -> string) (this : Controller)
    (data : list (string * Js)) : M (Promise Js) :=
  UserController_create not_a_function cannot_read
    (test username_regex) (test email_regex) this data.

Definition UserController_update_profile (not_a_function : string -> string)
    (this : Controller) (userId : Js) (data : list (string * Js))
    : M (Promise Js) :=
  UserController_updateUserProfile not_a_function (test phone_regex)
    this userId data.

(** A [UserCreateData] whose fields have the types the interface gives
    them, as the object the controller receives. *)
Module UserCreateData.
Record t : Type := mk {
  username : string;
  email : string;
  firstName : string;
  lastName : string;
  password : string;
  role : string;
  department : option string;
  position : option string;
  phone : option string
}.
End UserCreateData.

Definition optional_field (key : string) (value : option string)
    : list (string * Js) :=
  match value with
  | Some v => [(key, JString v)]
  | None => []
  end.

Definition creation_object (data : UserCreateData.t) : list (string * Js) :=
  [("username", JString (UserCreateData.username data));
   ("email", JString (UserCreateData.email data));
   ("firstName", JString (UserCreateData.firstName data));
   ("lastName", JString (UserCreateData.lastName data));
   ("password", JString (UserCreateData.password data));
   ("role", JString (UserCreateData.role data))]
  ++ optional_field "department" (UserCreateData.department data)
  ++ optional_field "position" (UserCreateData.position data)
  ++ optional_field "phone" (UserCreateData.phone data).

(** The length of a string lies between two bounds. *)
Definition length_within (low high : nat) (s : string) : Prop :=
  (low <= String.length s <= high)%nat.

(** The calls [BaseController] offers, for stating what they share. *)
Inductive BaseCall : Type :=
  | CallGetAll (filters pagination : Js)
  | CallGetById (id : Js)
  | CallCreate (data : Js)
  | CallUpdate (id data : Js)
  | CallDelete (id : Js)
  | CallBulkDelete (ids : Js)
  | CallSearch (query filters : Js)
  | CallExport (format filters : Js)
  | CallImport (file options : Js).

Definition perform_call (not_a_function : string -> string)
    (cannot_read : Js -> string -> string) (this : Controller)
    (call : BaseCall) : M (Promise Js) :=
  match call with
  | CallGetAll filters pagination =>
      BaseController_getAll not_a_function cannot_read this filters pagination
  | CallGetById id => BaseController_getById not_a_function this id
  | CallCreate data => BaseController_create not_a_function this data
  | CallUpdate id data => BaseController_update not_a_function this id data
  | CallDelete id => BaseController_delete not_a_function this id
  | CallBulkDelete ids => BaseController_bulkDelete not_a_function this ids
  | CallSearch query filters =>
      BaseController_search not_a_function this query filters
  | CallExport format filters =>
      BaseController_export not_a_function this format filters
  | CallImport file options =>
      BaseController_import not_a_function this file options
  end.

(** The method of the service a call goes to, and the arguments it is given. *)
Definition service_method (call : BaseCall) : string :=
  match call with
  | CallGetAll _ _ => "getList"
  | CallGetById _ => "getById"
  | CallCreate _ => "create"
  | CallUpdate _ _ => "update"
  | CallDelete _ => "delete"
  | CallBulkDelete _ => "bulkDelete"
  | CallSearch _ _ => "search"
  | CallExport _ _ => "export"
  | CallImport _ _ => "import"
  end.

Definition service_arguments (call : BaseCall) : list Js :=
  match call with
  | CallGetAll filters pagination => [filters; pagination]
  | CallGetById id => [id]
  | CallCreate data => [data]
  | CallUpdate id data => [id; data]
  | CallDelete id => [id]
  | CallBulkDelete ids => [ids]
  | CallSearch query filters => [query; filters]
  | CallExport format filters =>
      [match format with JUndefined => JString "csv" | given => given end;
       filters]
  | CallImport file options => [file; options]
  end.

(** The words a call has for itself in the message of its [catch] block. *)
Definition operation (moduleName : string) (call : BaseCall) : string :=
  match call with
  | CallGetAll _ _ => "get " +:+ moduleName +:+ " list"
  | CallGetById _ => "get " +:+ moduleName
  | CallCreate _ => "create " +:+ moduleName
  | CallUpdate _ _ => "update " +:+ moduleName
  | CallDelete _ => "delete " +:+ moduleName
  | CallBulkDelete _ => "bulk delete " +:+ moduleName
  | CallSearch _ _ => "search " +:+ moduleName
  | CallExport _ _ => "export " +:+ moduleName
  | CallImport _ _ => "import " +:+ moduleName
  end.

(** [`Failed to ${operation}: ${cause}`] *)
Definition failed_to (operation cause : string) : string :=
  "Failed to " +:+ operation +:+ ": " +:+ cause.

(** A backend that stores nothing and knows nobody. *)
Definition empty_backend : string -> list Js -> Promise Js :=
  fun method _ =>
    if bool_decide (method = "getById") then Fulfilled JNull
    else Fulfilled (JObject [("id", JNumber 7)]).

Definition ada : UserCreateData.t :=
  {| UserCreateData.username := "ada_l";
     UserCreateData.email := "ada@example.com";
     UserCreateData.firstName := "Ada";
     UserCreateData.lastName := "Lovelace";
     UserCreateData.password := "analytical";
     UserCreateData.role := "admin";
     UserCreateData.department := None;
     UserCreateData.position := None;
     UserCreateData.phone := None |}.

(** *** What the validation of [UserController] asks for, in plain terms *)

Definition characters (s : string) : list ascii := list_ascii_of_string s.

Definition every (accepts : ascii -> bool) (l : list ascii) : Prop :=
  forallb accepts l = true.

(** Only letters, digits and underscores, and at least one of them. *)
Definition username_shaped (s : string) : Prop :=
  s <> "" /\ every word (characters s).

(** [local@domain.tld], each part non-empty and without white space
    or [@]. *)
Definition email_shaped (s : string) : Prop :=
  exists local domain tld : list ascii,
    characters s = local ++ "@"%char :: domain ++ "."%char :: tld
    /\ local <> [] /\ domain <> [] /\ tld <> []
    /\ every plain local /\ every plain domain /\ every plain tld.

(** An optional [+], a digit from 1 to 9, then at most fifteen digits. *)
Definition phone_shaped (s : string) : Prop :=
  exists (sign : list ascii) (first : ascii) (rest : list ascii),
    characters s = sign ++ first :: rest
    /\ (sign = [] \/ sign = ["+"%char])
    /\ nonzero_digit first = true
    /\ every digit rest /\ (length rest <= 15)%nat.

Definition acceptable_user (data : UserCreateData.t) : Prop :=
  username_shaped (UserCreateData.username data)
  /\ length_within 3 30 (UserCreateData.username data)
  /\ email_shaped (UserCreateData.email data)
  /\ length_within 2 50 (UserCreateData.firstName data)
  /\ length_within 2 50 (UserCreateData.lastName data)
  /\ (8 <= String.length (UserCreateData.password data))%nat
  /\ UserCreateData.role data <> "".

(** What a rule asks of a value, in plain terms: a required value is
    truthy; a non-empty string keeps to the limits that are not zero and
    passes the pattern; nothing is asked of any other value. *)
Definition satisfied (value : Js) (rule : Rule.t) : Prop :=
  (Rule.required rule = Some true -> truthy value = true)
  /\ (forall s, value = JString s -> s <> "" ->
        (forall m, Rule.minLength rule = Some m -> m <> 0 ->
                   m <= Z.of_nat (String.length s))
        /\ (forall m, Rule.maxLength rule = Some m -> m <> 0 ->
                      Z.of_nat (String.length s) <= m)
        /\ (forall p, Rule.pattern rule = Some p -> p s = true)).

(** A [UserUpdateData], as the object the controller receives. *)
Module UserUpdateData.
Record t : Type := mk {
  firstName : option string;
  lastName : option string;
  role : option string;
  status : option string;
  department : option string;
  position : option string;
  phone : option string;
  avatar : option string
}.
End UserUpdateData.

Definition update_object (data : UserUpdateData.t) : list (string * Js) :=
  optional_field "firstName" (UserUpdateData.firstName data)
  ++ optional_field "lastName" (UserUpdateData.lastName data)
  ++ optional_field "role" (UserUpdateData.role data)
  ++ optional_field "status" (UserUpdateData.status data)
  ++ optional_field "department" (UserUpdateData.department data)
  ++ optional_field "position" (UserUpdateData.position data)
  ++ optional_field "phone" (UserUpdateData.phone data)
  ++ optional_field "avatar" (UserUpdateData.avatar data).

(** A name the profile rules accept. *)
Definition given_name (name : option string) : Prop :=
  exists s, name = Some s /\ length_within 2 50 s.

Definition acceptable_profile (data : UserUpdateData.t) : Prop :=
  given_name (UserUpdateData.firstName data)
  /\ given_name (UserUpdateData.lastName data)
  /\ match UserUpdateData.phone data with
     | Some phone => phone = "" \/ phone_shaped phone
     | None => True
     end.

(** The calls of [UserController] that hand their arguments to one method
    of the service. *)
Inductive UserCall : Type :=
  | CallGetUserProfile (userId : Js)
  | CallChangeUserStatus (userId status : Js)
  | CallChangeUserRole (userId newRole : Js)
  | CallGetUserActivity (userId days : Js)
  | CallGetUserStats (userId : Js)
  | CallSendPasswordReset (email : Js)
  | CallBulkUpdateUsers (updates : list Js)
  | CallSearchUsers (query filters : Js).

Definition perform_user_call (not_a_function : string -> string)
    (cannot_read : Js -> string -> string) (this : Controller)
    (call : UserCall) : M (Promise Js) :=
  match call with
  | CallGetUserProfile userId =>
      UserController_getUserProfile not_a_function this userId
  | CallChangeUserStatus userId status =>
      UserController_changeUserStatus not_a_function this userId status
  | CallChangeUserRole userId newRole =>
      UserController_changeUserRole not_a_function this userId newRole
  | CallGetUserActivity userId days =>
      UserController_getUserActivity not_a_function this userId days
  | CallGetUserStats userId =>
      UserController_getUserStats not_a_function this userId
  | CallSendPasswordReset email =>
      UserController_sendPasswordReset not_a_function this email
  | CallBulkUpdateUsers updates =>
      UserController_bulkUpdateUsers not_a_function cannot_read this
        (JArray updates)
  | CallSearchUsers query filters =>
      UserController_search not_a_function this query filters
  end.

Definition user_service_method (call : UserCall) : string :=
  match call with
  | CallGetUserProfile _ => "getUserProfile"
  | CallChangeUserStatus _ _ => "toggleUserStatus"
  | CallChangeUserRole _ _ => "changeUserRole"
  | CallGetUserActivity _ _ => "getUserActivity"
  | CallGetUserStats _ => "getUserStats"
  | CallSendPasswordReset _ => "sendPasswordReset"
  | CallBulkUpdateUsers _ => "bulkUpdate"
  | CallSearchUsers _ _ => "searchUsers"
  end.

Definition user_service_arguments (call : UserCall) : list Js :=
  match call with
  | CallGetUserProfile userId => [userId]
  | CallChangeUserStatus userId status => [userId; status]
  | CallChangeUserRole userId newRole => [userId; newRole]
  | CallGetUserActivity userId days =>
      [userId; match days with JUndefined => JNumber 30 | given => given end]
  | CallGetUserStats userId => [userId]
  | CallSendPasswordReset email => [email]
  | CallBulkUpdateUsers updates => [JArray updates]
  | CallSearchUsers query filters => [query; filters]
  end.

Definition only_phone : UserUpdateData.t :=
  {| UserUpdateData.firstName := None;
     UserUpdateData.lastName := None;
     UserUpdateData.role := None;
     UserUpdateData.status := None;
     UserUpdateData.department := None;
     UserUpdateData.position := None;
     UserUpdateData.phone := Some "+4930123456";
     UserUpdateData.avatar := None |}.

Definition renamed : UserUpdateData.t :=
  {| UserUpdateData.firstName := Some "Ada";
     UserUpdateData.lastName := Some "King";
     UserUpdateData.role := None;
     UserUpdateData.status := None;
     UserUpdateData.department := None;
     UserUpdateData.position := None;
     UserUpdateData.phone := Some "+4930123456";
     UserUpdateData.avatar := None |}.

(** ** [UserService.getUsers] *)

Module UserData.
Record t : Type := mk {
  id : string;
  email : string;
  firstName : string;
  lastName : string;
  role : string;
  avatar : string;
  isActive : bool;
  lastLogin : string;
  createdAt : string;
  updatedAt : string
}.
End UserData.

(** The filters [getUsers] reads. *)
Module UserFilters.
Record t : Type := mk {
  role : option string;
  isActive : option bool;
  search : option string
}.
End UserFilters.

(** The parameters [getUsers] reads; numbers are integers. *)
Module ListParams.
Record t : Type := mk {
  page : option Z;
  limit : option Z;
  filters : option UserFilters.t
}.
End ListParams.

Module Pagination.
Record t : Type := mk {
  page : Z;
  limit : Z;
  total : Z;
  totalPages : Z
}.
End Pagination.

Module PaginatedResponse.
Record t : Type := mk {
  data : list UserData.t;
  pagination : Pagination.t
}.
End PaginatedResponse.

Module ApiResponse.
Record t : Type := mk {
  success : bool;
  data : PaginatedResponse.t;
  message : string
}.
End ApiResponse.

(** [String.prototype.includes] *)
Definition String_includes (s searchString : string) : bool :=
  match index 0 searchString s with
  | Some _ => true
  | None => false
  end.

(** [Math.ceil(a / b)] on integers, for [b] other than [0]. *)
Definition Math_ceil_quotient (a b : Z) : Z := - ((- a) / b).

Section UserService.
(** The readings of the clock during a call, in order; the library's
    [Date.prototype.toISOString] and [String.prototype.toLowerCase]. *)
Variable Date_now : nat -> Z.
Variable toISOString : Z -> string.
Variable toLowerCase : string -> string.

Definition mockUsers : list UserData.t :=
  [ {| UserData.id := "1";
       UserData.email := "john.doe@example.com";
       UserData.firstName := "John";
       UserData.lastName := "Doe";
       UserData.role := "admin";
       UserData.avatar := "";
       UserData.isActive := true;
       UserData.lastLogin := toISOString (Date_now 0 - 86400000);
       UserData.createdAt := toISOString (Date_now 1 - 2592000000);
       UserData.updatedAt := toISOString (Date_now 2 - 86400000) |};
    {| UserData.id := "2";
       UserData.email := "jane.smith@example.com";
       UserData.firstName := "Jane";
       UserData.lastName := "Smith";
       UserData.role := "manager";
       UserData.avatar := "";
       UserData.isActive := true;
       UserData.lastLogin := toISOString (Date_now 3 - 172800000);
       UserData.createdAt := toISOString (Date_now 4 - 5184000000);
       UserData.updatedAt := toISOString (Date_now 5 - 172800000) |};
    {| UserData.id := "3";
       UserData.email := "bob.johnson@example.com";
       UserData.firstName := "Bob";
       UserData.lastName := "Johnson";
       UserData.role := "user";
       UserData.avatar := "";
       UserData.isActive := false;
       UserData.lastLogin := toISOString (Date_now 6 - 604800000);
       UserData.createdAt := toISOString (Date_now 7 - 7776000000);
       UserData.updatedAt := toISOString (Date_now 8 - 604800000) |} ].

(** [filteredUsers] once the three filters have been applied. *)
Definition filteredUsers (params : ListParams.t) : list UserData.t :=
  let role := ListParams.filters params ≫= UserFilters.role in
  let isActive := ListParams.filters params ≫= UserFilters.isActive in
  let search := ListParams.filters params ≫= UserFilters.search in
  let filteredUsers := mockUsers in
  let filteredUsers :=
    match role with
    | Some wanted =>
        if truthy_string role
        then List.filter
               (fun user => bool_decide (UserData.role user = wanted))
               filteredUsers
        else filteredUsers
    | None => filteredUsers
    end in
  let filteredUsers :=
    match isActive with
    | Some wanted =>
        List.filter (fun user => eqb (UserData.isActive user) wanted)
                    filteredUsers
    | None => filteredUsers
    end in
  match search with
  | Some text =>
      if truthy_string search
      then let searchTerm := toLowerCase text in
           List.filter
             (fun user =>
                String_includes (toLowerCase (UserData.firstName user))
                                searchTerm
                || String_includes (toLowerCase (UserData.lastName user))
                                   searchTerm
                || String_includes (toLowerCase (UserData.email user))
                                   searchTerm)
             filteredUsers
      else filteredUsers
  | None => filteredUsers
  end.

Definition UserService_getUsers (params : ListParams.t)
    : M (Promise ApiResponse.t) :=
  async
    (let* _ := sleep 800 in
     let filteredUsers := filteredUsers params in
     let page := or_default (ListParams.page params) 1 in
     let limit := or_default (ListParams.limit params) 10 in
     let startIndex := (page - 1) * limit in
     let endIndex := startIndex + limit in
     let paginatedUsers := slice filteredUsers startIndex endIndex in
     ret {| ApiResponse.success := true;
            ApiResponse.data :=
              {| PaginatedResponse.data := paginatedUsers;
                 PaginatedResponse.pagination :=
                   {| Pagination.page := page;
                      Pagination.limit := limit;
                      Pagination.total := Z.of_nat (length filteredUsers);
                      Pagination.totalPages :=
                        Math_ceil_quotient (Z.of_nat (length filteredUsers))
                                           limit |} |};
            ApiResponse.message := "Users retrieved successfully" |}).


(** The users a call resolves with, and the number of pages it reports. *)
Definition users_listed (params : ListParams.t) (w : World)
    : list UserData.t :=
  match UserService_getUsers params w with
  | (Normal (Fulfilled response), _) =>
      PaginatedResponse.data (ApiResponse.data response)
  | _ => []
  end.


End UserService.


Definition still_clock : nat -> Z := fun _ => 1700000000000.

(** Stand-ins for the library in examples: a date rendered as its time
    value, and lower case for the letters A to Z. *)
Definition decimal_date (time : Z) : string := pretty time.

Definition lower_char (c : ascii) : ascii :=
  if between 65 90 c then ascii_of_nat (code c + 32) else c.

Fixpoint lower_ascii (s : string) : string :=
  match s with
  | EmptyString => EmptyString
  | String c rest => String (lower_char c) (lower_ascii rest)
  end.

(** A request for the users that are not active. *)
Definition inactive_only : ListParams.t :=
  {| ListParams.page := None;
     ListParams.limit := None;
     ListParams.filters :=
       Some {| UserFilters.role := Some "";
               UserFilters.isActive := Some false;
               UserFilters.search := Some "JOHN" |} |}.

(** The message [sendCustomEmail] hands to the transport. *)
Definition custom_message (env : Env) (to : Recipients)
    (subject htmlContent : string) (attachments : option (list Attachment.t))
    : MailOptions.t :=
  {| MailOptions.from := EmailConfig.from (EMAIL_CONFIG env);
     MailOptions.to := to;
     MailOptions.subject := subject;
     MailOptions.html := htmlContent;
     MailOptions.attachments := attachments;
     MailOptions.replyTo :=
       match EmailConfig.replyTo (EMAIL_CONFIG env) with
       | Some "" | None => None
       | Some address => Some address
       end |}.

(** The third user of the table, under the clock that stands still. *)
Definition bob : UserData.t :=
  {| UserData.id := "3";
     UserData.email := "bob.johnson@example.com";
     UserData.firstName := "Bob";
     UserData.lastName := "Johnson";
     UserData.role := "user";
     UserData.avatar := "";
     UserData.isActive := false;
     UserData.lastLogin := decimal_date (still_clock 6 - 604800000);
     UserData.createdAt := decimal_date (still_clock 7 - 7776000000);
     UserData.updatedAt := decimal_date (still_clock 8 - 604800000) |}.

(** ** Basic facts *)

Lemma extend_nil (w : World) : extend w [] = w.
Proof. destruct w; unfold extend; simpl. now rewrite app_nil_r. Qed.

Lemma extend_extend (w : World) (a b : list Event) :
  extend (extend w a) b = extend w (a ++ b).
Proof. unfold extend; simpl. now rewrite app_assoc. Qed.

Lemma extend_inj (w : World) (a b : list Event) :
  extend w a = extend w b -> a = b.
Proof.
  unfold extend; intros H. injection H as H. now apply app_inv_head in H.
Qed.


Lemma bind_run {A B : Type} (m : M A) (f : A -> M B) (w w' : World) (a : A) :
  m w = (Normal a, w') -> bind m f w = f a w'.
Proof. unfold bind. now intros ->. Qed.

Lemma timeouts_app (a b : list Event) :
  timeouts (a ++ b) = timeouts a ++ timeouts b.
Proof. unfold timeouts. apply List.filter_app. Qed.

Lemma timeouts_of_sends (evs : list Event) :
  Forall (fun ev => is_send ev = true) evs -> timeouts evs = [].
Proof.
  induction 1 as [| ev evs Hev _ IH]; [reflexivity |].
  unfold timeouts in *; simpl. destruct ev; simpl in *; try discriminate.
  exact IH.
Qed.

(** ** [Promise.all] keeps the positions *)

Lemma mapM_id_Some {A : Type} (vs : list A) :
  mapM id (Some <$> vs) = Some vs.
Proof.
  apply mapM_Some. induction vs as [| v vs IH]; constructor; auto.
Qed.

Lemma settle_all_fulfilled {A : Type} (vs : list A) (order : list nat) :
  forall values : list (option A),
    length values = length vs ->
    (forall k v, vs !! k = Some v -> k ∈ order \/ values !! k = Some (Some v)) ->
    settle_all (Fulfilled <$> vs) order values = Fulfilled vs.
Proof.
  induction order as [| k0 rest IH]; intros values Hlen Hcov; simpl.
  - assert (values = Some <$> vs) as ->.
    { apply list_eq; intros k. rewrite list_lookup_fmap.
      destruct (vs !! k) as [v |] eqn:Hk; simpl.
      - destruct (Hcov k v Hk) as [Hin | Hv]; [| exact Hv].
        now apply elem_of_nil in Hin.
      - apply lookup_ge_None. apply lookup_ge_None in Hk. lia. }
    now rewrite mapM_id_Some.
  - rewrite list_lookup_fmap.
    destruct (vs !! k0) as [v0 |] eqn:Hk0; simpl.
    + apply IH; [now rewrite length_insert |].
      intros k v Hk. destruct (decide (k = k0)) as [-> | Hne].
      * right. rewrite Hk0 in Hk. injection Hk as ->.
        apply list_lookup_insert_eq. apply lookup_lt_Some in Hk0. lia.
      * destruct (Hcov k v Hk) as [Hin | Hv].
        -- left. apply elem_of_cons in Hin. destruct Hin; [congruence | auto].
        -- right. now rewrite list_lookup_insert_ne.
    + apply IH; [exact Hlen |].
      intros k v Hk. destruct (Hcov k v Hk) as [Hin | Hv]; [| now right].
      left. apply elem_of_cons in Hin. destruct Hin as [-> | Hin]; [| exact Hin].
      congruence.
Qed.

Lemma Promise_all_fulfilled {A : Type} (vs : list A) (order : list nat) :
  Promise_all (Fulfilled <$> vs) order = Fulfilled vs.
Proof.
  unfold Promise_all. apply settle_all_fulfilled.
  - now rewrite length_replicate, length_fmap.
  - intros k v Hk. left. apply elem_of_app. right.
    apply elem_of_seq. apply lookup_lt_Some in Hk.
    rewrite length_fmap. lia.
Qed.

(** ** The single send *)

Section SingleSend.
Variable env : Env.

(** The three ways through [sendEmail]. *)
Lemma EmailService_sendEmail_cases (data : EmailData.t) (w : World) :
  EmailService_sendEmail env data w =
  match JsMap.get (templates (service w)) (EmailData.template data) with
  | None => (Normal (Fulfilled (failure (not_found (EmailData.template data)))), w)
  | Some template =>
      match template (EmailData.context data) with
      | Throws e => (Normal (Fulfilled (failure e)), w)
      | Returns html =>
          (Normal (Fulfilled
                     (delivered (transporter_sendMail env (trace w)
                                   (composed env data html)))),
           extend w [SendMail (composed env data html)])
      end
  end.
Proof.
  unfold EmailService_sendEmail, async, try_catch, bind, this; simpl.
  destruct (JsMap.get _ _) as [template |]; simpl; [| reflexivity].
  destruct (template _) as [html | e]; simpl; [| reflexivity].
  fold (composed env data html).
  destruct (transporter_sendMail _ _ _) as [info | e]; reflexivity.
Qed.

(** The service never rejects, so neither does the controller. *)
Lemma EmailController_sendEmail_service (request : EmailSendRequest.t)
    (w : World) :
  EmailController_sendEmail env request w =
  EmailService_sendEmail env (data_of request) w.
Proof.
  unfold EmailController_sendEmail, async, try_catch, bind.
  fold (data_of request).
  rewrite EmailService_sendEmail_cases.
  destruct (JsMap.get _ _) as [template |]; simpl; [| reflexivity].
  destruct (template _) as [html | e]; reflexivity.
Qed.

Lemma EmailController_sendEmail_run (request : EmailSendRequest.t)
    (w : World) :
  exists r evs,
    EmailController_sendEmail env request w
      = (Normal (Fulfilled r), extend w evs) /\
    Forall (fun ev => is_send ev = true) evs.
Proof.
  rewrite EmailController_sendEmail_service, EmailService_sendEmail_cases.
  destruct (JsMap.get _ _) as [template |].
  - destruct (template _) as [html | e].
    + eexists _, [_]. split; [reflexivity |]. repeat constructor.
    + exists (failure e), []. now rewrite extend_nil.
  - eexists _, []. now rewrite extend_nil.
Qed.

(** When the transport answers a message the same way whatever came
    before, so does a send. *)
Lemma EmailController_sendEmail_history (request : EmailSendRequest.t)
    (w : World) (evs : list Event) :
  (forall h h' m, transporter_sendMail env h m = transporter_sendMail env h' m) ->
  fst (EmailController_sendEmail env request (extend w evs))
  = fst (EmailController_sendEmail env request w).
Proof.
  intros Hsame.
  rewrite !EmailController_sendEmail_service, !EmailService_sendEmail_cases.
  simpl. destruct (JsMap.get _ _) as [template |]; [| reflexivity].
  destruct (template _) as [html | e]; [| reflexivity].
  simpl. now rewrite (Hsame (trace w ++ evs) (trace w)).
Qed.

Lemma produced_during_shift (w : World) (a evs b : list Event)
    (request : EmailSendRequest.t) (r : EmailResult.t) :
  produced_during env (extend w a) evs request r ->
  produced_during env w (a ++ evs ++ b) request r.
Proof.
  intros (before & after & -> & Hrun).
  exists (a ++ before), (after ++ b). split.
  - now rewrite <- !app_assoc.
  - now rewrite <- extend_extend.
Qed.

(** One batch: the sends are issued in order, every one of them resolves,
    and the outcomes come back in the order of the batch whatever the order
    in which they settled. *)
Lemma Array_map_sendEmail (batch : list EmailSendRequest.t) :
  forall w : World,
    exists rs evs,
      Array_map (EmailController_sendEmail env) batch w
        = (Normal (Fulfilled <$> rs), extend w evs) /\
      Forall2 (produced_during env w evs) batch rs /\
      Forall (fun ev => is_send ev = true) evs.
Proof.
  induction batch as [| request rest IH]; intros w.
  - exists [], []. simpl. rewrite extend_nil. repeat split; constructor.
  - destruct (EmailController_sendEmail_run request w) as (r & e1 & Hr & He1).
    destruct (IH (extend w e1)) as (rs & e2 & Hrs & Hprod & He2).
    exists (r :: rs), (e1 ++ e2). simpl.
    rewrite (bind_run _ _ _ _ _ Hr), (bind_run _ _ _ _ _ Hrs).
    unfold ret. rewrite extend_extend. split; [reflexivity |]. split.
    + constructor.
      * exists [], (e1 ++ e2). split; [reflexivity |].
        rewrite extend_nil, Hr. reflexivity.
      * eapply List.Forall2_impl; [| exact Hprod].
        intros x y Hxy. apply (produced_during_shift w e1 e2 []) in Hxy.
        now rewrite app_nil_r in Hxy.
    + apply Forall_app; split; assumption.
Qed.

Lemma send_batch_run (batch : list EmailSendRequest.t) (acc : Tally)
    (w : World) :
  exists rs evs,
    send_batch env batch acc w
      = (Normal (fold_left count rs acc), extend w evs) /\
    Forall2 (produced_during env w evs) batch rs /\
    Forall (fun ev => is_send ev = true) evs.
Proof.
  destruct (Array_map_sendEmail batch w) as (rs & evs & Hrs & Hprod & Hevs).
  exists rs, evs. split; [| split; assumption].
  unfold send_batch. rewrite (bind_run _ _ _ _ _ Hrs).
  unfold await_all, bind, history, await, ret.
  now rewrite Promise_all_fulfilled.
Qed.

End SingleSend.

(** ** The tally *)

Lemma fold_count_results (rs : list EmailResult.t) :
  forall acc : Tally, results (fold_left count rs acc) = results acc ++ rs.
Proof.
  induction rs as [| r rs IH]; intros acc; simpl.
  - now rewrite app_nil_r.
  - rewrite IH. simpl. now rewrite <- app_assoc.
Qed.

Lemma fold_count_sum (rs : list EmailResult.t) :
  forall acc : Tally,
    (successful (fold_left count rs acc) + failed (fold_left count rs acc)
     = successful acc + failed acc + length rs)%nat.
Proof.
  induction rs as [| r rs IH]; intros acc; simpl.
  - lia.
  - rewrite IH. simpl. destruct (EmailResult.success r); lia.
Qed.

Lemma fold_count_app (a b : list EmailResult.t) (acc : Tally) :
  fold_left count (a ++ b) acc = fold_left count b (fold_left count a acc).
Proof. apply fold_left_app. Qed.

(** ** [slice] on the indices the loop uses *)

Lemma slice_window {A : Type} (l : list A) (i n : Z) :
  0 <= i -> 0 < n ->
  slice l i (i + n) = take (Z.to_nat n) (drop (Z.to_nat i) l).
Proof.
  intros Hi Hn. unfold slice, relative_index.
  destruct (Z.ltb_spec i 0) as [? | _]; [lia |].
  destruct (Z.ltb_spec (i + n) 0) as [? | _]; [lia |].
  destruct (Z_le_gt_dec (i + n) (Z.of_nat (length l))) as [Hin | Hout].
  - f_equal; [lia | f_equal; lia].
  - destruct (Z_le_gt_dec i (Z.of_nat (length l))) as [Hil | Hil].
    + replace (Z.to_nat (i `min` Z.of_nat (length l))) with (Z.to_nat i) by lia.
      rewrite !take_ge; [reflexivity | |]; rewrite length_drop; lia.
    + rewrite !drop_ge by lia. now rewrite !take_nil.
Qed.

(** ** The loop *)

Section Loop.
Variable env : Env.
Variable emails : list EmailSendRequest.t.
Variables batchSize delay : Z.

Local Abbreviation len := (Z.of_nat (length emails)).
Local Abbreviation pause := (pause_events emails batchSize delay).

Lemma bulk_loop_done (fuel : nat) (i : Z) (acc : Tally) (w : World) :
  len <= i ->
  bulk_loop env fuel emails batchSize delay i acc w = (Normal acc, w).
Proof.
  intros Hi. destruct fuel; simpl;
    destruct (Z.ltb_spec i len); (lia || reflexivity).
Qed.

Lemma bulk_loop_out_of_fuel (i : Z) (acc : Tally) (w : World) :
  i < len ->
  bulk_loop env 0 emails batchSize delay i acc w = (Exhausted, w).
Proof.
  intros Hi. simpl. destruct (Z.ltb_spec i len); [reflexivity | lia].
Qed.

(** One turn of the loop: the batch, the delay when another batch follows,
    then the loop again from [i + batchSize]. *)
Lemma bulk_loop_step (fuel : nat) (i : Z) (acc : Tally) (w : World) :
  i < len ->
  exists rs evs,
    send_batch env (slice emails i (i + batchSize)) acc w
      = (Normal (fold_left count rs acc), extend w evs) /\
    Forall2 (produced_during env w evs) (slice emails i (i + batchSize)) rs /\
    Forall (fun ev => is_send ev = true) evs /\
    bulk_loop env (S fuel) emails batchSize delay i acc w
      = bulk_loop env fuel emails batchSize delay (i + batchSize)
          (fold_left count rs acc) (extend w (evs ++ pause i)).
Proof.
  intros Hi.
  destruct (send_batch_run env (slice emails i (i + batchSize)) acc w)
    as (rs & evs & Hrun & Hprod & Hevs).
  exists rs, evs. repeat split; try assumption.
  cbn [bulk_loop].
  destruct (Z.ltb_spec i len) as [_ | ?]; [| lia].
  unfold send_batch in Hrun. unfold bind in Hrun |- *.
  destruct (Array_map _ _ w) as [[ps | e | |] w1]; try discriminate.
  destruct (await_all env ps w1) as [[outcomes | e | |] w2]; try discriminate.
  unfold ret in Hrun. injection Hrun as Hacc Hw. rewrite Hacc, Hw.
  unfold pause_events. destruct (i + batchSize <? len); unfold sleep, emit, ret.
  - now rewrite <- extend_extend.
  - now rewrite app_nil_r.
Qed.

(** The service is never touched and every suspension is of [delay]
    milliseconds, however the loop ends. *)
Lemma bulk_loop_events (fuel : nat) :
  forall (i : Z) (acc : Tally) (w : World),
    exists evs,
      snd (bulk_loop env fuel emails batchSize delay i acc w) = extend w evs /\
      Forall (fun ev => ev = SetTimeout delay) (timeouts evs).
Proof.
  induction fuel as [| fuel IH]; intros i acc w;
    destruct (Z_lt_ge_dec i len) as [Hi | Hi].
  - rewrite bulk_loop_out_of_fuel by exact Hi.
    exists []. rewrite extend_nil. split; [reflexivity | constructor].
  - rewrite bulk_loop_done by lia.
    exists []. rewrite extend_nil. split; [reflexivity | constructor].
  - destruct (bulk_loop_step fuel i acc w Hi)
      as (rs & e1 & _ & _ & Hsend & ->).
    destruct (IH (i + batchSize) (fold_left count rs acc)
                 (extend w (e1 ++ pause i))) as (e2 & -> & He2).
    exists ((e1 ++ pause i) ++ e2). rewrite extend_extend.
    split; [reflexivity |].
    rewrite !timeouts_app, (timeouts_of_sends _ Hsend). simpl.
    apply Forall_app; split; [| exact He2].
    unfold pause_events. destruct (i + batchSize <? len); repeat constructor.
  - rewrite bulk_loop_done by lia.
    exists []. rewrite extend_nil. split; [reflexivity | constructor].
Qed.

(** With a positive batch size, a loop that returns has recorded one outcome
    for every remaining send, in the order of the sends. *)
Lemma bulk_loop_returns (fuel : nat) :
  0 < batchSize ->
  forall (i : Z) (acc acc' : Tally) (w w' : World),
    0 <= i ->
    bulk_loop env fuel emails batchSize delay i acc w = (Normal acc', w') ->
    exists rs evs,
      w' = extend w evs /\
      acc' = fold_left count rs acc /\
      Forall2 (produced_during env w evs) (drop (Z.to_nat i) emails) rs.
Proof.
  intros Hpos.
  induction fuel as [| fuel IH]; intros i acc acc' w w' Hi0 Hrun;
    destruct (Z_lt_ge_dec i len) as [Hi | Hi].
  - rewrite bulk_loop_out_of_fuel in Hrun by exact Hi. discriminate.
  - rewrite bulk_loop_done in Hrun by lia. injection Hrun as <- <-.
    exists [], []. rewrite extend_nil, drop_ge by lia.
    repeat split. constructor.
  - destruct (bulk_loop_step fuel i acc w Hi)
      as (rs1 & e1 & _ & Hprod1 & _ & Hstep).
    rewrite Hstep in Hrun.
    apply IH in Hrun; [| lia].
    destruct Hrun as (rs2 & e2 & -> & -> & Hprod2).
    exists (rs1 ++ rs2), ((e1 ++ pause i) ++ e2).
    rewrite extend_extend, fold_count_app. repeat split.
    rewrite <- (take_drop (Z.to_nat batchSize) (drop (Z.to_nat i) emails)).
    apply Forall2_app.
    + rewrite slice_window in Hprod1 by lia.
      eapply List.Forall2_impl; [| exact Hprod1].
      intros x y Hxy.
      rewrite <- (extend_nil w) in Hxy.
      apply (produced_during_shift env w [] e1 (pause i ++ e2)) in Hxy.
      simpl in Hxy. now rewrite <- app_assoc.
    + rewrite drop_drop.
      replace (Z.to_nat i + Z.to_nat batchSize)%nat
        with (Z.to_nat (i + batchSize)) by lia.
      eapply List.Forall2_impl; [| exact Hprod2].
      intros x y Hxy.
      apply (produced_during_shift env w (e1 ++ pause i) e2 []) in Hxy.
      now rewrite app_nil_r in Hxy.
  - rewrite bulk_loop_done in Hrun by lia. injection Hrun as <- <-.
    exists [], []. rewrite extend_nil, drop_ge by lia.
    repeat split. constructor.
Qed.

(** With a negative batch size the counter only moves away from the length
    of a non-empty array: the loop uses up whatever it is given. *)
Lemma bulk_loop_negative (fuel : nat) :
  batchSize < 0 ->
  forall (i : Z) (acc : Tally) (w : World),
    i <= 0 -> 0 < len ->
    fst (bulk_loop env fuel emails batchSize delay i acc w) = Exhausted.
Proof.
  intros Hneg.
  induction fuel as [| fuel IH]; intros i acc w Hi Hlen.
  - now rewrite bulk_loop_out_of_fuel by lia.
  - destruct (bulk_loop_step fuel i acc w) as (rs & e1 & _ & _ & _ & ->);
      [lia |].
    apply IH; lia.
Qed.






End Loop.

(** ** [sendBulkEmails] *)

Section Bulk.
Variable env : Env.

Lemma or_default_nonzero (x : option Z) (d : Z) : d <> 0 -> or_default x d <> 0.
Proof.
  intros Hd. unfold or_default. destruct x as [v |]; [| exact Hd].
  destruct (Z.eqb_spec v 0); [exact Hd | assumption].
Qed.

Lemma try_catch_rethrow {A : Type} (m : M A) (w : World) :
  try_catch m handleError w = m w.
Proof.
  unfold try_catch, handleError, throw.
  destruct (m w) as [[a | e | |] w']; reflexivity.
Qed.

(** What a call that resolves has done: one outcome per send, in the order
    of the sends, each produced by [sendEmail] on the send at its place. *)
Lemma sendBulkEmails_resolved (fuel : nat) (request : EmailBulkRequest.t)
    (w w' : World) (summary : BulkSummary.t) :
  EmailController_sendBulkEmails env fuel request w
    = (Normal (Fulfilled summary), w') ->
  exists rs evs,
    w' = extend w evs /\
    Forall2 (produced_during env w evs) (EmailBulkRequest.emails request) rs /\
    BulkSummary.results summary = rs /\
    BulkSummary.total summary = length (EmailBulkRequest.emails request) /\
    (BulkSummary.successful summary + BulkSummary.failed summary
     = length rs)%nat.
Proof.
  unfold EmailController_sendBulkEmails, async. rewrite try_catch_rethrow.
  set (batchSize := or_default (EmailBulkRequest.batchSize request) 10).
  set (delay := or_default (EmailBulkRequest.delayBetweenBatches request) 1000).
  set (acc0 := {| results := []; successful := 0; failed := 0 |}).
  set (emails := EmailBulkRequest.emails request).
  unfold bind.
  destruct (bulk_loop env fuel emails batchSize delay 0 acc0 w)
    as [[acc | e | |] w1] eqn:Hloop; try discriminate.
  unfold ret. intros H. injection H as <- <-.
  assert (exists rs evs,
             w1 = extend w evs /\ acc = fold_left count rs acc0 /\
             Forall2 (produced_during env w evs) emails rs)
    as (rs & evs & -> & -> & Hprod).
  { destruct (Z.lt_trichotomy batchSize 0) as [Hneg | [Hzero | Hpos]].
    - destruct emails as [| request0 rest] eqn:Hemails.
      + rewrite bulk_loop_done in Hloop by (simpl; lia).
        injection Hloop as <- <-.
        exists [], []. rewrite extend_nil. repeat split. constructor.
      + pose proof (bulk_loop_negative env (request0 :: rest) batchSize delay
                      fuel Hneg 0 acc0 w) as Hstuck.
        rewrite Hloop in Hstuck. simpl in Hstuck.
        discriminate Hstuck; simpl; lia.
    - exfalso. revert Hzero. apply or_default_nonzero. lia.
    - apply (bulk_loop_returns env emails batchSize delay fuel Hpos 0)
        in Hloop; [| lia].
      exact Hloop. }
  exists rs, evs. simpl.
  rewrite fold_count_results.
  pose proof (fold_count_sum rs acc0) as Hsum. simpl in Hsum.
  repeat split; assumption.
Qed.


End Bulk.


(** ** The claims on the batch dispatcher *)

(** C1. Whenever [sendBulkEmails] returns, the summary it returns has
    [total] equal to the number of sends, [successful + failed] equal to
    [total], and as many results as [total]. *)
Theorem sendBulkEmails_summary_counts (env : Env) (fuel : nat)
    (request : EmailBulkRequest.t) (w w' : World) (summary : BulkSummary.t) :
  EmailController_sendBulkEmails env fuel request w
    = (Normal (Fulfilled summary), w') ->
  BulkSummary.total summary = length (EmailBulkRequest.emails request) /\
  (BulkSummary.successful summary + BulkSummary.failed summary
   = BulkSummary.total summary)%nat /\
  length (BulkSummary.results summary) = BulkSummary.total summary.
Proof.
  intros Hrun.
  apply sendBulkEmails_resolved in Hrun
    as (rs & evs & _ & Hprod & Hres & Htotal & Hsum).
  apply Forall2_length in Hprod.
  rewrite Hres, Htotal. repeat split; lia.
Qed.

Lemma sendBulkEmails_summary_counts_sample :
  exists summary w',
    EmailController_sendBulkEmails sample_env 2 sample_bulk sample_world
      = (Normal (Fulfilled summary), w') /\
    (BulkSummary.total summary, BulkSummary.successful summary,
     BulkSummary.failed summary, length (BulkSummary.results summary))
      = (3, 2, 1, 3)%nat /\
    (BulkSummary.total summary = 3%nat /\
     (BulkSummary.successful summary + BulkSummary.failed summary
      = BulkSummary.total summary)%nat /\
     length (BulkSummary.results summary) = BulkSummary.total summary).
Proof.
  eexists _, _. split; [reflexivity |]. split; [reflexivity |].
  apply (sendBulkEmails_summary_counts sample_env 2 sample_bulk sample_world
           _ _ eq_refl).
Defined.

(** C2. Whenever [sendBulkEmails] returns, there are as many results as
    sends and the result at position [i] is what [sendEmail] resolved with
    for the send at position [i], whatever the order in which the sends of a
    batch settle. When the transport answers a message the same way at any
    time, the results are the outcomes of the sends, position by position. *)
Theorem sendBulkEmails_results_in_order (env : Env) (fuel : nat)
    (request : EmailBulkRequest.t) (w w' : World) (summary : BulkSummary.t) :
  EmailController_sendBulkEmails env fuel request w
    = (Normal (Fulfilled summary), w') ->
  exists evs,
    w' = extend w evs /\
    length (BulkSummary.results summary)
      = length (EmailBulkRequest.emails request) /\
    (forall (i : nat) (send : EmailSendRequest.t),
        EmailBulkRequest.emails request !! i = Some send ->
        exists r,
          BulkSummary.results summary !! i = Some r /\
          produced_during env w evs send r) /\
    ((forall h h' m,
         transporter_sendMail env h m = transporter_sendMail env h' m) ->
     Forall2
       (fun send r =>
          fst (EmailController_sendEmail env send w) = Normal (Fulfilled r))
       (EmailBulkRequest.emails request) (BulkSummary.results summary)).
Proof.
  intros Hrun.
  apply sendBulkEmails_resolved in Hrun
    as (rs & evs & -> & Hprod & -> & _ & _).
  exists evs. split; [reflexivity |]. split; [| split].
  - symmetry. now apply Forall2_length in Hprod.
  - intros i send Hi.
    destruct (Forall2_lookup_l _ _ _ _ _ Hprod Hi) as (r & Hr & Hsr).
    now exists r.
  - intros Hsame. eapply List.Forall2_impl; [| exact Hprod].
    intros send r (before & after & _ & Hr).
    now rewrite EmailController_sendEmail_history in Hr.
Qed.

Lemma sendBulkEmails_results_in_order_sample :
  exists summary w',
    EmailController_sendBulkEmails sample_env 2 sample_bulk sample_world
      = (Normal (Fulfilled summary), w') /\
    map EmailResult.messageId (BulkSummary.results summary)
      = [Some "<first>"; None; Some "<third>"] /\
    exists evs,
      w' = extend sample_world evs /\
      length (BulkSummary.results summary) = 3%nat /\
      (forall (i : nat) (send : EmailSendRequest.t),
          EmailBulkRequest.emails sample_bulk !! i = Some send ->
          exists r,
            BulkSummary.results summary !! i = Some r /\
            produced_during sample_env sample_world evs send r) /\
      ((forall h h' m,
           transporter_sendMail sample_env h m
           = transporter_sendMail sample_env h' m) ->
       Forall2
         (fun send r =>
            fst (EmailController_sendEmail sample_env send sample_world)
            = Normal (Fulfilled r))
         (EmailBulkRequest.emails sample_bulk) (BulkSummary.results summary)).
Proof.
  eexists _, _. split; [reflexivity |]. split; [reflexivity |].
  apply (sendBulkEmails_results_in_order sample_env 2 sample_bulk sample_world
           _ _ eq_refl).
Defined.



(** C8. With no sends, [sendBulkEmails] returns the summary
    [{total: 0, successful: 0, failed: 0, results: []}] whatever the batch
    size and the delay; the trace is left as it was, so the transport is not
    called and no delay is inserted. *)
Theorem sendBulkEmails_no_sends (env : Env) (fuel : nat)
    (batchSize delayBetweenBatches : option Z) (w : World) :
  EmailController_sendBulkEmails env fuel
    {| EmailBulkRequest.emails := [];
       EmailBulkRequest.batchSize := batchSize;
       EmailBulkRequest.delayBetweenBatches := delayBetweenBatches |} w
  = (Normal (Fulfilled {| BulkSummary.total := 0;
                          BulkSummary.successful := 0;
                          BulkSummary.failed := 0;
                          BulkSummary.results := [] |}), w).
Proof. destruct fuel; reflexivity. Qed.




(** C6 fails on the code: with one send and a batch size of [-1] the counter
    of the loop goes from [0] to [-1], [-2], ... and stays below the length;
    however many iterations the loop is given, it uses them all up and
    [sendBulkEmails] does not return. *)
Theorem sendBulkEmails_negative_batchSize_loops (env : Env) (fuel : nat)
    (w : World) :
  fst (EmailController_sendBulkEmails env fuel one_with_negative w)
  = Exhausted.
Proof.
  unfold EmailController_sendBulkEmails, async.
  rewrite try_catch_rethrow. unfold bind.
  pose proof (bulk_loop_negative env
                (EmailBulkRequest.emails one_with_negative) (-1) 1000 fuel
                ltac:(lia) 0 {| results := []; successful := 0; failed := 0 |}
                w ltac:(lia) ltac:(simpl; lia)) as Hloop.
  change (or_default (EmailBulkRequest.batchSize one_with_negative) 10)
    with (-1).
  change (or_default (EmailBulkRequest.delayBetweenBatches one_with_negative)
            1000) with 1000.
  destruct (bulk_loop _ _ _ _ _ _ _ _) as [[acc | e | |] w1];
    simpl in *; congruence.
Qed.

(** Every suspension of a run lasts the [delayBetweenBatches] of the caller
    when that is given and is not [0], and 1000 milliseconds when it is
    absent or [0]. *)
Lemma sendBulkEmails_delay (env : Env) (fuel : nat)
    (request : EmailBulkRequest.t) (w : World) (evs : list Event) (ms : Z) :
  snd (EmailController_sendBulkEmails env fuel request w) = extend w evs ->
  In (SetTimeout ms) evs ->
  match EmailBulkRequest.delayBetweenBatches request with
  | Some d => if d =? 0 then ms = 1000 else ms = d
  | None => ms = 1000
  end.
Proof.
  intros Hrun Hin.
  assert (ms = or_default (EmailBulkRequest.delayBetweenBatches request) 1000)
    as Hms.
  { revert Hrun. unfold EmailController_sendBulkEmails, async.
    rewrite try_catch_rethrow. unfold bind.
    destruct (bulk_loop_events env (EmailBulkRequest.emails request)
                (or_default (EmailBulkRequest.batchSize request) 10)
                (or_default (EmailBulkRequest.delayBetweenBatches request) 1000)
                fuel 0 {| results := []; successful := 0; failed := 0 |} w)
      as (evs' & Hw & Hall).
    destruct (bulk_loop _ _ _ _ _ _ _ _) as [[acc | e | |] w1];
      simpl in *; subst w1; intros Heq; apply extend_inj in Heq; subst evs';
      (assert (In (SetTimeout ms) (timeouts evs)) as Ht
         by (apply List.filter_In; split; [exact Hin | reflexivity]));
      rewrite List.Forall_forall in Hall; apply Hall in Ht; congruence. }
  unfold or_default in Hms.
  destruct (EmailBulkRequest.delayBetweenBatches request) as [d |];
    [| exact Hms].
  destruct (d =? 0); exact Hms.
Qed.

(** C7 fails on the code for a delay of [0]: such a request runs exactly as
    one without [delayBetweenBatches], and the two batches of
    [two_without_delay] are 1000 milliseconds apart, not 0. *)
Theorem sendBulkEmails_zero_delay_is_default (env : Env) (fuel : nat)
    (emails : list EmailSendRequest.t) (batchSize : option Z) (w : World) :
  EmailController_sendBulkEmails env fuel
    {| EmailBulkRequest.emails := emails;
       EmailBulkRequest.batchSize := batchSize;
       EmailBulkRequest.delayBetweenBatches := Some 0 |} w
  = EmailController_sendBulkEmails env fuel
      {| EmailBulkRequest.emails := emails;
         EmailBulkRequest.batchSize := batchSize;
         EmailBulkRequest.delayBetweenBatches := None |} w
  /\
  timeouts
    (trace (snd (EmailController_sendBulkEmails sample_env 2
                   two_without_delay sample_world)))
  = [SetTimeout 1000].
Proof. split; reflexivity. Qed.

(** ** The single send and the connection check *)

(** C4. A send whose template is not known resolves with [success: false]
    and a non-empty [error], leaves the trace as it was, so the transport is
    not called, and does not reject. On every path, failing or not,
    [sendEmail] resolves with an outcome and never rejects; a failed outcome
    carries an [error] and no [messageId]. The controller's [sendEmail]
    behaves as the service's. *)
Theorem sendEmail_failures_are_outcomes (env : Env) (data : EmailData.t)
    (w : World) :
  (JsMap.get (templates (service w)) (EmailData.template data) = None ->
   let detail := "Template '" +:+ EmailData.template data +:+ "' not found" in
   EmailService_sendEmail env data w
     = (Normal (Fulfilled {| EmailResult.success := false;
                             EmailResult.messageId := None;
                             EmailResult.error := Some detail |}), w) /\
   detail <> "") /\
  (exists r evs,
      EmailService_sendEmail env data w = (Normal (Fulfilled r), extend w evs) /\
      (EmailResult.success r = false ->
       exists detail,
         EmailResult.error r = Some detail /\ EmailResult.messageId r = None)) /\
  (forall request,
      data = data_of request ->
      EmailController_sendEmail env request w
        = EmailService_sendEmail env data w).
Proof.
  split; [| split].
  - intros Hunknown detail. rewrite EmailService_sendEmail_cases, Hunknown.
    split; [reflexivity | discriminate].
  - rewrite EmailService_sendEmail_cases.
    destruct (JsMap.get _ _) as [template |].
    + destruct (template _) as [html | e].
      * eexists _, [_]. split; [reflexivity |].
        destruct (transporter_sendMail _ _ _) as [info | e]; simpl;
          [discriminate | eauto].
      * exists (failure e), []. rewrite extend_nil. simpl. eauto.
    + eexists (failure _), []. rewrite extend_nil. simpl. eauto.
  - intros request ->. apply EmailController_sendEmail_service.
Qed.

Lemma sendEmail_failures_are_outcomes_sample :
  EmailService_sendEmail sample_env (data_of (letter "second" "missing"))
    sample_world
  = (Normal (Fulfilled {| EmailResult.success := false;
                          EmailResult.messageId := None;
                          EmailResult.error :=
                            Some "Template 'missing' not found" |}),
     sample_world).
Proof.
  exact (proj1 (proj1 (sendEmail_failures_are_outcomes sample_env
                         (data_of (letter "second" "missing")) sample_world)
                  eq_refl)).
Defined.

(** What the connection check does, in the service and in the controller. *)
Lemma verifyConnection_run (env : Env) (w : World) :
  let answer :=
    match transporter_verify env (trace w) with
    | Returns _ => true
    | Throws _ => false
    end in
  EmailService_verifyConnection env w
    = (Normal (Fulfilled answer), extend w [Verify]) /\
  EmailController_verifyConnection env w
    = (Normal (Fulfilled answer), extend w [Verify]).
Proof.
  unfold EmailController_verifyConnection, EmailService_verifyConnection,
    async, try_catch, bind, history, emit, await, settled, ret, extend.
  simpl. destruct (transporter_verify env (trace w)); split; reflexivity.
Qed.

(** C9. [verifyConnection] resolves with a boolean, in the service and in
    the controller alike: [true] when the transport's [verify] succeeds,
    [false] when it throws; it never rejects. The only event is the
    verification itself and the tables of the service are left alone. *)
Theorem verifyConnection_boolean (env : Env) (w : World) :
  let answer :=
    match transporter_verify env (trace w) with
    | Returns _ => true
    | Throws _ => false
    end in
  EmailService_verifyConnection env w
    = (Normal (Fulfilled answer), extend w [Verify]) /\
  EmailController_verifyConnection env w
    = (Normal (Fulfilled answer), extend w [Verify]).
Proof.
  intros answer. subst answer.
  unfold EmailController_verifyConnection, EmailService_verifyConnection,
    async, try_catch, bind, history, emit, await, settled, ret, extend.
  cbn [fst snd service trace].
  destruct (transporter_verify env (trace w)) as [[] | e]; split; reflexivity.
Qed.

(** ** The template tables *)

Lemma get_map_values {A B : Type} (f : A -> B) (m : JsMap.t A) (k : string) :
  JsMap.get (map_values f m) k = f <$> JsMap.get m k.
Proof.
  induction m as [| [k' v] m IH]; simpl; [reflexivity |].
  now destruct (bool_decide (k' = k)).
Qed.

Lemma set_map_values {A B : Type} (f : A -> B) (m : JsMap.t A) (k : string)
    (v : A) :
  JsMap.set (map_values f m) k (f v) = map_values f (JsMap.set m k v).
Proof.
  induction m as [| [k' v'] m IH]; simpl; [reflexivity |].
  destruct (bool_decide (k' = k)); simpl; [reflexivity |].
  now rewrite IH.
Qed.

Lemma keys_map_values {A B : Type} (f : A -> B) (m : JsMap.t A) :
  JsMap.keys (map_values f m) = JsMap.keys m.
Proof.
  unfold JsMap.keys, map_values. rewrite List.map_map. reflexivity.
Qed.

Lemma keys_get {A : Type} (m : JsMap.t A) (k : string) :
  In k (JsMap.keys m) <-> exists v, JsMap.get m k = Some v.
Proof.
  induction m as [| [k' v'] m IH]; simpl.
  - split; [intros [] | intros [v Hv]; discriminate].
  - destruct (bool_decide_reflect (k' = k)) as [-> | Hne].
    + split; [eauto | auto].
    + rewrite <- IH. split; [intros [? | ?]; [contradiction | assumption] | auto].
Qed.

Section Tables.
Variable env : Env.

(** Loading one file keeps the tables in step, also when reading throws. *)
Lemma loadTemplate_agree (templatesDir file : string) (w : World) :
  tables_agree env (service w) ->
  tables_agree env (service (snd (loadTemplate env templatesDir file w))).
Proof.
  intros Hagree. unfold loadTemplate.
  destruct (endsWith file ".hbs"); [| exact Hagree].
  destruct (readFileSync env _) as [templateContent | e]; [| exact Hagree].
  unfold tables_agree in *; simpl. rewrite Hagree. apply set_map_values.
Qed.

Lemma forEach_loadTemplate_agree (templatesDir : string)
    (files : list string) :
  forall w : World,
    tables_agree env (service w) ->
    tables_agree env
      (service (snd (forEach (loadTemplate env templatesDir) files w))).
Proof.
  induction files as [| file rest IH]; intros w Hagree; [exact Hagree |].
  cbn [forEach]. unfold bind.
  pose proof (loadTemplate_agree templatesDir file w Hagree) as Hstep.
  destruct (loadTemplate env templatesDir file w) as [[[] | e | |] w1];
    simpl in *; auto.
Qed.

(** The invariant holds once the service is constructed. *)
Lemma new_EmailService_agree : tables_agree env (service (new_EmailService env)).
Proof.
  unfold new_EmailService, loadTemplates, try_catch, bind, call.
  set (w0 := {| service := _; trace := [] |}).
  assert (tables_agree env (service w0)) as H0 by reflexivity.
  destruct (readdirSync env _) as [templateFiles | e]; [| exact H0].
  unfold ret at 1.
  pose proof (forEach_loadTemplate_agree
                (path_join (path_join (path_join (cwd env) "src") "templates")
                           "emails") templateFiles w0 H0) as Hloaded.
  destruct (forEach _ templateFiles w0) as [[[] | e | |] w1];
    simpl in *; exact Hloaded.
Qed.

Lemma EmailService_sendEmail_service (data : EmailData.t) (w : World) :
  service (snd (EmailService_sendEmail env data w)) = service w.
Proof.
  rewrite EmailService_sendEmail_cases.
  destruct (JsMap.get _ _) as [template |]; [| reflexivity].
  destruct (template _); reflexivity.
Qed.

Lemma async_await_service {A : Type} (m : M (Promise A)) (w : World) :
  service (snd (async (let* sending := m in await sending) w))
  = service (snd (m w)).
Proof.
  unfold async, bind, await.
  destruct (m w) as [[[| a | e] | e | |] w1]; reflexivity.
Qed.

(** No operation writes to the tables. *)
Lemma perform_service (op : Operation) (w : World) :
  service (perform env op w) = service w.
Proof.
  destruct op; simpl.
  - apply EmailService_sendEmail_service.
  - unfold EmailService_sendWelcomeEmail.
    rewrite async_await_service. apply EmailService_sendEmail_service.
  - unfold EmailService_sendPasswordResetEmail, async, bind, history, await.
    match goal with
    | |- context [EmailService_sendEmail env ?d w] =>
        pose proof (EmailService_sendEmail_service d w) as Hs;
        destruct (EmailService_sendEmail env d w) as [[[| a | e] | e | |] w1]
    end; exact Hs.
  - unfold EmailService_sendNotificationEmail, async, bind, history, await.
    match goal with
    | |- context [EmailService_sendEmail env ?d w] =>
        pose proof (EmailService_sendEmail_service d w) as Hs;
        destruct (EmailService_sendEmail env d w) as [[[| a | e] | e | |] w1]
    end; exact Hs.
  - unfold EmailService_sendCustomEmail, async, try_catch, bind, sendMail,
      history, emit, await, settled, ret. simpl.
    destruct (transporter_sendMail env _ _); reflexivity.
  - now destruct (verifyConnection_run env w) as [-> _].
  - reflexivity.
  - reflexivity.
  - rewrite EmailController_sendEmail_service.
    apply EmailService_sendEmail_service.
  - unfold EmailController_sendBulkEmails, async.
    rewrite try_catch_rethrow. unfold bind.
    destruct (bulk_loop_events env (EmailBulkRequest.emails request)
                (or_default (EmailBulkRequest.batchSize request) 10)
                (or_default (EmailBulkRequest.delayBetweenBatches request) 1000)
                fuel 0 {| results := []; successful := 0; failed := 0 |} w)
      as (evs & Hw & _).
    destruct (bulk_loop _ _ _ _ _ _ _ _) as [[acc | e | |] w1];
      simpl in *; now subst w1.
  - now destruct (verifyConnection_run env w) as [_ ->].
Qed.

Lemma after_service (ops : list Operation) :
  service (after env ops) = service (new_EmailService env).
Proof.
  unfold after. generalize (new_EmailService env).
  induction ops as [| op ops IH]; intros w; simpl; [reflexivity |].
  now rewrite IH, perform_service.
Qed.

End Tables.

(** C10. After construction and after any sequence of operations the two
    tables of the service hold the same names, in the same order: a name is
    listed by [getAvailableTemplates] exactly when [getTemplateContent]
    returns content for it; for a listed name [sendEmail] applies the
    compiled form of that very content, for any other name it fails with
    "not found". No operation changes either table. *)
Theorem template_tables_in_step (env : Env) (ops : list Operation)
    (name : string) :
  let w := after env ops in
  exists names,
    EmailService_getAvailableTemplates w = (Normal names, w) /\
    names = JsMap.keys (templateCache (service w)) /\
    (In name names <->
     exists content,
       EmailService_getTemplateContent name w = (Normal (Some content), w)) /\
    (forall content,
        EmailService_getTemplateContent name w
          = (Normal (Some content), w) ->
        forall data,
          EmailData.template data = name ->
          EmailService_sendEmail env data w
          = match Handlebars_compile env content (EmailData.context data) with
            | Throws e => (Normal (Fulfilled (failure e)), w)
            | Returns html =>
                (Normal (Fulfilled
                           (delivered (transporter_sendMail env (trace w)
                                         (composed env data html)))),
                 extend w [SendMail (composed env data html)])
            end) /\
    (~ In name names ->
     forall data,
       EmailData.template data = name ->
       EmailService_sendEmail env data w
         = (Normal (Fulfilled (failure (not_found name))), w)) /\
    (forall op, service (perform env op w) = service w).
Proof.
  intros w.
  assert (tables_agree env (service w)) as Hagree.
  { subst w. rewrite after_service. apply new_EmailService_agree. }
  exists (JsMap.keys (templates (service w))).
  unfold tables_agree in Hagree.
  split; [reflexivity |]. split; [| split; [| split; [| split]]].
  - rewrite Hagree. apply keys_map_values.
  - rewrite Hagree, keys_map_values, keys_get.
    unfold EmailService_getTemplateContent, bind, this, ret.
    split; intros [content Hc]; exists content; congruence.
  - intros content Hcontent data <-.
    unfold EmailService_getTemplateContent, bind, this, ret in Hcontent.
    injection Hcontent as Hcontent.
    rewrite EmailService_sendEmail_cases, Hagree, get_map_values, Hcontent.
    reflexivity.
  - intros Hnot data <-.
    rewrite EmailService_sendEmail_cases.
    destruct (JsMap.get (templates (service w)) (EmailData.template data))
      as [template |] eqn:Hget; [| reflexivity].
    exfalso. apply Hnot. apply keys_get. eauto.
  - intros op. apply perform_service.
Qed.

Lemma template_tables_in_step_sample :
  let w :=
    after sample_env
      [ServiceSendEmail (data_of (letter "first" "welcome"));
       ControllerSendBulkEmails 2 sample_bulk;
       ServiceVerifyConnection] in
  EmailService_getAvailableTemplates w
    = (Normal ["welcome"; "notification"], w) /\
  EmailService_getTemplateContent "welcome" w
    = (Normal (Some "<!-- /app/src/templates/emails/welcome.hbs -->"), w) /\
  EmailService_sendEmail sample_env (data_of (letter "second" "missing")) w
    = (Normal (Fulfilled (failure (not_found "missing"))), w).
Proof.
  intros w.
  destruct (template_tables_in_step sample_env
              [ServiceSendEmail (data_of (letter "first" "welcome"));
               ControllerSendBulkEmails 2 sample_bulk;
               ServiceVerifyConnection] "missing")
    as (names & Hlist & Hnames & _ & _ & Hunknown & _).
  fold w in Hlist, Hnames, Hunknown.
  split; [| split].
  - rewrite Hlist, Hnames. reflexivity.
  - reflexivity.
  - apply Hunknown; [| reflexivity].
    rewrite Hnames. vm_compute. intuition discriminate.
Defined.

(** ** Loading the templates *)

Section Loading.
Variable env : Env.


(** A directory entry that does not end in [.hbs] is skipped without being
    read. *)
Lemma forEach_loadTemplate_filter (dir : string) (files : list string) :
  forall w : World,
    forEach (loadTemplate env dir) files w
    = forEach (loadTemplate env dir)
        (List.filter (fun file => endsWith file ".hbs") files) w.
Proof.
  induction files as [| file rest IH]; intros w; [reflexivity |].
  cbn [List.filter forEach].
  destruct (endsWith file ".hbs") eqn:Hhbs.
  - cbn [forEach]. unfold bind.
    destruct (loadTemplate env dir file w) as [[[] | e | |] w1];
      try reflexivity. apply IH.
  - unfold bind, loadTemplate. rewrite Hhbs. apply IH.
Qed.

Lemma new_EmailService_files (files : list string) :
  new_EmailService (with_files env files)
  = snd (forEach (loadTemplate env (templates_directory env)) files
           {| service := {| templates := JsMap.empty;
                            templateCache := JsMap.empty |};
              trace := [] |}).
Proof.
  unfold new_EmailService, loadTemplates, try_catch, bind, call, ret.
  cbn [readdirSync with_files cwd].
  fold (templates_directory env).
  change (loadTemplate (with_files env files))
    with (loadTemplate env).
  destruct (forEach _ files _) as [[[] | e | |] w1]; reflexivity.
Qed.

End Loading.

(** X1. Only the entries of the templates directory that end in [.hbs]
    matter: the service built from a listing is the service built from its
    [.hbs] entries. *)
Theorem loadTemplates_hbs_only (env : Env) (files : list string) :
  new_EmailService (with_files env files)
  = new_EmailService
      (with_files env (List.filter (fun file => endsWith file ".hbs") files)).
Proof.
  rewrite !new_EmailService_files.
  now rewrite forEach_loadTemplate_filter.
Qed.



(** ** The convenience sends and the template test *)

Section Wrappers.
Variable env : Env.

Lemma EmailService_sendEmail_run (data : EmailData.t) (w : World) :
  exists r evs,
    EmailService_sendEmail env data w = (Normal (Fulfilled r), extend w evs) /\
    (length evs <= 1)%nat.
Proof.
  rewrite EmailService_sendEmail_cases.
  destruct (JsMap.get _ _) as [template |].
  - destruct (template _) as [html | e].
    + eexists _, [_]. split; [reflexivity | simpl; lia].
    + exists (failure e), []. rewrite extend_nil. split; [reflexivity | simpl; lia].
  - eexists _, []. rewrite extend_nil. split; [reflexivity | simpl; lia].
Qed.

(** An [async] function that returns the promise of a send settles as the
    send does. *)
Lemma async_await_send (data : EmailData.t) (w : World) :
  async (let* sending := EmailService_sendEmail env data in await sending) w
  = EmailService_sendEmail env data w.
Proof.
  destruct (EmailService_sendEmail_run data w) as (r & evs & Hrun & _).
  unfold async, bind, await. now rewrite Hrun.
Qed.

(** The [try]/[catch] of the controller around a call that resolves. *)
Lemma controller_passes_on {A : Type} (m : M (Promise A)) (w w' : World)
    (a : A) :
  m w = (Normal (Fulfilled a), w') ->
  async
    (try_catch
       (let* sending := m in let* result := await sending in ret result)
       (fun error => handleError error)) w
  = (Normal (Fulfilled a), w').
Proof.
  intros Hrun. unfold async, try_catch, bind, await, ret. now rewrite Hrun.
Qed.

Lemma EmailService_sendWelcomeEmail_data
    (email firstName lastName username role : string)
    (department : option string) (dashboardUrl : string) (w : World) :
  EmailService_sendWelcomeEmail env email firstName lastName username role
                                department dashboardUrl w
  = EmailService_sendEmail env
      (welcome_data email firstName lastName username role department
                    dashboardUrl) w.
Proof. unfold EmailService_sendWelcomeEmail. apply async_await_send. Qed.

End Wrappers.

(** X3. The controller's [sendWelcomeEmail] resolves with what the service's
    [sendEmail] resolves with for the template ["welcome"], the user's
    address and a context in which a missing or empty department reads
    ["Not specified"]; it never rejects and asks at most one message of the
    transport. *)
Theorem sendWelcomeEmail_is_one_send (env : Env)
    (email firstName lastName username role : string)
    (department : option string) (dashboardUrl : string) (w : World) :
  let data :=
    welcome_data email firstName lastName username role department
                 dashboardUrl in
  EmailController_sendWelcomeEmail env email firstName lastName username role
                                   department dashboardUrl w
    = EmailService_sendEmail env data w /\
  (exists r evs,
      EmailController_sendWelcomeEmail env email firstName lastName username
                                       role department dashboardUrl w
        = (Normal (Fulfilled r), extend w evs) /\
      (length evs <= 1)%nat) /\
  In ("department",
      VString match department with
              | Some "" | None => "Not specified"
              | Some given => given
              end)
     (EmailData.context data).
Proof.
  intros data.
  destruct (EmailService_sendEmail_run env data w) as (r & evs & Hrun & Hone).
  assert (EmailController_sendWelcomeEmail env email firstName lastName
            username role department dashboardUrl w
          = EmailService_sendEmail env data w) as Hsame.
  { unfold EmailController_sendWelcomeEmail.
    rewrite Hrun. apply controller_passes_on.
    now rewrite EmailService_sendWelcomeEmail_data. }
  split; [exact Hsame |]. split.
  - exists r, evs. now rewrite Hsame.
  - simpl. do 4 right. left. do 2 f_equal.
    destruct department as [[| c rest] |]; reflexivity.
Qed.



(** X5. [testTemplate] never rejects and never touches the transport. When
    it succeeds, the html it shows is the html [sendEmail] hands to the
    transport for the same template and context; when it fails on a
    template with content, [sendEmail] fails with the same error and sends
    nothing. *)
Theorem testTemplate_previews_sendEmail (env : Env) (ops : list Operation)
    (data : EmailData.t) :
  let w := after env ops in
  exists t,
    EmailController_testTemplate env (EmailData.template data)
                                 (EmailData.context data) w
      = (Normal (Fulfilled t), w) /\
    (forall html,
        test_html t = Some html ->
        test_success t = true /\
        snd (EmailService_sendEmail env data w)
          = extend w [SendMail (composed env data html)]) /\
    (forall content,
        EmailService_getTemplateContent (EmailData.template data) w
          = (Normal (Some content), w) ->
        content <> "" ->
        test_success t = false ->
        EmailService_sendEmail env data w
          = (Normal (Fulfilled {| EmailResult.success := false;
                                  EmailResult.messageId := None;
                                  EmailResult.error := test_error t |}), w)).
Proof.
  intros w.
  assert (tables_agree env (service w)) as Hagree.
  { subst w. rewrite after_service. apply new_EmailService_agree. }
  unfold tables_agree in Hagree.
  unfold EmailController_testTemplate, EmailService_getTemplateContent,
    async, try_catch, bind, this, ret, call.
  rewrite EmailService_sendEmail_cases, Hagree, get_map_values.
  destruct (JsMap.get (templateCache (service w)) (EmailData.template data))
    as [content |] eqn:Hcontent; cbn [fmap option_fmap option_map].
  - destruct content as [| c rest]; cbn [truthy_string].
    + eexists. split; [reflexivity |]. split.
      * intros html Hhtml. discriminate Hhtml.
      * intros content Hc Hne. injection Hc as <-. contradiction.
    + destruct (Handlebars_compile env (String c rest)
                  (EmailData.context data)) as [html | e]; cbn [throw ret].
      * eexists. split; [reflexivity |]. split.
        -- intros html' Hhtml. injection Hhtml as <-. split; reflexivity.
        -- intros content _ _ Hfalse. discriminate Hfalse.
      * eexists. split; [reflexivity |]. split.
        -- intros html Hhtml. discriminate Hhtml.
        -- intros content _ _ _. reflexivity.
  - eexists. split; [reflexivity |]. split.
    + intros html Hhtml. discriminate Hhtml.
    + intros content Hc. discriminate Hc.
Qed.

Lemma testTemplate_previews_sendEmail_sample :
  let data := data_of (letter "first" "welcome") in
  EmailController_testTemplate sample_env "welcome" (EmailData.context data)
                               sample_world
    = (Normal (Fulfilled
                 {| test_success := true;
                    test_html :=
                      Some "<!-- /app/src/templates/emails/welcome.hbs -->";
                    test_error := None |}), sample_world) /\
  snd (EmailService_sendEmail sample_env data sample_world)
    = extend sample_world
        [SendMail (composed sample_env data
                     "<!-- /app/src/templates/emails/welcome.hbs -->")].
Proof.
  intros data. split; [reflexivity |].
  destruct (testTemplate_previews_sendEmail sample_env [] data)
    as (t & Hrun & Hhtml & _).
  injection Hrun as <-.
  exact (proj2 (Hhtml _ eq_refl)).
Defined.

(** X6. A template file that is empty is listed by [getAvailableTemplates]
    and is rendered by [sendEmail], yet [testTemplate] reports it as not
    found. *)
Theorem testTemplate_misses_empty_template (env : Env)
    (ops : list Operation) (data : EmailData.t) :
  let w := after env ops in
  let name := EmailData.template data in
  EmailService_getTemplateContent name w = (Normal (Some ""), w) ->
  (exists names,
      EmailService_getAvailableTemplates w = (Normal names, w) /\
      In name names) /\
  EmailController_testTemplate env name (EmailData.context data) w
    = (Normal (Fulfilled
                 {| test_success := false;
                    test_html := None;
                    test_error :=
                      Some ("Template '" +:+ name +:+ "' not found") |}), w) /\
  EmailService_sendEmail env data w
    = match Handlebars_compile env "" (EmailData.context data) with
      | Throws e => (Normal (Fulfilled (failure e)), w)
      | Returns html =>
          (Normal (Fulfilled
                     (delivered (transporter_sendMail env (trace w)
                                   (composed env data html)))),
           extend w [SendMail (composed env data html)])
      end.
Proof.
  intros w name Hcontent.
  assert (tables_agree env (service w)) as Hagree.
  { subst w. rewrite after_service. apply new_EmailService_agree. }
  unfold tables_agree in Hagree.
  unfold EmailService_getTemplateContent, bind, this, ret in Hcontent.
  injection Hcontent as Hcontent.
  split; [| split].
  - eexists. split; [reflexivity |].
    rewrite Hagree, keys_map_values. apply keys_get. eauto.
  - unfold EmailController_testTemplate, EmailService_getTemplateContent,
      async, try_catch, bind, this, ret.
    now rewrite Hcontent.
  - rewrite EmailService_sendEmail_cases, Hagree, get_map_values.
    fold name. now rewrite Hcontent.
Qed.

Lemma testTemplate_misses_empty_template_sample :
  let data := data_of (letter "hello" "welcome") in
  let w := after blank_env [] in
  EmailService_getAvailableTemplates w = (Normal ["welcome"], w) /\
  fst (EmailController_testTemplate blank_env "welcome"
         (EmailData.context data) w)
    = Normal (Fulfilled
                {| test_success := false;
                   test_html := None;
                   test_error := Some "Template 'welcome' not found" |}) /\
  fst (EmailService_sendEmail blank_env data w)
    = Normal (Fulfilled
                {| EmailResult.success := true;
                   EmailResult.messageId := Some "<hello>";
                   EmailResult.error := None |}).
Proof.
  intros data w.
  destruct (testTemplate_misses_empty_template blank_env [] data eq_refl)
    as (_ & Htest & Hsend).
  split; [reflexivity |]. split.
  - fold w in Htest. cbn [EmailData.template data data_of letter
      EmailSendRequest.template] in Htest. now rewrite Htest.
  - fold w in Hsend. now rewrite Hsend.
Defined.

(** ** More on [sendBulkEmails] *)

Lemma fold_count_successful (rs : list EmailResult.t) :
  forall acc : Tally,
    successful (fold_left count rs acc) = (successful acc + successes rs)%nat /\
    failed (fold_left count rs acc) = (failed acc + failures rs)%nat.
Proof.
  unfold successes, failures.
  induction rs as [| r rs IH]; intros acc; simpl; [lia |].
  destruct (IH (count acc r)) as [-> ->]. simpl.
  destruct (EmailResult.success r); simpl; lia.
Qed.

Lemma sends_of_app (a b : list Event) :
  sends_of (a ++ b) = sends_of a ++ sends_of b.
Proof. unfold sends_of. apply List.filter_app. Qed.

Lemma sends_of_sends (evs : list Event) :
  Forall (fun ev => is_send ev = true) evs -> sends_of evs = evs.
Proof.
  induction 1 as [| ev evs Hev _ IH]; [reflexivity |].
  unfold sends_of in *. simpl. now rewrite Hev, IH.
Qed.

Section BulkTrace.
Variable env : Env.

(** A send leaves behind the events [send_events] names; a successful
    outcome comes with a transport call. *)
Lemma EmailController_sendEmail_events (request : EmailSendRequest.t)
    (w : World) :
  exists r,
    EmailController_sendEmail env request w
      = (Normal (Fulfilled r),
         extend w (send_events env (service w) request)) /\
    (EmailResult.success r = true ->
     length (send_events env (service w) request) = 1%nat) /\
    (JsMap.get (templates (service w)) (EmailSendRequest.template request)
       = None ->
     r = failure (not_found (EmailSendRequest.template request))).
Proof.
  rewrite EmailController_sendEmail_service, EmailService_sendEmail_cases.
  unfold send_events. cbn [data_of EmailData.template EmailData.context].
  destruct (JsMap.get _ _) as [template |].
  - destruct (template _) as [html | e].
    + eexists. split; [reflexivity |]. split; [reflexivity | discriminate].
    + eexists. rewrite extend_nil. split; [reflexivity |].
      split; discriminate.
  - eexists. rewrite extend_nil. split; [reflexivity |].
    split; [discriminate | reflexivity].
Qed.

Lemma send_batch_events (batch : list EmailSendRequest.t) (acc : Tally)
    (w : World) :
  snd (send_batch env batch acc w)
  = extend w (flat_map (send_events env (service w)) batch).
Proof.
  assert (forall w0,
             snd (Array_map (EmailController_sendEmail env) batch w0)
             = extend w0 (flat_map (send_events env (service w0)) batch))
    as Hmap.
  { induction batch as [| request rest IH]; intros w0.
    - simpl. now rewrite extend_nil.
    - destruct (EmailController_sendEmail_events request w0) as (r & Hr & _).
      cbn [Array_map flat_map]. rewrite (bind_run _ _ _ _ _ Hr).
      destruct (Array_map_sendEmail env rest
                  (extend w0 (send_events env (service w0) request)))
        as (rs & evs & Hrs & _).
      specialize (IH (extend w0 (send_events env (service w0) request))).
      rewrite Hrs in IH. simpl in IH.
      rewrite (bind_run _ _ _ _ _ Hrs). unfold ret. simpl.
      rewrite IH. now rewrite extend_extend. }
  destruct (Array_map_sendEmail env batch w) as (rs & evs & Hrs & _).
  specialize (Hmap w). rewrite Hrs in Hmap. simpl in Hmap.
  unfold send_batch. rewrite (bind_run _ _ _ _ _ Hrs).
  unfold await_all, bind, history, await, ret.
  now rewrite Promise_all_fulfilled.
Qed.

Lemma sends_of_pause (emails : list EmailSendRequest.t)
    (batchSize delay i : Z) :
  sends_of (pause_events emails batchSize delay i) = [].
Proof. unfold pause_events. now destruct (_ <? _). Qed.

(** The transport calls of a loop that returns are those of the remaining
    sends, one after the other. *)
Lemma bulk_loop_sends (emails : list EmailSendRequest.t)
    (batchSize delay : Z) (fuel : nat) :
  0 < batchSize ->
  forall (i : Z) (acc acc' : Tally) (w w' : World),
    0 <= i ->
    bulk_loop env fuel emails batchSize delay i acc w = (Normal acc', w') ->
    exists evs,
      w' = extend w evs /\
      sends_of evs
      = flat_map (send_events env (service w)) (drop (Z.to_nat i) emails).
Proof.
  intros Hpos.
  induction fuel as [| fuel IH]; intros i acc acc' w w' Hi0 Hrun;
    destruct (Z_lt_ge_dec i (Z.of_nat (length emails))) as [Hi | Hi].
  - rewrite bulk_loop_out_of_fuel in Hrun by exact Hi. discriminate.
  - rewrite bulk_loop_done in Hrun by lia. injection Hrun as <- <-.
    exists []. rewrite extend_nil, drop_ge by lia. split; reflexivity.
  - destruct (bulk_loop_step env emails batchSize delay fuel i acc w Hi)
      as (rs1 & e1 & Hbatch & _ & Hsends & Hstep).
    rewrite Hstep in Hrun.
    apply IH in Hrun; [| lia].
    destruct Hrun as (e2 & -> & He2).
    pose proof (send_batch_events (slice emails i (i + batchSize)) acc w)
      as He1.
    rewrite Hbatch in He1. simpl in He1. apply extend_inj in He1.
    exists ((e1 ++ pause_events emails batchSize delay i) ++ e2).
    rewrite extend_extend. split; [reflexivity |].
    rewrite !sends_of_app, sends_of_pause, (sends_of_sends _ Hsends), He2.
    rewrite app_nil_r. cbn [service extend].
    rewrite He1, slice_window by lia.
    replace (Z.to_nat (i + batchSize))
      with (Z.to_nat i + Z.to_nat batchSize)%nat by lia.
    rewrite <- drop_drop, <- flat_map_app. now rewrite take_drop.
  - rewrite bulk_loop_done in Hrun by lia. injection Hrun as <- <-.
    exists []. rewrite extend_nil, drop_ge by lia. split; reflexivity.
Qed.

(** What a call that resolves leaves behind, with the tally and the
    transport calls spelled out. *)
Lemma sendBulkEmails_resolved_trace (fuel : nat)
    (request : EmailBulkRequest.t) (w w' : World) (summary : BulkSummary.t) :
  EmailController_sendBulkEmails env fuel request w
    = (Normal (Fulfilled summary), w') ->
  exists evs,
    w' = extend w evs /\
    sends_of evs
      = flat_map (send_events env (service w))
                 (EmailBulkRequest.emails request) /\
    Forall2 (produced_during env w evs) (EmailBulkRequest.emails request)
            (BulkSummary.results summary) /\
    BulkSummary.successful summary = successes (BulkSummary.results summary) /\
    BulkSummary.failed summary = failures (BulkSummary.results summary).
Proof.
  unfold EmailController_sendBulkEmails, async. rewrite try_catch_rethrow.
  set (batchSize := or_default (EmailBulkRequest.batchSize request) 10).
  set (delay := or_default (EmailBulkRequest.delayBetweenBatches request) 1000).
  set (acc0 := {| results := []; successful := 0; failed := 0 |}).
  set (emails := EmailBulkRequest.emails request).
  unfold bind.
  destruct (bulk_loop env fuel emails batchSize delay 0 acc0 w)
    as [[acc | e | |] w1] eqn:Hloop; try discriminate.
  unfold ret. intros H. injection H as <- <-. cbn [BulkSummary.results
    BulkSummary.successful BulkSummary.failed].
  destruct (Z.lt_trichotomy batchSize 0) as [Hneg | [Hzero | Hpos]].
  - destruct emails as [| request0 rest] eqn:Hemails.
    + rewrite bulk_loop_done in Hloop by (simpl; lia).
      injection Hloop as <- <-.
      exists []. rewrite extend_nil. repeat split. constructor.
    + pose proof (bulk_loop_negative env (request0 :: rest) batchSize delay
                    fuel Hneg 0 acc0 w) as Hstuck.
      rewrite Hloop in Hstuck. simpl in Hstuck.
      discriminate Hstuck; simpl; lia.
  - exfalso. revert Hzero. apply or_default_nonzero. lia.
  - destruct (bulk_loop_sends emails batchSize delay fuel Hpos 0 _ _ _ _
                ltac:(lia) Hloop) as (evs & Hw & Hsends).
    destruct (bulk_loop_returns env emails batchSize delay fuel Hpos 0 _ _ _ _
                ltac:(lia) Hloop) as (rs & evs' & Hw' & -> & Hprod).
    rewrite Hw in Hw'. apply extend_inj in Hw'. subst evs'.
    exists evs. rewrite fold_count_results.
    destruct (fold_count_successful rs acc0) as [-> ->].
    repeat split; assumption.
Qed.

End BulkTrace.

(** X7. In the summary of a call that returns, [successful] is the number
    of results with [success: true] and [failed] the number of the others:
    the two counters agree with the list they come with. *)
Theorem sendBulkEmails_tally_matches_results (env : Env) (fuel : nat)
    (request : EmailBulkRequest.t) (w w' : World) (summary : BulkSummary.t) :
  EmailController_sendBulkEmails env fuel request w
    = (Normal (Fulfilled summary), w') ->
  BulkSummary.successful summary
    = length (List.filter EmailResult.success (BulkSummary.results summary)) /\
  BulkSummary.failed summary
    = length (List.filter (fun r => negb (EmailResult.success r))
                          (BulkSummary.results summary)).
Proof.
  intros Hrun.
  apply sendBulkEmails_resolved_trace in Hrun
    as (evs & _ & _ & _ & Hs & Hf).
  split; assumption.
Qed.

Lemma sendBulkEmails_tally_matches_results_sample :
  exists summary w',
    EmailController_sendBulkEmails sample_env 2 sample_bulk sample_world
      = (Normal (Fulfilled summary), w') /\
    map EmailResult.success (BulkSummary.results summary)
      = [true; false; true] /\
    BulkSummary.successful summary = 2%nat /\
    BulkSummary.failed summary = 1%nat.
Proof.
  eexists _, _. split; [reflexivity |]. split; [reflexivity |].
  apply (sendBulkEmails_tally_matches_results sample_env 2 sample_bulk
           sample_world _ _ eq_refl).
Defined.

(** X8. In a call that returns, the transport is asked exactly the messages
    of the sends whose template is known and renders, once each and in the
    order of the sends, whatever the batch size; so there are never more
    transport calls than sends, and never fewer than successes. *)
Theorem sendBulkEmails_transport_calls (env : Env) (fuel : nat)
    (request : EmailBulkRequest.t) (w w' : World) (summary : BulkSummary.t) :
  EmailController_sendBulkEmails env fuel request w
    = (Normal (Fulfilled summary), w') ->
  exists evs,
    w' = extend w evs /\
    sends_of evs
      = flat_map (send_events env (service w))
                 (EmailBulkRequest.emails request) /\
    (BulkSummary.successful summary <= length (sends_of evs)
     <= BulkSummary.total summary)%nat.
Proof.
  intros Hrun.
  pose proof (sendBulkEmails_resolved env fuel request w w' summary Hrun)
    as (rs & _ & _ & _ & _ & Htotal & _).
  apply sendBulkEmails_resolved_trace in Hrun
    as (evs & -> & Hsends & Hprod & Hs & _).
  exists evs. split; [reflexivity |]. split; [exact Hsends |].
  rewrite Hsends, Hs, Htotal. clear Hsends Hs Htotal.
  induction Hprod as [| send r sends rs' Hone _ IH];
    cbn [flat_map successes List.filter length]; [lia |].
  rewrite length_app.
  destruct Hone as (before & after_it & _ & Hr).
  destruct (EmailController_sendEmail_events env send (extend w before))
    as (r' & Hrun' & Hsuccess & _).
  rewrite Hrun' in Hr. injection Hr as ->.
  cbn [service extend] in Hsuccess.
  assert (length (send_events env (service w) send) <= 1)%nat as Hle.
  { unfold send_events. destruct (JsMap.get _ _) as [template |]; [| simpl; lia].
    destruct (template _); simpl; lia. }
  unfold successes in *. cbn [List.filter].
  destruct (EmailResult.success r) eqn:Hok; cbn [length].
  - rewrite (Hsuccess eq_refl). lia.
  - lia.
Qed.

Lemma sendBulkEmails_transport_calls_sample :
  exists summary evs,
    EmailController_sendBulkEmails sample_env 2 sample_bulk sample_world
      = (Normal (Fulfilled summary), extend sample_world evs) /\
    map (fun ev => match ev with
                   | SendMail m => MailOptions.subject m
                   | _ => ""
                   end) (sends_of evs)
      = ["first"; "third"].
Proof.
  destruct (sendBulkEmails_transport_calls sample_env 2 sample_bulk
              sample_world _ _ eq_refl) as (evs & Hw & Hsends & _).
  eexists _, evs. split.
  - rewrite <- Hw. reflexivity.
  - rewrite Hsends. reflexivity.
Defined.

(** X9. When none of the sends names a known template, a call that returns
    reports every send as failed with "Template '...' not found", none as
    successful, and the transport is never called. *)
Theorem sendBulkEmails_unknown_templates (env : Env) (fuel : nat)
    (request : EmailBulkRequest.t) (w w' : World) (summary : BulkSummary.t) :
  Forall (fun send =>
            JsMap.get (templates (service w))
                      (EmailSendRequest.template send) = None)
         (EmailBulkRequest.emails request) ->
  EmailController_sendBulkEmails env fuel request w
    = (Normal (Fulfilled summary), w') ->
  BulkSummary.results summary
    = map (fun send =>
             failure (not_found (EmailSendRequest.template send)))
          (EmailBulkRequest.emails request) /\
  BulkSummary.successful summary = 0%nat /\
  BulkSummary.failed summary = BulkSummary.total summary /\
  sends_of (trace w') = sends_of (trace w).
Proof.
  intros Hunknown Hrun.
  pose proof (sendBulkEmails_resolved env fuel request w w' summary Hrun)
    as (rs & _ & _ & _ & _ & Htotal & _).
  apply sendBulkEmails_resolved_trace in Hrun
    as (evs & -> & Hsends & Hprod & Hs & Hf).
  assert (BulkSummary.results summary
          = map (fun send =>
                   failure (not_found (EmailSendRequest.template send)))
                (EmailBulkRequest.emails request)) as Hres.
  { clear Hsends Hs Hf Htotal.
    induction Hprod as [| send r sends rs' Hone _ IH]; [reflexivity |].
    inversion Hunknown as [| ? ? Hsend Hrest]; subst.
    cbn [map]. rewrite (IH Hrest). f_equal.
    destruct Hone as (before & after_it & _ & Hr).
    destruct (EmailController_sendEmail_events env send (extend w before))
      as (r' & Hrun' & _ & Hfail).
    rewrite Hrun' in Hr. injection Hr as ->.
    apply Hfail. exact Hsend. }
  assert (flat_map (send_events env (service w))
                   (EmailBulkRequest.emails request) = []) as Hnone.
  { clear -Hunknown.
    induction Hunknown as [| send sends Hsend _ IH]; [reflexivity |].
    cbn [flat_map]. rewrite IH. unfold send_events. now rewrite Hsend. }
  split; [exact Hres |].
  rewrite Hs, Hf, Htotal, Hres. unfold successes, failures.
  cbn [trace extend]. rewrite sends_of_app, Hsends, Hnone, app_nil_r.
  clear. induction (EmailBulkRequest.emails request) as [| send sends IH].
  - repeat split.
  - cbn [map List.filter failure EmailResult.success negb length].
    destruct IH as (IH0 & IHn & _). rewrite IH0, IHn. repeat split.
Qed.

Lemma sendBulkEmails_unknown_templates_sample :
  exists summary w',
    EmailController_sendBulkEmails bare_env 2 sample_bulk
      (new_EmailService bare_env)
      = (Normal (Fulfilled summary), w') /\
    (BulkSummary.successful summary, BulkSummary.failed summary)
      = (0, 3)%nat /\
    timeouts (trace w') = [SetTimeout 250] /\
    sends_of (trace w') = [].
Proof.
  eexists _, _. split; [reflexivity |].
  destruct (sendBulkEmails_unknown_templates bare_env 2 sample_bulk
              (new_EmailService bare_env) _ _
              ltac:(repeat constructor) eq_refl)
    as (_ & Hs & Hf & Hsends).
  repeat split; assumption.
Defined.

(** ** Navigation in the module table *)

(** Induction on a module with the sub-modules as hypotheses. *)
Lemma ModuleConfig_induction (P : ModuleConfig.t -> Prop) :
  (forall module,
      (forall subModules,
          ModuleConfig.subModules module = Some subModules ->
          Forall P subModules) ->
      P module) ->
  forall module, P module.
Proof.
  intros Hstep. fix IH 1. intros module. apply Hstep.
  destruct module as [? ? ? ? ? ? ? subModules ?]. simpl.
  intros subs Hsubs. destruct subModules as [l |]; [| discriminate].
  injection Hsubs as <-.
  induction l as [| m l IHl]; constructor; [apply IH | exact IHl].
Qed.

(** The equations of the source for [findModule]. *)
Lemma findModule_cons (module : ModuleConfig.t) (rest : list ModuleConfig.t)
    (targetPath : string) :
  findModule (module :: rest) targetPath
  = if bool_decide (ModuleConfig.path module = targetPath) then Some module
    else
      match ModuleConfig.subModules module with
      | Some subModules =>
          match findModule subModules targetPath with
          | Some found => Some found
          | None => findModule rest targetPath
          end
      | None => findModule rest targetPath
      end.
Proof.
  unfold findModule. cbn [for_of_return].
  destruct module as [? ? path ? ? ? ? [subModules |] ?];
    cbn [findModule_turn ModuleConfig.path ModuleConfig.subModules];
    destruct (bool_decide (path = targetPath)); try reflexivity;
    now destruct (for_of_return _ subModules).
Qed.

Lemma findBreadcrumb_cons (module : ModuleConfig.t)
    (rest : list ModuleConfig.t) (targetPath : string)
    (currentBreadcrumbs : list Crumb.t) :
  findBreadcrumb (module :: rest) targetPath currentBreadcrumbs
  = if bool_decide (ModuleConfig.path module = targetPath)
    then Some (currentBreadcrumbs ++ [crumb module])
    else
      match ModuleConfig.subModules module with
      | Some subModules =>
          match findBreadcrumb subModules targetPath
                  (currentBreadcrumbs ++ [crumb module]) with
          | Some found => Some found
          | None => findBreadcrumb rest targetPath currentBreadcrumbs
          end
      | None => findBreadcrumb rest targetPath currentBreadcrumbs
      end.
Proof.
  unfold findBreadcrumb, crumb. cbn [for_of_return].
  destruct module as [? ? path ? ? ? ? [subModules |] ?];
    cbn [findBreadcrumb_turn ModuleConfig.path ModuleConfig.subModules
         ModuleConfig.name];
    destruct (bool_decide (path = targetPath)); try reflexivity;
    now destruct (for_of_return _ subModules).
Qed.

Lemma visit_all_cons (module : ModuleConfig.t) (rest : list ModuleConfig.t) :
  visit_all (module :: rest)
  = module ::
    match ModuleConfig.subModules module with
    | Some subModules => visit_all subModules
    | None => []
    end ++ visit_all rest.
Proof.
  unfold visit_all. cbn [flat_map].
  destruct module as [? ? ? ? ? ? ? [subModules |] ?]; reflexivity.
Qed.

Lemma find_app_path (targetPath : string) (a b : list ModuleConfig.t) :
  List.find (fun m => bool_decide (ModuleConfig.path m = targetPath)) (a ++ b)
  = match List.find (fun m => bool_decide (ModuleConfig.path m = targetPath))
            a with
    | Some found => Some found
    | None =>
        List.find (fun m => bool_decide (ModuleConfig.path m = targetPath)) b
    end.
Proof.
  induction a as [| x a IH]; [reflexivity |]. simpl.
  now destruct (bool_decide _).
Qed.

(** The search is a search through the modules in visiting order. *)
Lemma findModule_visit (targetPath : string) :
  forall modules,
    findModule modules targetPath
    = List.find (fun m => bool_decide (ModuleConfig.path m = targetPath))
                (visit_all modules).
Proof.
  assert (forall module,
             forall rest,
               findModule rest targetPath
               = List.find
                   (fun m => bool_decide (ModuleConfig.path m = targetPath))
                   (visit_all rest) ->
               findModule (module :: rest) targetPath
               = List.find
                   (fun m => bool_decide (ModuleConfig.path m = targetPath))
                   (visit_all (module :: rest))) as Hcons.
  { induction module as [module IHsubs] using ModuleConfig_induction.
    intros rest Hrest.
    rewrite findModule_cons, visit_all_cons. cbn [List.find].
    destruct (bool_decide (ModuleConfig.path module = targetPath));
      [reflexivity |].
    destruct (ModuleConfig.subModules module) as [subModules |];
      [| exact Hrest].
    rewrite find_app_path, <- Hrest.
    assert (findModule subModules targetPath
            = List.find
                (fun m => bool_decide (ModuleConfig.path m = targetPath))
                (visit_all subModules)) as ->; [| reflexivity].
    specialize (IHsubs subModules eq_refl). clear -IHsubs.
    induction IHsubs as [| m l Hm _ IHl]; [reflexivity |].
    apply Hm. exact IHl. }
  induction modules as [| module rest IH]; [reflexivity |].
  apply Hcons. exact IH.
Qed.

(** The trail of a search that finds [found]: it starts where the search
    starts, descends level by level and ends at [found]; a search that finds
    nothing leaves no trail. *)
Lemma findBreadcrumb_trail (targetPath : string) :
  forall modules currentBreadcrumbs,
    match findModule modules targetPath with
    | Some found =>
        exists trail,
          findBreadcrumb modules targetPath currentBreadcrumbs
            = Some (currentBreadcrumbs ++ map crumb (trail ++ [found])) /\
          descends modules (trail ++ [found])
    | None => findBreadcrumb modules targetPath currentBreadcrumbs = None
    end.
Proof.
  assert (forall module rest,
             (forall currentBreadcrumbs,
                 match findModule rest targetPath with
                 | Some found =>
                     exists trail,
                       findBreadcrumb rest targetPath currentBreadcrumbs
                         = Some (currentBreadcrumbs
                                 ++ map crumb (trail ++ [found])) /\
                       descends rest (trail ++ [found])
                 | None =>
                     findBreadcrumb rest targetPath currentBreadcrumbs = None
                 end) ->
             forall currentBreadcrumbs,
               match findModule (module :: rest) targetPath with
               | Some found =>
                   exists trail,
                     findBreadcrumb (module :: rest) targetPath
                                    currentBreadcrumbs
                       = Some (currentBreadcrumbs
                               ++ map crumb (trail ++ [found])) /\
                     descends (module :: rest) (trail ++ [found])
               | None =>
                   findBreadcrumb (module :: rest) targetPath
                                  currentBreadcrumbs = None
               end) as Hcons.
  { induction module as [module IHsubs] using ModuleConfig_induction.
    intros rest Hrest currentBreadcrumbs.
    assert (forall found trail,
               descends rest (trail ++ [found]) ->
               descends (module :: rest) (trail ++ [found])) as Hweaken.
    { intros found [| first trail]; cbn [app descends]; intros [Hin Hd];
        (split; [right; exact Hin | exact Hd]). }
    rewrite findModule_cons, findBreadcrumb_cons.
    destruct (bool_decide (ModuleConfig.path module = targetPath)).
    { exists []. split; [reflexivity |]. cbn. split; [now left | exact I]. }
    destruct (ModuleConfig.subModules module) as [subModules |] eqn:Hsubs.
    - assert (forall current,
                 match findModule subModules targetPath with
                 | Some found =>
                     exists trail,
                       findBreadcrumb subModules targetPath current
                         = Some (current ++ map crumb (trail ++ [found])) /\
                       descends subModules (trail ++ [found])
                 | None => findBreadcrumb subModules targetPath current = None
                 end) as Hsub.
      { specialize (IHsubs subModules eq_refl). clear -IHsubs.
        induction IHsubs as [| m l Hm _ IHl]; [reflexivity |].
        apply Hm. exact IHl. }
      specialize (Hsub (currentBreadcrumbs ++ [crumb module])).
      destruct (findModule subModules targetPath) as [found |].
      + destruct Hsub as (trail & -> & Hd).
        exists (module :: trail). split.
        * cbn [app map]. now rewrite <- app_assoc.
        * cbn [app descends]. rewrite Hsubs. split; [now left | exact Hd].
      + rewrite Hsub. specialize (Hrest currentBreadcrumbs).
        destruct (findModule rest targetPath) as [found |]; [| exact Hrest].
        destruct Hrest as (trail & Hrun & Hd).
        exists trail. split; [exact Hrun | now apply Hweaken].
    - specialize (Hrest currentBreadcrumbs).
      destruct (findModule rest targetPath) as [found |]; [| exact Hrest].
      destruct Hrest as (trail & Hrun & Hd).
      exists trail. split; [exact Hrun | now apply Hweaken]. }
  induction modules as [| module rest IH]; [reflexivity |].
  apply Hcons. exact IH.
Qed.

(** X10. [getModuleByPath] returns the first module, in the order a module
    comes before its sub-modules and these before the next module, whose
    path is the one asked for: what it returns has that path and is in the
    table, and it returns [null] exactly when no module at any depth has
    that path. *)
Theorem getModuleByPath_first_match (table : list ModuleConfig.t)
    (path : string) :
  getModuleByPath table path
    = List.find (fun m => bool_decide (ModuleConfig.path m = path))
                (visit_all table) /\
  (forall found,
      getModuleByPath table path = Some found ->
      ModuleConfig.path found = path /\ In found (visit_all table)) /\
  (getModuleByPath table path = None <->
   forall module,
     In module (visit_all table) -> ModuleConfig.path module <> path).
Proof.
  unfold getModuleByPath. rewrite findModule_visit.
  split; [reflexivity |]. split.
  - intros found Hfound. apply List.find_some in Hfound as [Hin Hpath].
    split; [now apply bool_decide_eq_true in Hpath | exact Hin].
  - split.
    + intros Hnone module Hin Hpath.
      pose proof (List.find_none _ _ Hnone module Hin) as Hno.
      apply bool_decide_eq_false in Hno. contradiction.
    + intros Hall.
      destruct (List.find _ _) as [found |] eqn:Hfound; [| reflexivity].
      apply List.find_some in Hfound as [Hin Hpath].
      apply bool_decide_eq_true in Hpath. now apply Hall in Hin.
Qed.

Lemma getModuleByPath_first_match_sample :
  option_map ModuleConfig.id (getModuleByPath APP_MODULES "/users/roles")
    = Some "user-roles" /\
  getModuleByPath APP_MODULES "/users/missing" = None.
Proof.
  destruct (getModuleByPath_first_match APP_MODULES "/users/missing")
    as (Hfind & _ & Hnone).
  split; [reflexivity |].
  rewrite Hfind. reflexivity.
Defined.

(** X11. In a table in which no two modules, at any depth, share a path,
    every module is found under its own path. *)
Theorem getModuleByPath_finds_each_module (table : list ModuleConfig.t)
    (module : ModuleConfig.t) :
  List.NoDup (map ModuleConfig.path (visit_all table)) ->
  In module (visit_all table) ->
  getModuleByPath table (ModuleConfig.path module) = Some module.
Proof.
  unfold getModuleByPath. rewrite findModule_visit.
  induction (visit_all table) as [| first rest IH]; intros Hnodup Hin;
    [destruct Hin |].
  cbn [map] in Hnodup. inversion Hnodup as [| ? ? Hfresh Hnodup']; subst.
  cbn [List.find].
  destruct Hin as [-> | Hin].
  - now rewrite bool_decide_eq_true_2.
  - rewrite bool_decide_eq_false_2; [now apply IH |].
    intros Hsame. apply Hfresh. rewrite Hsame.
    apply in_map, Hin.
Qed.

Lemma getModuleByPath_finds_each_module_sample :
  Forall (fun module =>
            getModuleByPath APP_MODULES (ModuleConfig.path module)
            = Some module)
         (visit_all APP_MODULES).
Proof.
  apply List.Forall_forall. intros module Hin.
  apply getModuleByPath_finds_each_module; [| exact Hin].
  apply (proj1 (NoDup_ListNoDup _)).
  apply (bool_decide_unpack
           (NoDup (map ModuleConfig.path (visit_all APP_MODULES)))).
  vm_compute. exact I.
Defined.

(** X12. [getBreadcrumbForPath] is empty exactly when [getModuleByPath]
    finds nothing. Otherwise the trail starts at a module of the table,
    goes down from a module to one of its own sub-modules at every step,
    and ends with the name and the path of the module [getModuleByPath]
    finds. *)
Theorem getBreadcrumbForPath_leads_to_module (table : list ModuleConfig.t)
    (path : string) :
  match getModuleByPath table path with
  | Some found =>
      exists trail,
        getBreadcrumbForPath table path = map crumb (trail ++ [found]) /\
        descends table (trail ++ [found])
  | None => getBreadcrumbForPath table path = []
  end.
Proof.
  unfold getModuleByPath, getBreadcrumbForPath.
  pose proof (findBreadcrumb_trail path table []) as Htrail.
  destruct (findModule table path) as [found |].
  - destruct Htrail as (trail & -> & Hd). exists trail. now split.
  - now rewrite Htrail.
Qed.

Lemma getBreadcrumbForPath_leads_to_module_sample :
  getBreadcrumbForPath APP_MODULES "/users/roles"
    = [{| Crumb.name := "User Management"; Crumb.path := "/users" |};
       {| Crumb.name := "Roles & Permissions";
          Crumb.path := "/users/roles" |}] /\
  getBreadcrumbForPath APP_MODULES "/users/roles/edit" = [].
Proof.
  pose proof (getBreadcrumbForPath_leads_to_module APP_MODULES
                "/users/roles/edit") as Hnone.
  split; [reflexivity | exact Hnone].
Defined.

(** X13. [getModulesByPermission] keeps, in the order of the table, the
    enabled top-level modules that have one of the given permissions; so it
    returns nothing for no permission, only modules [getEnabledModules]
    returns, and no fewer modules for more permissions. The permissions of
    sub-modules play no part. *)
Theorem getModulesByPermission_selects (table : list ModuleConfig.t)
    (permissions : list string) :
  (forall module,
      In module (getModulesByPermission table permissions) <->
      In module (getEnabledModules table) /\
      exists permission,
        In permission (ModuleConfig.permissions module) /\
        In permission permissions) /\
  sublist (getModulesByPermission table permissions)
          (getEnabledModules table) /\
  getModulesByPermission table [] = [] /\
  (forall more,
      (forall permission, In permission permissions -> In permission more) ->
      sublist (getModulesByPermission table permissions)
              (getModulesByPermission table more)).
Proof.
  assert (forall perms permission,
             includes perms permission = true <-> In permission perms)
    as Hincludes.
  { intros perms permission. unfold includes. rewrite existsb_exists. split.
    - intros (y & Hin & Hy). apply bool_decide_eq_true in Hy. now subst.
    - intros Hin. exists permission. split; [exact Hin |].
      now apply bool_decide_eq_true. }
  assert (forall perms module,
             existsb (fun permission => includes perms permission)
                     (ModuleConfig.permissions module) = true <->
             exists permission,
               In permission (ModuleConfig.permissions module) /\
               In permission perms) as Hhas.
  { intros perms module. rewrite existsb_exists.
    split; intros (p & Hp & Hq); exists p; (split; [exact Hp |]);
      now apply Hincludes. }
  unfold getModulesByPermission, getEnabledModules.
  split; [| split; [| split]].
  - intros module. rewrite !List.filter_In, andb_true_iff, Hhas. tauto.
  - induction table as [| m rest IH]; [constructor |].
    cbn [List.filter]. destruct (ModuleConfig.enabled m); cbn [andb].
    + destruct (existsb (fun permission => includes permissions permission)
                        (ModuleConfig.permissions m));
        [apply sublist_skip, IH | apply sublist_cons, IH].
    + exact IH.
  - induction table as [| m rest IH]; [reflexivity |].
    cbn [List.filter]. rewrite IH.
    assert (existsb (fun permission => includes [] permission)
                    (ModuleConfig.permissions m) = false) as ->.
    { induction (ModuleConfig.permissions m); [reflexivity | assumption]. }
    now rewrite andb_false_r.
  - intros more Hmore.
    induction table as [| m rest IH]; [constructor |].
    cbn [List.filter].
    destruct (ModuleConfig.enabled m); cbn [andb]; [| exact IH].
    destruct (existsb (fun permission => includes permissions permission)
                      (ModuleConfig.permissions m)) eqn:Hm.
    + apply Hhas in Hm as (p & Hp & Hq).
      assert (existsb (fun permission => includes more permission)
                      (ModuleConfig.permissions m) = true) as ->.
      { apply Hhas. exists p. split; [exact Hp | now apply Hmore]. }
      apply sublist_skip, IH.
    + destruct (existsb (fun permission => includes more permission)
                        (ModuleConfig.permissions m));
        [apply sublist_cons, IH | exact IH].
Qed.

Lemma getModulesByPermission_selects_sample :
  map ModuleConfig.id
      (getModulesByPermission APP_MODULES ["users:admin"; "help:read"])
    = ["help"] /\
  sublist (getModulesByPermission APP_MODULES ["users:admin"; "help:read"])
          (getEnabledModules APP_MODULES).
Proof.
  split; [reflexivity |].
  exact (proj1 (proj2 (getModulesByPermission_selects APP_MODULES
                         ["users:admin"; "help:read"]))).
Defined.

(** ** Regular expressions *)

Lemma in_Class_inv (accepts : ascii -> bool) (l : list ascii) :
  in_language (Class accepts) l <-> exists c, l = [c] /\ accepts c = true.
Proof.
  split.
  - intros H. inversion H; subst. eauto.
  - intros (c & -> & Hc). now constructor.
Qed.

Lemma in_Seq_inv (r s : Regex) (l : list ascii) :
  in_language (Seq r s) l <->
  exists l1 l2, l = l1 ++ l2 /\ in_language r l1 /\ in_language s l2.
Proof.
  split.
  - intros H. inversion H; subst. eauto.
  - intros (l1 & l2 & -> & H1 & H2). now constructor.
Qed.

Lemma in_Alt_inv (r s : Regex) (l : list ascii) :
  in_language (Alt r s) l <-> in_language r l \/ in_language s l.
Proof.
  split.
  - intros H. inversion H; subst; tauto.
  - intros [H | H]; [now apply in_Alt_l | now apply in_Alt_r].
Qed.

Lemma nullable_spec (r : Regex) :
  nullable r = true <-> in_language r [].
Proof.
  induction r as [| | accepts | r IHr s IHs | r IHr s IHs | r IHr]; cbn.
  - split; [discriminate | intros H; inversion H].
  - split; [constructor | reflexivity].
  - split; [discriminate | intros H; inversion H].
  - rewrite andb_true_iff, IHr, IHs. split.
    + intros [Hr Hs]. apply (in_Seq r s [] [] Hr Hs).
    + intros H. apply in_Seq_inv in H as (l1 & l2 & Heq & Hr & Hs).
      destruct l1; [| discriminate]. destruct l2; [| discriminate]. tauto.
  - rewrite orb_true_iff, IHr, IHs, in_Alt_inv. tauto.
  - split; [constructor | reflexivity].
Qed.

Lemma in_Star_uncons (r : Regex) (c : ascii) (l : list ascii) :
  in_language (Star r) (c :: l) ->
  exists l1 l2, l = l1 ++ l2 /\ in_language r (c :: l1)
                /\ in_language (Star r) l2.
Proof.
  intros H. remember (Star r) as sr eqn:Esr. remember (c :: l) as cl eqn:Ecl.
  revert Esr Ecl.
  induction H as [| | | | | | r' l1 l2 H1 _ H2 IH2]; try discriminate.
  intros Esr Ecl. injection Esr as ->.
  destruct l1 as [| c1 l1].
  - cbn in Ecl. now apply IH2.
  - cbn in Ecl. injection Ecl as -> <-. now exists l1, l2.
Qed.

Lemma derivative_spec (r : Regex) (c : ascii) (l : list ascii) :
  in_language (derivative c r) l <-> in_language r (c :: l).
Proof.
  revert l.
  induction r as [| | accepts | r IHr s IHs | r IHr s IHs | r IHr];
    intros l; cbn.
  - split; intros H; inversion H.
  - split; intros H; inversion H.
  - destruct (accepts c) eqn:Hc.
    + split; intros H.
      * inversion H; subst. now constructor.
      * inversion H; subst. constructor.
    + split; intros H; inversion H; subst. congruence.
  - assert (Hseq : in_language (Seq (derivative c r) s) l ->
                   in_language (Seq r s) (c :: l)).
    { intros H. apply in_Seq_inv in H as (l1 & l2 & -> & Hr & Hs).
      apply IHr in Hr. apply (in_Seq r s (c :: l1) l2 Hr Hs). }
    assert (Hback : in_language (Seq r s) (c :: l) ->
                    in_language (Seq (derivative c r) s) l
                    \/ (in_language r [] /\ in_language s (c :: l))).
    { intros H. apply in_Seq_inv in H as (l1 & l2 & Heq & Hr & Hs).
      destruct l1 as [| c1 l1].
      - right. cbn in Heq. subst. tauto.
      - left. cbn in Heq. injection Heq as <- ->.
        apply IHr in Hr. now constructor. }
    destruct (nullable r) eqn:Hn.
    + split; intros H.
      * apply in_Alt_inv in H as [H | H]; [now apply Hseq |].
        apply IHs in H. apply (in_Seq r s [] (c :: l)); [| exact H].
        now apply nullable_spec.
      * destruct (Hback H) as [H' | [_ H']]; [now apply in_Alt_l |].
        apply in_Alt_r. now apply IHs.
    + split; [exact Hseq |]. intros H.
      destruct (Hback H) as [H' | [H' _]]; [exact H' |].
      apply nullable_spec in H'. congruence.
  - rewrite !in_Alt_inv, IHr, IHs. tauto.
  - split; intros H.
    + apply in_Seq_inv in H as (l1 & l2 & -> & Hr & Hs).
      apply IHr in Hr. apply (in_Star_cons r (c :: l1) l2 Hr Hs).
    + destruct (in_Star_uncons r c l H) as (l1 & l2 & -> & Hr & Hs).
      apply IHr in Hr. now constructor.
Qed.

Lemma matches_chars_spec (r : Regex) (l : list ascii) :
  matches_chars r l = true <-> in_language r l.
Proof.
  revert r. induction l as [| c l IH]; intros r; cbn.
  - apply nullable_spec.
  - rewrite IH. apply derivative_spec.
Qed.

Lemma in_Opt_inv (r : Regex) (l : list ascii) :
  in_language (Opt r) l <-> l = [] \/ in_language r l.
Proof.
  unfold Opt. rewrite in_Alt_inv. split.
  - intros [H | H]; [inversion H; now left | now right].
  - intros [-> | H]; [left; constructor | now right].
Qed.

Lemma in_Star_Class (accepts : ascii -> bool) (l : list ascii) :
  in_language (Star (Class accepts)) l <-> every accepts l.
Proof.
  unfold every. induction l as [| c l IH].
  - split; [reflexivity | constructor].
  - cbn. rewrite andb_true_iff, <- IH. split.
    + intros H. destruct (in_Star_uncons _ _ _ H) as (l1 & l2 & -> & Hc & Hs).
      apply in_Class_inv in Hc as (c' & Hc & Hacc).
      injection Hc as -> ->. cbn. tauto.
    + intros [Hc Hs].
      apply (in_Star_cons (Class accepts) [c] l); [now constructor | exact Hs].
Qed.

Lemma in_Plus_Class (accepts : ascii -> bool) (l : list ascii) :
  in_language (Plus (Class accepts)) l <-> l <> [] /\ every accepts l.
Proof.
  unfold Plus. rewrite in_Seq_inv. split.
  - intros (l1 & l2 & -> & H1 & H2).
    apply in_Class_inv in H1 as (c & -> & Hc).
    apply in_Star_Class in H2. cbn. split; [discriminate |].
    unfold every in *. cbn. now rewrite Hc.
  - intros [Hne Hall]. destruct l as [| c l]; [contradiction |].
    unfold every in Hall. cbn in Hall. apply andb_true_iff in Hall as [Hc Hl].
    exists [c], l. split; [reflexivity |]. split.
    + now constructor.
    + now apply in_Star_Class.
Qed.

Lemma in_AtMost_Class (n : nat) (accepts : ascii -> bool) (l : list ascii) :
  in_language (AtMost n (Class accepts)) l <->
  (length l <= n)%nat /\ every accepts l.
Proof.
  revert l. induction n as [| n IH]; intros l; cbn [AtMost].
  - split.
    + intros H. inversion H. cbn. split; [lia | reflexivity].
    + intros [Hlen _]. destruct l; [constructor | cbn in Hlen; lia].
  - rewrite in_Opt_inv, in_Seq_inv. split.
    + intros [-> | (l1 & l2 & -> & H1 & H2)].
      * cbn. split; [lia | reflexivity].
      * apply in_Class_inv in H1 as (c & -> & Hc).
        apply IH in H2 as [Hlen Hall]. cbn. split; [lia |].
        unfold every in *. cbn. now rewrite Hc.
    + intros [Hlen Hall]. destruct l as [| c l]; [now left | right].
      unfold every in Hall. cbn in Hall, Hlen.
      apply andb_true_iff in Hall as [Hc Hl].
      exists [c], l. split; [reflexivity |]. split; [now constructor |].
      apply IH. split; [lia | exact Hl].
Qed.

Lemma characters_empty (s : string) : characters s = [] <-> s = "".
Proof.
  destruct s; cbn; split; intros H; try reflexivity; discriminate.
Qed.

Lemma characters_length (s : string) :
  length (characters s) = String.length s.
Proof.
  unfold characters.
  induction s as [| c s IH]; cbn; [reflexivity | now rewrite IH].
Qed.

Lemma test_username (s : string) :
  test username_regex s = true <-> username_shaped s.
Proof.
  unfold test, username_regex, username_shaped.
  rewrite matches_chars_spec, in_Plus_Class.
  fold (characters s). now rewrite characters_empty.
Qed.

Lemma test_email (s : string) :
  test email_regex s = true <-> email_shaped s.
Proof.
  unfold test, email_regex, email_shaped.
  rewrite matches_chars_spec. fold (characters s).
  generalize (characters s) as l. intros l. split.
  - intros H.
    apply in_Seq_inv in H as (local & l1 & -> & Hlocal & H).
    apply in_Seq_inv in H as (at_ & l2 & -> & Hat & H).
    apply in_Seq_inv in H as (domain & l3 & -> & Hdomain & H).
    apply in_Seq_inv in H as (dot & tld & -> & Hdot & Htld).
    apply in_Class_inv in Hat as (c1 & -> & Hc1).
    apply in_Class_inv in Hdot as (c2 & -> & Hc2).
    apply in_Plus_Class in Hlocal as [? ?].
    apply in_Plus_Class in Hdomain as [? ?].
    apply in_Plus_Class in Htld as [? ?].
    unfold is_char, code in Hc1, Hc2.
    apply Nat.eqb_eq in Hc1, Hc2.
    assert (c1 = "@"%char) as -> by
      (rewrite <- (ascii_nat_embedding c1), Hc1; reflexivity).
    assert (c2 = "."%char) as -> by
      (rewrite <- (ascii_nat_embedding c2), Hc2; reflexivity).
    exists local, domain, tld. cbn. tauto.
  - intros (local & domain & tld & -> & ? & ? & ? & ? & ? & ?).
    apply (in_Seq _ _ local); [now apply in_Plus_Class |].
    apply (in_Seq _ _ ["@"%char]); [now constructor |].
    apply (in_Seq _ _ domain); [now apply in_Plus_Class |].
    apply (in_Seq _ _ ["."%char]); [now constructor |].
    now apply in_Plus_Class.
Qed.

Lemma test_phone (s : string) :
  test phone_regex s = true <-> phone_shaped s.
Proof.
  unfold test, phone_regex, phone_shaped.
  rewrite matches_chars_spec. fold (characters s).
  generalize (characters s) as l. intros l. split.
  - intros H.
    apply in_Seq_inv in H as (sign & l1 & -> & Hsign & H).
    apply in_Seq_inv in H as (first & rest & -> & Hfirst & Hrest).
    apply in_Class_inv in Hfirst as (c & -> & Hc).
    apply in_AtMost_Class in Hrest as [Hlen Hall].
    exists sign, c, rest. split; [reflexivity |]. split; [| tauto].
    apply in_Opt_inv in Hsign as [-> | Hsign]; [now left | right].
    apply in_Class_inv in Hsign as (c1 & -> & Hc1).
    unfold is_char, code in Hc1. apply Nat.eqb_eq in Hc1.
    rewrite <- (ascii_nat_embedding c1), Hc1. reflexivity.
  - intros (sign & c & rest & -> & Hsign & Hc & Hall & Hlen).
    apply (in_Seq _ _ sign).
    + apply in_Opt_inv. destruct Hsign as [-> | ->]; [now left | right].
      now constructor.
    + apply (in_Seq _ _ [c]); [now constructor |].
      now apply in_AtMost_Class.
Qed.

(** ** [BaseController] and [UserController] *)

(** A call of a method of the service inside [try]: what the [async]
    function yields comes from the backend, or from the missing method. *)
Lemma guarded_call_run (not_a_function : string -> string)
    (object : ServiceObject) (method : string) (args : list Js)
    (continue : Js -> M Js) (handler : Thrown -> M Js) (w : World) :
  async (try_catch
           (let* calling := invoke not_a_function object method args in
            let* result := await calling in
            continue result)
           handler) w
  = if includes (methods object) method
    then match backend object method args with
         | Pending => (Normal Pending, w)
         | Fulfilled result => async (try_catch (continue result) handler) w
         | Rejected error => async (handler error) w
         end
    else async (handler (Err (not_a_function method))) w.
Proof.
  unfold async, try_catch, bind, invoke, await.
  destruct (includes (methods object) method); [| reflexivity].
  cbn. destruct (backend object method args); reflexivity.
Qed.

Lemma async_fail_with (what : string) (error : Thrown) (w : World) :
  async (fail_with (A := Js) what error) w
  = (Normal (Rejected (Err (failed_to what (error_text error)))), w).
Proof. reflexivity. Qed.

Lemma async_handleError (error : Thrown) (w : World) :
  async (handleError (A := Js) error) w = (Normal (Rejected error), w).
Proof. reflexivity. Qed.

Lemma perform_call_guarded (not_a_function : string -> string)
    (cannot_read : Js -> string -> string) (this : Controller)
    (call : BaseCall) (w : World) :
  exists continue : Js -> M Js,
    perform_call not_a_function cannot_read this call w
    = async (try_catch
               (let* calling :=
                  invoke not_a_function (service_of this)
                         (service_method call) (service_arguments call) in
                let* result := await calling in
                continue result)
               (fail_with (operation (moduleName this) call))) w
    /\ forall result,
         exists completion,
           continue result w = (completion, w)
           /\ completion <> Exhausted /\ completion <> Waiting.
Proof.
  destruct call; cbn [perform_call service_method service_arguments operation].
  - eexists. split; [reflexivity |]. intros result.
    unfold bind, property, optional_property, ret, throw.
    destruct result, pagination; cbn; eexists; (split; [reflexivity |]);
      split; discriminate.
  - eexists. split; [reflexivity |]. intros result.
    unfold throw, ret.
    destruct (negb (truthy result)); eexists; (split; [reflexivity |]);
      split; discriminate.
  - eexists. split; [reflexivity |]. intros result. unfold ret.
    eexists; (split; [reflexivity |]); split; discriminate.
  - eexists. split; [reflexivity |]. intros result.
    unfold throw, ret.
    destruct (negb (truthy result)); eexists; (split; [reflexivity |]);
      split; discriminate.
  - eexists. split; [reflexivity |]. intros result. unfold ret.
    eexists; (split; [reflexivity |]); split; discriminate.
  - eexists. split; [reflexivity |]. intros result. unfold ret.
    eexists; (split; [reflexivity |]); split; discriminate.
  - eexists. split; [reflexivity |]. intros result. unfold ret.
    eexists; (split; [reflexivity |]); split; discriminate.
  - eexists. split; [reflexivity |]. intros result. unfold ret.
    eexists; (split; [reflexivity |]); split; discriminate.
  - eexists. split; [reflexivity |]. intros result. unfold ret.
    eexists; (split; [reflexivity |]); split; discriminate.
Qed.

(** X14. Whatever goes wrong inside one of the nine operations of
    [BaseController] reaches the caller worded by that operation: the call
    always yields a promise and leaves the state alone, and when the promise
    is rejected its reason is an [Error] whose message is
    [Failed to <operation> <module>: <cause>]. When the service has no such
    method the cause is the message of the [TypeError]; when the service
    rejects, the cause is the message of its error, or [Unknown error] when
    it rejected with something that is no [Error]; while the service has not
    answered the promise stays pending. *)
Theorem BaseController_failures_are_worded
    (not_a_function : string -> string)
    (cannot_read : Js -> string -> string) (this : Controller)
    (call : BaseCall) (w : World) :
  exists promise,
    perform_call not_a_function cannot_read this call w = (Normal promise, w)
    /\ (forall reason, promise = Rejected reason ->
          exists cause,
            reason = Err (failed_to (operation (moduleName this) call) cause))
    /\ (includes (methods (service_of this)) (service_method call) = false ->
          promise
          = Rejected (Err (failed_to (operation (moduleName this) call)
                             (not_a_function (service_method call)))))
    /\ (includes (methods (service_of this)) (service_method call) = true ->
          match backend (service_of this) (service_method call)
                        (service_arguments call) with
          | Rejected error =>
              promise
              = Rejected (Err (failed_to (operation (moduleName this) call)
                                 (error_text error)))
          | Pending => promise = Pending
          | Fulfilled _ => True
          end).
Proof.
  destruct (perform_call_guarded not_a_function cannot_read this call w)
    as (continue & -> & Hcontinue).
  rewrite guarded_call_run.
  destruct (includes (methods (service_of this)) (service_method call)).
  - destruct (backend (service_of this) (service_method call)
                      (service_arguments call)) as [| result | error].
    + eexists. split; [reflexivity |]. repeat split; try discriminate.
    + destruct (Hcontinue result) as (completion & Hrun & Hloop & Hwait).
      unfold async, try_catch. rewrite Hrun.
      destruct completion as [value | thrown | |]; try contradiction.
      * eexists. split; [reflexivity |]. repeat split; discriminate.
      * eexists. split; [reflexivity |]. repeat split; try discriminate.
        intros reason [= <-]. eauto.
    + rewrite async_fail_with. eexists. split; [reflexivity |].
      repeat split; try discriminate.
      intros reason [= <-]. eauto.
  - rewrite async_fail_with. eexists. split; [reflexivity |].
    repeat split; try discriminate.
    intros reason [= <-]. eauto.
Qed.

(** X15. [getById] and [update] take a falsy answer of the service
    ([null], [undefined], [false], [0], the empty string) for a record that
    does not exist: the promise is rejected with
    [Failed to get M: M not found] (for [update],
    [Failed to update M: M not found]), the not-found error going through
    the same [catch] block as every other; a truthy answer is handed on as
    it is. *)
Theorem BaseController_falsy_answer_is_not_found
    (not_a_function : string -> string) (this : Controller)
    (id data found changed : Js) (w : World) :
  includes (methods (service_of this)) "getById" = true ->
  includes (methods (service_of this)) "update" = true ->
  backend (service_of this) "getById" [id] = Fulfilled found ->
  backend (service_of this) "update" [id; data] = Fulfilled changed ->
  BaseController_getById not_a_function this id w
  = (Normal (if truthy found then Fulfilled found
             else Rejected (Err (failed_to ("get " +:+ moduleName this)
                                   (moduleName this +:+ " not found")))), w)
  /\ BaseController_update not_a_function this id data w
     = (Normal (if truthy changed then Fulfilled changed
                else Rejected (Err (failed_to ("update " +:+ moduleName this)
                                      (moduleName this +:+ " not found")))),
        w).
Proof.
  intros Hget Hupdate Hfound Hchanged.
  unfold BaseController_getById, BaseController_update.
  rewrite !guarded_call_run, Hget, Hupdate, Hfound, Hchanged.
  split; [destruct (truthy found) | destruct (truthy changed)]; reflexivity.
Qed.

Lemma BaseController_falsy_answer_is_not_found_sample :
  BaseController_getById (fun method => method +:+ " is not a function")
    (new_UserController empty_backend) (JNumber 4) sample_world
  = (Normal (Rejected (Err "Failed to get User: User not found")),
     sample_world)
  /\ BaseController_update (fun method => method +:+ " is not a function")
       (new_UserController empty_backend) (JNumber 4) (JObject [])
       sample_world
     = (Normal (Fulfilled (JObject [("id", JNumber 7)])), sample_world).
Proof.
  exact (BaseController_falsy_answer_is_not_found
           (fun method => method +:+ " is not a function")
           (new_UserController empty_backend)
           (JNumber 4) (JObject []) JNull (JObject [("id", JNumber 7)])
           sample_world eq_refl eq_refl eq_refl eq_refl).
Defined.

(** X16. When the service answers [getList] with an object, [getAll]
    resolves with [data] and [total] taken from the answer ([[]] and [0]
    when they are missing or falsy) and with [page] and [limit] taken from
    the request, never from the answer: they are those of [pagination] when
    it has them and they are truthy, and [1] and [10] otherwise, in
    particular for a request without [pagination] and for page [0]. *)
Theorem BaseController_getAll_echoes_request
    (not_a_function : string -> string)
    (cannot_read : Js -> string -> string) (this : Controller)
    (filters pagination : Js) (answer : list (string * Js)) (w : World) :
  includes (methods (service_of this)) "getList" = true ->
  backend (service_of this) "getList" [filters; pagination]
  = Fulfilled (JObject answer) ->
  exists page limit,
    BaseController_getAll not_a_function cannot_read this filters pagination w
    = (Normal (Fulfilled
         (JObject [("data", js_or (field answer "data") (JArray []));
                   ("total", js_or (field answer "total") (JNumber 0));
                   ("page", page); ("limit", limit)])), w)
    /\ truthy page = true /\ truthy limit = true
    /\ (forall asked, pagination = JObject asked ->
          page = js_or (field asked "page") (JNumber 1)
          /\ limit = js_or (field asked "limit") (JNumber 10))
    /\ (pagination = JUndefined \/ pagination = JNull ->
          page = JNumber 1 /\ limit = JNumber 10).
Proof.
  intros Hmethod Hanswer. unfold BaseController_getAll.
  rewrite guarded_call_run, Hmethod, Hanswer.
  assert (Hor : forall value default,
             truthy default = true -> truthy (js_or value default) = true).
  { intros value default Hdefault. unfold js_or.
    destruct (truthy value) eqn:Hvalue; congruence. }
  destruct pagination as [| | b | n | s | items | asked];
    (eexists; eexists; split; [reflexivity |]);
    (split; [now apply Hor |]); (split; [now apply Hor |]);
    (split; [intros ? [=]; subst; split; reflexivity |]);
    intros [[=] | [=]]; split; reflexivity.
Qed.

Lemma BaseController_getAll_echoes_request_sample :
  BaseController_getAll (fun method => method +:+ " is not a function")
    (fun _ key => "Cannot read properties of undefined (reading " +:+ key)
    (new_UserController
       (fun _ _ => Fulfilled (JObject [("data", JArray [JString "ada"]);
                                       ("page", JNumber 3)])))
    JUndefined (JObject [("page", JNumber 0); ("limit", JNumber 25)])
    sample_world
  = (Normal (Fulfilled
       (JObject [("data", JArray [JString "ada"]); ("total", JNumber 0);
                 ("page", JNumber 1); ("limit", JNumber 25)])),
     sample_world).
Proof.
  destruct (BaseController_getAll_echoes_request
              (fun method => method +:+ " is not a function")
              (fun _ key =>
                 "Cannot read properties of undefined (reading " +:+ key)
              (new_UserController
                 (fun _ _ =>
                    Fulfilled (JObject [("data", JArray [JString "ada"]);
                                        ("page", JNumber 3)])))
              JUndefined
              (JObject [("page", JNumber 0); ("limit", JNumber 25)])
              [("data", JArray [JString "ada"]); ("page", JNumber 3)]
              sample_world eq_refl eq_refl)
    as (page & limit & Hrun & _ & _ & Hasked & _).
  destruct (Hasked _ eq_refl) as [Hpage Hlimit].
  rewrite Hrun, Hpage, Hlimit. reflexivity.
Defined.

(** X17. An [EmailController] is built over the empty object as its
    service, so each of the nine operations it inherits from
    [BaseController] is rejected, whatever its arguments, with
    [Failed to <operation> Email: <method> is not a function] (the message
    of the [TypeError]); nothing is sent and the state is left alone. *)
Theorem EmailController_inherited_operations_fail
    (not_a_function : string -> string)
    (cannot_read : Js -> string -> string) (call : BaseCall) (w : World) :
  perform_call not_a_function cannot_read EmailController_base call w
  = (Normal (Rejected (Err (failed_to (operation "Email" call)
                              (not_a_function (service_method call))))), w).
Proof.
  destruct (perform_call_guarded not_a_function cannot_read
              EmailController_base call w) as (continue & -> & _).
  rewrite guarded_call_run. reflexivity.
Qed.

(** X18. A [UserService] has no method [getUsersByRole],
    [getUsersByDepartment], [export] or [import]: on a [UserController] the
    calls [getUsersByRole] and [getUsersByDepartment] are rejected with the
    [TypeError] itself, and the inherited [export] and [import] with
    [Failed to export User: ...] and [Failed to import User: ...], whatever
    the backend would answer and whatever the arguments. *)
Theorem UserController_calls_without_service_method
    (not_a_function : string -> string)
    (answers : string -> list Js -> Promise Js)
    (role department format filters file options : Js) (w : World) :
  UserController_getUsersByRole not_a_function
    (new_UserController answers) role w
  = (Normal (Rejected (Err (not_a_function "getUsersByRole"))), w)
  /\ UserController_getUsersByDepartment not_a_function
       (new_UserController answers) department w
     = (Normal (Rejected (Err (not_a_function "getUsersByDepartment"))), w)
  /\ BaseController_export not_a_function
       (new_UserController answers) format filters w
     = (Normal (Rejected (Err (failed_to "export User"
                                 (not_a_function "export")))), w)
  /\ BaseController_import not_a_function
       (new_UserController answers) file options w
     = (Normal (Rejected (Err (failed_to "import User"
                                 (not_a_function "import")))), w).
Proof.
  unfold UserController_getUsersByRole, UserController_getUsersByDepartment,
    BaseController_export, BaseController_import.
  rewrite !guarded_call_run. repeat split; reflexivity.
Qed.

(** X19. The other calls of [UserController] go to a method the service
    has, and hand a rejection of the service on as it is: the caller gets
    the very error the service rejected with, not re-worded as by the
    operations of [BaseController]; while the service has not answered the
    promise stays pending. *)
Theorem UserController_hands_rejections_on
    (not_a_function : string -> string)
    (cannot_read : Js -> string -> string)
    (answers : string -> list Js -> Promise Js) (call : UserCall)
    (w : World) :
  match answers (user_service_method call) (user_service_arguments call) with
  | Rejected error =>
      perform_user_call not_a_function cannot_read
        (new_UserController answers) call w
      = (Normal (Rejected error), w)
  | Pending =>
      perform_user_call not_a_function cannot_read
        (new_UserController answers) call w
      = (Normal Pending, w)
  | Fulfilled result =>
      exists promise,
        perform_user_call not_a_function cannot_read
          (new_UserController answers) call w
        = (Normal promise, w)
        /\ promise <> Pending
        /\ (truthy result = true -> promise = Fulfilled result)
  end.
Proof.
  assert (Hhas : includes UserService_methods (user_service_method call)
                 = true) by (destruct call; reflexivity).
  destruct call;
    cbn [perform_user_call user_service_method user_service_arguments] in *;
    unfold UserController_getUserProfile, UserController_changeUserStatus,
      UserController_changeUserRole, UserController_getUserActivity,
      UserController_getUserStats, UserController_sendPasswordReset,
      UserController_bulkUpdateUsers, UserController_search;
    try change (async (try_catch
                  (let* _ := property cannot_read (JArray updates) "length" in
                   ?body) ?handler) w)
          with (async (try_catch body handler) w);
    rewrite guarded_call_run;
    change (includes (methods (service_of (new_UserController answers))))
      with (includes UserService_methods);
    rewrite Hhas;
    change (backend (service_of (new_UserController answers))) with answers;
    (match goal with
     | |- context [answers ?m ?a] =>
         destruct (answers m a) as [| result | error] eqn:Hanswer
     end;
     [ reflexivity
     | unfold async, try_catch, js_or, handleError, throw, ret;
       destruct (truthy result) eqn:Htruthy; cbn;
       eexists; (split; [reflexivity |]);
       (split; [discriminate |]); intros; congruence
     | reflexivity ]).
Qed.

(** ** [validateData] *)

Lemma if_nil {A : Type} (b : bool) (x : A) :
  (if b then [x] else []) = [] <-> b = false.
Proof. destruct b; split; congruence. Qed.

Lemma truthy_JString (s : string) : truthy (JString s) = true <-> s <> "".
Proof.
  cbn. rewrite negb_true_iff, bool_decide_eq_false. tauto.
Qed.

Lemma is_empty_string_falsy (value : Js) :
  is_empty_string value = true -> truthy value = false.
Proof.
  destruct value as [| | b | n | [| c s] | items | fields]; cbn;
    try discriminate.
  reflexivity.
Qed.

(** The four checks of one turn of the loop, one by one. *)
Lemma required_check (value : Js) (required : option bool) (message : string) :
  (if flag_set required && (negb (truthy value) || is_empty_string value)
   then [message] else []) = []
  <-> (required = Some true -> truthy value = true).
Proof.
  rewrite if_nil. pose proof (is_empty_string_falsy value) as Hempty.
  destruct required as [[|] |]; cbn.
  - destruct (truthy value), (is_empty_string value); cbn; split; intros H;
      try reflexivity; try discriminate H;
      try (specialize (H eq_refl); discriminate H);
      specialize (Hempty eq_refl); discriminate Hempty.
  - split; [discriminate | reflexivity].
  - split; [discriminate | reflexivity].
Qed.

Lemma minLength_check (value : Js) (minLength : option Z) (message : Z -> string) :
  match minLength with
  | Some m =>
      if number_set (Some m) && truthy value && is_string value
         && (string_length value <? m)
      then [message m] else []
  | None => []
  end = []
  <-> (forall s, value = JString s -> s <> "" ->
       forall m, minLength = Some m -> m <> 0 ->
                 m <= Z.of_nat (String.length s)).
Proof.
  destruct minLength as [m |]; [| split; [discriminate | reflexivity]].
  rewrite if_nil. cbn [number_set].
  destruct (Z.eqb_spec m 0) as [Hzero | Hzero]; cbn [negb andb].
  - split; [| reflexivity]. intros _ s _ _ m' [= <-]. contradiction.
  - destruct value as [| | b | n | s | items | fields];
      try (rewrite ?andb_false_r; cbn; split; [discriminate | reflexivity]).
    cbn [is_string string_length]. rewrite andb_true_r.
    destruct (truthy (JString s)) eqn:Htruthy; cbn [andb].
    + apply truthy_JString in Htruthy. rewrite Z.ltb_ge. split.
      * intros Hlen s' [= <-] _ m' [= <-] _. exact Hlen.
      * intros H. now apply (H s eq_refl Htruthy m eq_refl).
    + split; [| reflexivity]. intros _ s' [= <-] Hne.
      apply truthy_JString in Hne. congruence.
Qed.

Lemma maxLength_check (value : Js) (maxLength : option Z) (message : Z -> string) :
  match maxLength with
  | Some m =>
      if number_set (Some m) && truthy value && is_string value
         && (m <? string_length value)
      then [message m] else []
  | None => []
  end = []
  <-> (forall s, value = JString s -> s <> "" ->
       forall m, maxLength = Some m -> m <> 0 ->
                 Z.of_nat (String.length s) <= m).
Proof.
  destruct maxLength as [m |]; [| split; [discriminate | reflexivity]].
  rewrite if_nil. cbn [number_set].
  destruct (Z.eqb_spec m 0) as [Hzero | Hzero]; cbn [negb andb].
  - split; [| reflexivity]. intros _ s _ _ m' [= <-]. contradiction.
  - destruct value as [| | b | n | s | items | fields];
      try (rewrite ?andb_false_r; cbn; split; [discriminate | reflexivity]).
    cbn [is_string string_length]. rewrite andb_true_r.
    destruct (truthy (JString s)) eqn:Htruthy; cbn [andb].
    + apply truthy_JString in Htruthy. rewrite Z.ltb_ge. split.
      * intros Hlen s' [= <-] _ m' [= <-] _. exact Hlen.
      * intros H. now apply (H s eq_refl Htruthy m eq_refl).
    + split; [| reflexivity]. intros _ s' [= <-] Hne.
      apply truthy_JString in Hne. congruence.
Qed.

Lemma pattern_check (value : Js) (pattern : option RegExp) (message : string) :
  match pattern, value with
  | Some p, JString s =>
      if truthy value && negb (p s) then [message] else []
  | _, _ => []
  end = []
  <-> (forall s, value = JString s -> s <> "" ->
       forall p, pattern = Some p -> p s = true).
Proof.
  destruct pattern as [p |]; [| split; [discriminate | reflexivity]].
  destruct value as [| | b | n | s | items | fields];
    try (split; [discriminate | reflexivity]).
  rewrite if_nil.
  destruct (truthy (JString s)) eqn:Htruthy; cbn [andb].
  - apply truthy_JString in Htruthy. rewrite negb_false_iff. split.
    + intros Hp s' [= <-] _ p' [= <-]. exact Hp.
    + intros H. now apply (H s eq_refl Htruthy p eq_refl).
  - split; [| reflexivity]. intros _ s' [= <-] Hne.
    apply truthy_JString in Hne. congruence.
Qed.

Lemma validateField_nil (data : list (string * Js)) (fieldName : string)
    (rule : Rule.t) :
  validateField data fieldName rule = []
  <-> satisfied (field data fieldName) rule.
Proof.
  unfold validateField, satisfied. cbv zeta.
  rewrite !app_nil, required_check.
  rewrite (minLength_check (field data fieldName) (Rule.minLength rule)
             (fun m => fieldName +:+ " must be at least " +:+ pretty m
                       +:+ " characters")).
  rewrite (maxLength_check (field data fieldName) (Rule.maxLength rule)
             (fun m => fieldName +:+ " must be no more than " +:+ pretty m
                       +:+ " characters")).
  rewrite pattern_check.
  split.
  - intros (H1 & H2 & H3 & H4). split; [exact H1 |].
    intros s Hs Hne. repeat split; eauto.
  - intros (H1 & H). split; [exact H1 |].
    repeat split; intros s Hs Hne; now apply (H s Hs Hne).
Qed.

Lemma validateData_errors_nil (data : list (string * Js))
    (rules : list (string * Rule.t)) :
  Validation.errors (validateData data rules) = []
  <-> Forall (fun entry => satisfied (field data (fst entry)) (snd entry))
             rules.
Proof.
  unfold validateData. cbn [Validation.errors].
  induction rules as [| [fieldName rule] rules IH]; cbn [flat_map].
  - split; [constructor | reflexivity].
  - rewrite app_nil, Forall_cons_iff, IH, validateField_nil. reflexivity.
Qed.

Lemma validateData_isValid (data : list (string * Js))
    (rules : list (string * Rule.t)) :
  Validation.isValid (validateData data rules)
  = bool_decide (Validation.errors (validateData data rules) = []).
Proof. reflexivity. Qed.



(** X21. Values that are no strings are not measured: a record in which
    every field named by the rules holds a truthy value that is no string
    (a number, [true], an array, an object) is valid under any rules,
    whatever lengths and patterns they ask for. *)
Theorem validateData_passes_non_strings (data : list (string * Js))
    (rules : list (string * Rule.t)) :
  Forall (fun entry => truthy (field data (fst entry)) = true
                       /\ is_string (field data (fst entry)) = false) rules ->
  validateData data rules
  = {| Validation.isValid := true; Validation.errors := [] |}.
Proof.
  intros Hvalues.
  assert (Herrors : Validation.errors (validateData data rules) = []).
  { apply validateData_errors_nil.
    apply (List.Forall_impl _ (P := fun entry =>
             truthy (field data (fst entry)) = true
             /\ is_string (field data (fst entry)) = false));
      [| exact Hvalues].
    intros [fieldName rule] [Htruthy Hstring]. cbn [fst snd] in *.
    split; [intros _; exact Htruthy |].
    intros s Hs. rewrite Hs in Hstring. discriminate. }
  pose proof (validateData_isValid data rules) as Hvalid.
  rewrite Herrors in Hvalid.
  destruct (validateData data rules) as [isValid errors].
  cbn in *. now subst.
Qed.

Lemma validateData_passes_non_strings_sample :
  validateData
    [("username", JNumber 1); ("email", JBool true);
     ("firstName", JArray []); ("lastName", JObject []);
     ("password", JNumber 1234); ("role", JNumber 1)]
    (creation_rules (test username_regex) (test email_regex))
  = {| Validation.isValid := true; Validation.errors := [] |}.
Proof.
  apply validateData_passes_non_strings.
  repeat (apply List.Forall_cons; [split; reflexivity |]).
  apply List.Forall_nil.
Defined.



(** ** The validation of [UserController] *)

Lemma limit_asked (limit : Z) (P : Z -> Prop) :
  (forall m, Some limit = Some m -> m <> 0 -> P m) <-> (limit <> 0 -> P limit).
Proof.
  split.
  - intros H. now apply H.
  - intros H m [= <-]. exact H.
Qed.

Lemma nothing_asked {A : Type} (P : A -> Prop) :
  (forall m, @None A = Some m -> P m) <-> True.
Proof. split; [trivial | discriminate]. Qed.

Lemma pattern_asked (pattern : RegExp) (s : string) :
  (forall p, Some pattern = Some p -> p s = true) <-> pattern s = true.
Proof.
  split.
  - intros H. now apply H.
  - intros H p [= <-]. exact H.
Qed.

(** What a rule with [required: true] asks of a string. *)
Lemma satisfied_required_string (s : string) (minLength maxLength : option Z)
    (pattern : option RegExp) :
  satisfied (JString s) (Rule.mk (Some true) minLength maxLength pattern)
  <-> s <> ""
      /\ (forall m, minLength = Some m -> m <> 0 ->
                    m <= Z.of_nat (String.length s))
      /\ (forall m, maxLength = Some m -> m <> 0 ->
                    Z.of_nat (String.length s) <= m)
      /\ (forall p, pattern = Some p -> p s = true).
Proof.
  unfold satisfied. cbn [Rule.required Rule.minLength Rule.maxLength
                          Rule.pattern].
  rewrite <- truthy_JString. split.
  - intros [Hrequired Hstring]. specialize (Hrequired eq_refl).
    split; [exact Hrequired |]. apply (Hstring s eq_refl).
    now apply truthy_JString.
  - intros (Hrequired & Hrest). split; [intros _; exact Hrequired |].
    intros s' [= <-] _. exact Hrest.
Qed.

(** What a rule without [required] asks of a field that may be absent. *)
Lemma satisfied_optional (value : option string) (minLength maxLength : option Z)
    (pattern : option RegExp) :
  satisfied (from_option JString JUndefined value)
            (Rule.mk None minLength maxLength pattern)
  <-> match value with
      | Some s =>
          s = ""
          \/ ((forall m, minLength = Some m -> m <> 0 ->
                         m <= Z.of_nat (String.length s))
              /\ (forall m, maxLength = Some m -> m <> 0 ->
                            Z.of_nat (String.length s) <= m)
              /\ (forall p, pattern = Some p -> p s = true))
      | None => True
      end.
Proof.
  unfold satisfied. cbn [Rule.required Rule.minLength Rule.maxLength
                          Rule.pattern].
  destruct value as [s |]; cbn [from_option].
  - split.
    + intros [_ Hstring]. destruct (decide (s = "")) as [Hs | Hs];
        [now left | right]. now apply (Hstring s eq_refl).
    + intros Hs. split; [discriminate |]. intros s' [= <-] Hne.
      destruct Hs as [Hs | Hs]; [contradiction | exact Hs].
  - split; [trivial |]. intros _. split; discriminate.
Qed.

Lemma satisfied_required_absent (value : option string)
    (minLength maxLength : option Z) (pattern : option RegExp) :
  satisfied (from_option JString JUndefined value)
            (Rule.mk (Some true) minLength maxLength pattern)
  <-> exists s, value = Some s
                /\ satisfied (JString s)
                     (Rule.mk (Some true) minLength maxLength pattern).
Proof.
  destruct value as [s |]; cbn [from_option].
  - split; [eauto |]. now intros (s' & [= <-] & H).
  - split.
    + intros [Hrequired _]. discriminate (Hrequired eq_refl).
    + intros (s' & Hs & _). discriminate.
Qed.

Lemma creation_object_fields (data : UserCreateData.t) :
  field (creation_object data) "username"
  = JString (UserCreateData.username data)
  /\ field (creation_object data) "email"
     = JString (UserCreateData.email data)
  /\ field (creation_object data) "firstName"
     = JString (UserCreateData.firstName data)
  /\ field (creation_object data) "lastName"
     = JString (UserCreateData.lastName data)
  /\ field (creation_object data) "password"
     = JString (UserCreateData.password data)
  /\ field (creation_object data) "role"
     = JString (UserCreateData.role data).
Proof. repeat split; reflexivity. Qed.

Lemma update_object_fields (data : UserUpdateData.t) :
  field (update_object data) "firstName"
  = from_option JString JUndefined (UserUpdateData.firstName data)
  /\ field (update_object data) "lastName"
     = from_option JString JUndefined (UserUpdateData.lastName data)
  /\ field (update_object data) "phone"
     = from_option JString JUndefined (UserUpdateData.phone data).
Proof.
  destruct data as [[?|] [?|] [?|] [?|] [?|] [?|] [?|] [?|]];
    repeat split; reflexivity.
Qed.

Lemma length_within_Z (low high : nat) (s : string) :
  (Z.of_nat low <> 0 -> Z.of_nat low <= Z.of_nat (String.length s))
  /\ (Z.of_nat high <> 0 -> Z.of_nat (String.length s) <= Z.of_nat high)
  <-> (low = 0%nat \/ (low <= String.length s)%nat)
      /\ (high = 0%nat \/ (String.length s <= high)%nat).
Proof. lia. Qed.

(** X23. [UserController.create] finds a [UserCreateData] valid exactly
    when: the username has 3 to 30 characters, all of them letters, digits
    or underscores; the email reads [local@domain.tld] with three non-empty
    parts free of white space and of [@]; the first and the last name have
    2 to 50 characters each; the password has at least 8 characters; and
    the role is not empty. The optional fields are not looked at. *)
Theorem UserController_create_accepts (data : UserCreateData.t) :
  Validation.isValid
    (validateData (creation_object data)
       (creation_rules (test username_regex) (test email_regex))) = true
  <-> acceptable_user data.
Proof.
  rewrite validateData_isValid, bool_decide_eq_true, validateData_errors_nil.
  unfold creation_rules, acceptable_user.
  rewrite !Forall_cons_iff, Forall_nil_iff. cbn [fst snd].
  destruct (creation_object_fields data)
    as (-> & -> & -> & -> & -> & ->).
  rewrite !satisfied_required_string.
  rewrite !(nothing_asked (A := Z)), !(nothing_asked (A := RegExp)).
  rewrite !pattern_asked, test_username, test_email.
  rewrite (limit_asked 3), (limit_asked 30), !(limit_asked 2),
    !(limit_asked 50), (limit_asked 8).
  unfold length_within, username_shaped, email_shaped.
  assert (Hempty : forall s, (2 <= String.length s)%nat -> s <> "").
  { intros s Hlen ->. cbn in Hlen. lia. }
  split.
  - intros ((_ & H3 & H30 & Hname) & (_ & _ & _ & Hemail)
            & (_ & Hf2 & Hf50 & _) & (_ & Hl2 & Hl50 & _)
            & (_ & Hp8 & _ & _) & (Hrole & _) & _).
    repeat split; try assumption; try apply Hname; lia.
  - intros ((Hne & Hall) & [H3 H30] & Hemail & [Hf2 Hf50] & [Hl2 Hl50]
            & Hp8 & Hrole).
    assert (Hmail : UserCreateData.email data <> "").
    { destruct Hemail as (local & domain & tld & Hchars & Hlocal & _).
      intros Hnil. rewrite Hnil in Hchars. cbn in Hchars.
      destruct local; [contradiction | discriminate]. }
    assert (Hpass : UserCreateData.password data <> "").
    { intros Hnil. rewrite Hnil in Hp8. cbn in Hp8. lia. }
    repeat split; try assumption; try (apply Hempty; lia); try lia.
Qed.

(** X24. [UserController.updateUserProfile] finds a [UserUpdateData] valid
    exactly when it carries a first name and a last name of 2 to 50
    characters each and its phone number, if there is one and it is not
    empty, is an optional [+], a digit from 1 to 9 and at most fifteen more
    digits. An update that leaves out either name is never valid, although
    the type makes both optional. *)
Theorem UserController_updateUserProfile_accepts (data : UserUpdateData.t) :
  Validation.isValid
    (validateData (update_object data) (profile_rules (test phone_regex)))
  = true
  <-> acceptable_profile data.
Proof.
  rewrite validateData_isValid, bool_decide_eq_true, validateData_errors_nil.
  unfold profile_rules, acceptable_profile, given_name.
  rewrite !Forall_cons_iff, Forall_nil_iff. cbn [fst snd].
  destruct (update_object_fields data) as (-> & -> & ->).
  rewrite !satisfied_required_absent, satisfied_optional.
  assert (Hname : forall name : option string,
    (exists s, name = Some s
               /\ satisfied (JString s)
                    (Rule.mk (Some true) (Some 2) (Some 50) None))
    <-> (exists s, name = Some s /\ length_within 2 50 s)).
  { intros name. split; intros (s & Hs & H); exists s; (split; [exact Hs |]).
    - apply satisfied_required_string in H as (_ & H2 & H50 & _).
      specialize (H2 2 eq_refl). specialize (H50 50 eq_refl).
      unfold length_within. lia.
    - apply satisfied_required_string. unfold length_within in H.
      split; [| split; [| split]].
      + intros ->. cbn in H. lia.
      + intros m [= <-] _. lia.
      + intros m [= <-] _. lia.
      + discriminate. }
  rewrite !Hname.
  assert (Hphone :
    match UserUpdateData.phone data with
    | Some s =>
        s = ""
        \/ ((forall m : Z, None = Some m -> m <> 0 ->
                           m <= Z.of_nat (String.length s))
            /\ (forall m : Z, None = Some m -> m <> 0 ->
                              Z.of_nat (String.length s) <= m)
            /\ (forall p, Some (test phone_regex) = Some p -> p s = true))
    | None => True
    end
    <-> match UserUpdateData.phone data with
        | Some phone => phone = "" \/ phone_shaped phone
        | None => True
        end).
  { destruct (UserUpdateData.phone data) as [s |]; [| reflexivity].
    rewrite pattern_asked, test_phone. split.
    - intros [H | (_ & _ & H)]; tauto.
    - intros [H | H]; [now left | right].
      repeat split; try discriminate. exact H. }
  rewrite Hphone. tauto.
Qed.

Lemma validation_gate {A : Type} (validation : Validation.t)
    (continue : M A) (handler : Thrown -> M A) (w : World) :
  async (try_catch
           (let* _ :=
              if negb (Validation.isValid validation)
              then throw (Err ("Validation failed: "
                               +:+ join ", " (Validation.errors validation)))
              else ret tt in
            continue)
           handler) w
  = if Validation.isValid validation
    then async (try_catch continue handler) w
    else async (handler (Err ("Validation failed: "
                              +:+ join ", " (Validation.errors validation))))
               w.
Proof.
  destruct (Validation.isValid validation); reflexivity.
Qed.

(** X25. [UserController.create] validates before it calls the service:
    data that are not valid are rejected with
    [Validation failed: <the errors, joined by ", ">], whatever the service
    would answer. Valid data are handed to [create] of the service, and then
    the call needs an answer it can read an [id] from: when the service
    resolves with [undefined] or [null], the promise is rejected with the
    [TypeError] of reading [id], although the service has carried the
    creation out; any other answer is passed on as it is, and so is a
    rejection of the service. The state is left alone. *)
Theorem UserController_create_validates_first
    (not_a_function : string -> string)
    (cannot_read : Js -> string -> string)
    (answers : string -> list Js -> Promise Js)
    (data : list (string * Js)) (w : World) :
  UserController_create_user not_a_function cannot_read
    (new_UserController answers) data w
  = (Normal
       (if Validation.isValid
             (validateData data
                (creation_rules (test username_regex) (test email_regex)))
        then match answers "create" [JObject data] with
             | Fulfilled JUndefined =>
                 Rejected (Err (cannot_read JUndefined "id"))
             | Fulfilled JNull => Rejected (Err (cannot_read JNull "id"))
             | answer => answer
             end
        else Rejected (Err
               ("Validation failed: "
                +:+ join ", "
                      (Validation.errors
                         (validateData data
                            (creation_rules (test username_regex)
                               (test email_regex))))))), w).
Proof.
  unfold UserController_create_user, UserController_create. cbv zeta.
  rewrite validation_gate.
  destruct (Validation.isValid
              (validateData data
                 (creation_rules (test username_regex) (test email_regex))));
    [| reflexivity].
  rewrite guarded_call_run.
  change (includes (methods (service_of (new_UserController answers)))
                   "create") with true.
  cbv iota.
  change (backend (service_of (new_UserController answers))) with answers.
  destruct (answers "create" [JObject data]) as [| [| | | | | |] |];
    reflexivity.
Qed.

Lemma UserController_create_validates_first_sample :
  UserController_create_user (fun method => method +:+ " is not a function")
    (fun _ key => "Cannot read properties of undefined (reading " +:+ key)
    (new_UserController empty_backend)
    [("username", JString "ab"); ("email", JString "ada@example");
     ("firstName", JString "Ada"); ("lastName", JString "Lovelace");
     ("password", JString "short")]
    sample_world
  = (Normal (Rejected (Err
       ("Validation failed: username must be at least 3 characters, "
        +:+ "email format is invalid, "
        +:+ "password must be at least 8 characters, role is required"))),
     sample_world)
  /\ UserController_create_user
       (fun method => method +:+ " is not a function")
       (fun _ key => "Cannot read properties of undefined (reading " +:+ key)
       (new_UserController (fun _ _ => Fulfilled JUndefined))
       (creation_object ada) sample_world
     = (Normal (Rejected
          (Err "Cannot read properties of undefined (reading id")),
        sample_world).
Proof.
  split.
  - rewrite (UserController_create_validates_first
               (fun method => method +:+ " is not a function")
               (fun _ key =>
                  "Cannot read properties of undefined (reading " +:+ key)
               empty_backend).
    vm_compute. reflexivity.
  - rewrite (UserController_create_validates_first
               (fun method => method +:+ " is not a function")
               (fun _ key =>
                  "Cannot read properties of undefined (reading " +:+ key)
               (fun _ _ => Fulfilled JUndefined)).
    vm_compute. reflexivity.
Defined.

(** X26. [UserController.updateUserProfile] validates before it calls the
    service: an update that is not valid is rejected with
    [Validation failed: ...] whatever the service would answer; a valid
    one is handed to [updateUserProfile] of the service, whose answer is
    passed on as it is, a falsy one included. *)
Theorem UserController_updateUserProfile_validates_first
    (not_a_function : string -> string)
    (answers : string -> list Js -> Promise Js)
    (userId : Js) (data : list (string * Js)) (w : World) :
  UserController_update_profile not_a_function
    (new_UserController answers) userId data w
  = (Normal
       (if Validation.isValid
             (validateData data (profile_rules (test phone_regex)))
        then answers "updateUserProfile" [userId; JObject data]
        else Rejected (Err
               ("Validation failed: "
                +:+ join ", "
                      (Validation.errors
                         (validateData data
                            (profile_rules (test phone_regex))))))), w).
Proof.
  unfold UserController_update_profile, UserController_updateUserProfile.
  cbv zeta. rewrite validation_gate.
  destruct (Validation.isValid
              (validateData data (profile_rules (test phone_regex))));
    [| reflexivity].
  rewrite guarded_call_run.
  change (includes (methods (service_of (new_UserController answers)))
                   "updateUserProfile") with true.
  cbv iota.
  change (backend (service_of (new_UserController answers))) with answers.
  destruct (answers "updateUserProfile" [userId; JObject data]); reflexivity.
Qed.

Lemma UserController_create_accepts_sample : acceptable_user ada.
Proof.
  apply (proj1 (UserController_create_accepts ada)).
  vm_compute. reflexivity.
Defined.

Lemma UserController_updateUserProfile_accepts_sample :
  acceptable_profile renamed /\ ~ acceptable_profile only_phone.
Proof.
  split.
  - apply (proj1 (UserController_updateUserProfile_accepts renamed)).
    vm_compute. reflexivity.
  - intros Hok.
    apply (proj2 (UserController_updateUserProfile_accepts only_phone)) in Hok.
    vm_compute in Hok. discriminate Hok.
Defined.

Lemma UserController_updateUserProfile_validates_first_sample :
  UserController_update_profile (fun method => method +:+ " is not a function")
    (new_UserController empty_backend) (JNumber 4) (update_object only_phone)
    sample_world
  = (Normal (Rejected (Err
       "Validation failed: firstName is required, lastName is required")),
     sample_world).
Proof.
  rewrite (UserController_updateUserProfile_validates_first
             (fun method => method +:+ " is not a function")
             empty_backend (JNumber 4) (update_object only_phone)
             sample_world).
  vm_compute. reflexivity.
Defined.

(** ** [UserService.getUsers] *)



Section GetUsers.
Variable Date_now : nat -> Z.
Variable toISOString : Z -> string.
Variable toLowerCase : string -> string.

Lemma UserService_getUsers_run (params : ListParams.t) (w : World) :
  exists response,
    UserService_getUsers Date_now toISOString toLowerCase params w
    = (Normal (Fulfilled response), extend w [SetTimeout 800])
    /\ PaginatedResponse.data (ApiResponse.data response)
       = slice (filteredUsers Date_now toISOString toLowerCase params)
           ((or_default (ListParams.page params) 1 - 1)
            * or_default (ListParams.limit params) 10)
           ((or_default (ListParams.page params) 1 - 1)
            * or_default (ListParams.limit params) 10
            + or_default (ListParams.limit params) 10)
    /\ Pagination.total
         (PaginatedResponse.pagination (ApiResponse.data response))
       = Z.of_nat
           (length (filteredUsers Date_now toISOString toLowerCase params))
    /\ Pagination.totalPages
         (PaginatedResponse.pagination (ApiResponse.data response))
       = Math_ceil_quotient
           (Z.of_nat
              (length (filteredUsers Date_now toISOString toLowerCase params)))
           (or_default (ListParams.limit params) 10).
Proof.
  eexists. split; [reflexivity |]. repeat split; reflexivity.
Qed.



End GetUsers.


Lemma In_slice {A : Type} (l : list A) (start fin : Z) (x : A) :
  In x (slice l start fin) -> In x l.
Proof.
  unfold slice. cbv zeta. intros Hin.
  apply list_elem_of_In. apply list_elem_of_In in Hin.
  eapply elem_of_sublist; [exact Hin |].
  etransitivity; [apply sublist_take | apply sublist_drop].
Qed.

(** X28. Whatever page and page size are asked for, [getUsers] lists only
    users of its table that pass the filters: a user listed has the role
    asked for, when a role that is not empty is asked for; is active or not
    as asked for, [isActive: false] included; and has the search text,
    lower-cased, in the lower-cased first name, last name or address, when
    a search text that is not empty is given. *)
Theorem getUsers_lists_only_matching
    (Date_now : nat -> Z) (toISOString : Z -> string)
    (toLowerCase : string -> string)
    (params : ListParams.t) (w : World) (user : UserData.t) :
  In user (users_listed Date_now toISOString toLowerCase params w) ->
  In user (mockUsers Date_now toISOString)
  /\ (forall filters, ListParams.filters params = Some filters ->
        (forall wanted, UserFilters.role filters = Some wanted ->
                        wanted <> "" -> UserData.role user = wanted)
        /\ (forall wanted, UserFilters.isActive filters = Some wanted ->
                           UserData.isActive user = wanted)
        /\ (forall text, UserFilters.search filters = Some text ->
                         text <> "" ->
              String_includes (toLowerCase (UserData.firstName user))
                              (toLowerCase text)
              || String_includes (toLowerCase (UserData.lastName user))
                                 (toLowerCase text)
              || String_includes (toLowerCase (UserData.email user))
                                 (toLowerCase text) = true)).
Proof.
  intros Hlisted. unfold users_listed in Hlisted.
  destruct (UserService_getUsers_run Date_now toISOString toLowerCase
              params w) as (response & Hrun & Hdata & _).
  rewrite Hrun, Hdata in Hlisted. apply In_slice in Hlisted.
  unfold filteredUsers in Hlisted. cbv zeta in Hlisted.
  destruct (ListParams.filters params) as [[role isActive search] |];
    cbn [mbind option_bind UserFilters.role UserFilters.isActive
         UserFilters.search] in Hlisted.
  - assert (Hsearch :
        In user
          (match isActive with
           | Some wanted =>
               List.filter (fun u => eqb (UserData.isActive u) wanted)
                 match role with
                 | Some wanted' =>
                     if truthy_string role
                     then List.filter
                            (fun u => bool_decide (UserData.role u = wanted'))
                            (mockUsers Date_now toISOString)
                     else mockUsers Date_now toISOString
                 | None => mockUsers Date_now toISOString
                 end
           | None =>
               match role with
               | Some wanted' =>
                   if truthy_string role
                   then List.filter
                          (fun u => bool_decide (UserData.role u = wanted'))
                          (mockUsers Date_now toISOString)
                   else mockUsers Date_now toISOString
               | None => mockUsers Date_now toISOString
               end
           end)
        /\ (forall text, search = Some text -> text <> "" ->
              String_includes (toLowerCase (UserData.firstName user))
                              (toLowerCase text)
              || String_includes (toLowerCase (UserData.lastName user))
                                 (toLowerCase text)
              || String_includes (toLowerCase (UserData.email user))
                                 (toLowerCase text) = true)).
    { destruct search as [text |].
      - destruct (truthy_string (Some text)) eqn:Htruthy.
        + apply List.filter_In in Hlisted as [Hin Hpass].
          split; [exact Hin |]. now intros text' [= <-] _.
        + split; [exact Hlisted |]. intros text' [= <-] Hne.
          destruct text; [contradiction | discriminate].
      - split; [exact Hlisted | discriminate]. }
    destruct Hsearch as [Hactive Hsearch].
    assert (Hrole :
        In user
          match role with
          | Some wanted' =>
              if truthy_string role
              then List.filter
                     (fun u => bool_decide (UserData.role u = wanted'))
                     (mockUsers Date_now toISOString)
              else mockUsers Date_now toISOString
          | None => mockUsers Date_now toISOString
          end
        /\ (forall wanted, isActive = Some wanted ->
                           UserData.isActive user = wanted)).
    { destruct isActive as [wanted |].
      - apply List.filter_In in Hactive as [Hin Hpass].
        split; [exact Hin |]. intros wanted' [= <-].
        now apply eqb_prop.
      - split; [exact Hactive | discriminate]. }
    destruct Hrole as [Hrole Hactive'].
    assert (Htable :
        In user (mockUsers Date_now toISOString)
        /\ (forall wanted, role = Some wanted -> wanted <> "" ->
                           UserData.role user = wanted)).
    { destruct role as [wanted |].
      - destruct (truthy_string (Some wanted)) eqn:Htruthy.
        + apply List.filter_In in Hrole as [Hin Hpass].
          split; [exact Hin |]. intros wanted' [= <-] _.
          now apply bool_decide_eq_true in Hpass.
        + split; [exact Hrole |]. intros wanted' [= <-] Hne.
          destruct wanted; [contradiction | discriminate].
      - split; [exact Hrole | discriminate]. }
    destruct Htable as [Htable Hrole'].
    split; [exact Htable |].
    intros filters [= <-]. cbn. repeat split; assumption.
  - split; [exact Hlisted | discriminate].
Qed.

Lemma getUsers_lists_only_matching_sample :
  users_listed still_clock decimal_date lower_ascii inactive_only sample_world
  = [bob]
  /\ In bob (mockUsers still_clock decimal_date)
  /\ UserData.isActive bob = false.
Proof.
  split; [vm_compute; reflexivity |].
  destruct (getUsers_lists_only_matching still_clock decimal_date lower_ascii
              inactive_only sample_world bob
              ltac:(vm_compute; left; reflexivity))
    as [Htable Hfilters].
  split; [exact Htable |].
  destruct (Hfilters _ eq_refl) as (_ & Hactive & _).
  now apply Hactive.
Defined.

(** X29. [sendCustomEmail] needs no template: in every state of the service
    it hands exactly one message to the transport, with the configured
    sender, the given recipients, subject, html and attachments, and a
    reply-to address only when one is configured and not empty; it always
    resolves, with [success: true] and the message id when the transport
    accepts the message and with [success: false] and the transport's error
    when it does not. *)
Theorem sendCustomEmail_one_transport_call (env : Env) (to : Recipients)
    (subject htmlContent : string) (attachments : option (list Attachment.t))
    (w : World) :
  EmailService_sendCustomEmail env to subject htmlContent attachments w
  = (Normal (Fulfilled
       (delivered
          (transporter_sendMail env (trace w)
             (custom_message env to subject htmlContent attachments)))),
     extend w [SendMail (custom_message env to subject htmlContent
                           attachments)]).
Proof.
  assert (Hmessage :
      {| MailOptions.from := EmailConfig.from (EMAIL_CONFIG env);
         MailOptions.to := to;
         MailOptions.subject := subject;
         MailOptions.html := htmlContent;
         MailOptions.attachments := attachments;
         MailOptions.replyTo :=
           if truthy_string (EmailConfig.replyTo (EMAIL_CONFIG env))
           then EmailConfig.replyTo (EMAIL_CONFIG env)
           else None |}
      = custom_message env to subject htmlContent attachments).
  { unfold custom_message. f_equal.
    destruct (EmailConfig.replyTo (EMAIL_CONFIG env)) as [[| c rest] |];
      reflexivity. }
  unfold EmailService_sendCustomEmail. cbv zeta. rewrite Hmessage.
  unfold async, try_catch, bind, sendMail, history, emit, await, ret, extend.
  cbn.
  destruct (transporter_sendMail env (trace w)
              (custom_message env to subject htmlContent attachments));
    reflexivity.
Qed.

(** ** The other convenience sends *)

Lemma async_history_send (env : Env) (data : Trace -> EmailData.t)
    (w : World) :
  async (let* h := history in
         let* sending := EmailService_sendEmail env (data h) in
         await sending) w
  = EmailService_sendEmail env (data (trace w)) w.
Proof.
  change (async (let* h := history in
                 let* sending := EmailService_sendEmail env (data h) in
                 await sending) w)
    with (async (let* sending :=
                   EmailService_sendEmail env (data (trace w)) in
                 await sending) w).
  apply async_await_send.
Qed.

(** X30. The controller's [sendPasswordResetEmail] and
    [sendNotificationEmail] each resolve with what the service's [sendEmail]
    resolves with for one message: to the address of the user (of the
    recipient), under the template ["password-reset"] with the fixed subject
    (under the template ["notification"] with the subject of the
    notification), with the time of the call as [requestTime] ([timestamp])
    and, for a notification, [priority-<priority>] as [priorityClass]. They
    never reject and ask at most one message of the transport. *)
Theorem reset_and_notification_are_one_send (env : Env)
    (email firstName lastName username resetUrl expiryTime name : string)
    (notification : Notification.t) (w : World) :
  EmailController_sendPasswordResetEmail env email firstName lastName
    username resetUrl expiryTime w
  = EmailService_sendEmail env
      (reset_data env (trace w) email firstName lastName username resetUrl
                  expiryTime) w
  /\ EmailController_sendNotificationEmail env email name notification w
     = EmailService_sendEmail env
         (notification_data env (trace w) email name notification) w
  /\ (exists r evs,
        EmailController_sendPasswordResetEmail env email firstName lastName
          username resetUrl expiryTime w
        = (Normal (Fulfilled r), extend w evs)
        /\ (length evs <= 1)%nat)
  /\ (exists r evs,
        EmailController_sendNotificationEmail env email name notification w
        = (Normal (Fulfilled r), extend w evs)
        /\ (length evs <= 1)%nat).
Proof.
  assert (Hreset :
      EmailController_sendPasswordResetEmail env email firstName lastName
        username resetUrl expiryTime w
      = EmailService_sendEmail env
          (reset_data env (trace w) email firstName lastName username
                      resetUrl expiryTime) w).
  { destruct (EmailService_sendEmail_run env
                (reset_data env (trace w) email firstName lastName username
                            resetUrl expiryTime) w)
      as (r & evs & Hrun & _).
    unfold EmailController_sendPasswordResetEmail.
    rewrite Hrun. apply controller_passes_on.
    unfold EmailService_sendPasswordResetEmail.
    rewrite <- Hrun.
    apply (async_history_send env
             (fun h => reset_data env h email firstName lastName username
                                  resetUrl expiryTime)). }
  assert (Hnotification :
      EmailController_sendNotificationEmail env email name notification w
      = EmailService_sendEmail env
          (notification_data env (trace w) email name notification) w).
  { destruct (EmailService_sendEmail_run env
                (notification_data env (trace w) email name notification) w)
      as (r & evs & Hrun & _).
    unfold EmailController_sendNotificationEmail.
    rewrite Hrun. apply controller_passes_on.
    unfold EmailService_sendNotificationEmail.
    rewrite <- Hrun.
    apply (async_history_send env
             (fun h => notification_data env h email name notification)). }
  split; [exact Hreset |]. split; [exact Hnotification |].
  rewrite Hreset, Hnotification.
  split; apply EmailService_sendEmail_run.
Qed.
